(** * IPTA 2018 workshop notebooks: the notebook-local glue code

    The notebooks delegate modelling and sampling to external libraries; what
    they implement themselves is glue: parsing the stdout of a subprocess,
    locating a parameter's column in a chain file, globbing and pairing data
    files, merging noise dictionaries, computing a burn-in index and a time
    span.  This development embeds that glue, cell by cell, and proves the
    properties stated about it.

    Conventions.  Python byte strings and ASCII text are [string]; a Python
    list is a [list]; a dict is a [gmap]; a raised exception is a value of an
    error type; a call into an external library whose result the glue only
    passes on is a section variable. *)

From Stdlib Require Import ZArith List String Ascii Bool Lia Sorted Permutation.
From Stdlib Require Import DecimalString.
From stdpp Require Import gmap strings list.

Local Open Scope string_scope.
Local Open Scope list_scope.

(** [simpl] may unfold [+:+] applied to a string that starts with a known
    character. *)
#[local] Arguments String.append !s1 s2 : simpl nomatch.

(** ** Python string and list primitives used by the cells *)

Module Py.

(** [s.split(sep)] for a one-character separator: [n] occurrences of [sep]
    give [n + 1] pieces, empty pieces included. *)
Fixpoint split (sep : ascii) (s : string) : list string :=
  match s with
  | EmptyString => [EmptyString]
  | String c s' =>
      if Ascii.eqb c sep then EmptyString :: split sep s'
      else match split sep s' with
           | [] => [String c EmptyString]
           | p :: ps => String c p :: ps
           end
  end.

(** [sub in s]: [sub] occurs in [s] as a contiguous substring. *)
Fixpoint contains (sub s : string) : bool :=
  String.prefix sub s ||
  match s with
  | EmptyString => false
  | String _ s' => contains sub s'
  end.

(** The bytes [bytes.strip()] treats as whitespace: space, tab, newline,
    carriage return, vertical tab, form feed. *)
Definition is_space (c : ascii) : bool :=
  let n := nat_of_ascii c in
  (n =? 32)%nat || ((9 <=? n)%nat && (n <=? 13)%nat).

(** The characters [split()] treats as whitespace in a text, among the
    code points below 256: those of [is_space], the separators 28 to 31,
    the next-line character 133 and the no-break space 160. *)
Definition is_text_space (c : ascii) : bool :=
  let n := nat_of_ascii c in
  ((9 <=? n)%nat && (n <=? 13)%nat) || ((28 <=? n)%nat && (n <=? 32)%nat)
  || (n =? 133)%nat || (n =? 160)%nat.

Fixpoint lstrip (s : string) : string :=
  match s with
  | EmptyString => EmptyString
  | String c s' => if is_space c then lstrip s' else s
  end.

Fixpoint rstrip (s : string) : string :=
  match s with
  | EmptyString => EmptyString
  | String c s' =>
      match rstrip s' with
      | EmptyString => if is_space c then EmptyString else String c EmptyString
      | r => String c r
      end
  end.

Definition strip (s : string) : string := rstrip (lstrip s).

(** The text [s] holds a whitespace character. *)
Fixpoint has_space (s : string) : bool :=
  match s with
  | EmptyString => false
  | String c s' => is_text_space c || has_space s'
  end.

(** [s.split()] on a text: the maximal runs of non-whitespace characters
    of [s]. *)
Fixpoint words (s : string) : list string :=
  match s with
  | EmptyString => []
  | String c s' =>
      if is_text_space c then words s'
      else match s' with
           | EmptyString => [String c EmptyString]
           | String d _ =>
               if is_text_space d then String c EmptyString :: words s'
               else match words s' with
                    | w :: ws => String c w :: ws
                    | [] => [String c EmptyString]
                    end
           end
  end.

(** The text a file opened in text mode gives: a carriage return, alone
    or before a newline, reads as a newline. *)
Fixpoint universal_newlines (s : string) : string :=
  match s with
  | EmptyString => EmptyString
  | String c s' =>
      if Ascii.eqb c "013" then
        match s' with
        | EmptyString => String "010" EmptyString
        | String d _ =>
            if Ascii.eqb d "010" then universal_newlines s'
            else String "010" (universal_newlines s')
        end
      else String c (universal_newlines s')
  end.

(** [l.index(x)]: position of the first element equal to [x]; [None] is
    Python's [ValueError]. *)
Fixpoint index (x : string) (l : list string) : option nat :=
  match l with
  | [] => None
  | y :: l' => if String.eqb y x then Some 0%nat else S <$> index x l'
  end.

(** [x in l] for a list (or a NumPy array) of strings. *)
Definition mem (x : string) (l : list string) : bool :=
  existsb (String.eqb x) l.

(** [sorted(l)] on strings: ascending in the code-point order of
    [String.compare].  Python's sort is stable; insertion from the right
    keeps equal items in their input order. *)
Fixpoint insert_sorted (x : string) (l : list string) : list string :=
  match l with
  | [] => [x]
  | y :: l' => if String.leb x y then x :: l else y :: insert_sorted x l'
  end.

Fixpoint sorted (l : list string) : list string :=
  match l with
  | [] => []
  | x :: l' => insert_sorted x (sorted l')
  end.

Definition starts_with (p s : string) : bool := String.prefix p s.

(** [c in s] for a single character. *)
Fixpoint has_char (c : ascii) (s : string) : bool :=
  match s with
  | EmptyString => false
  | String d s' => Ascii.eqb d c || has_char c s'
  end.

Fixpoint ends_with (p s : string) : bool :=
  String.eqb p s ||
  match s with
  | EmptyString => false
  | String _ s' => ends_with p s'
  end.

End Py.

Example split_ex1 : Py.split "="%char "a = 1 = 2" = ["a "; " 1 "; " 2"].
Proof. reflexivity. Qed.
Example split_ex2 : Py.split "="%char "" = [""].
Proof. reflexivity. Qed.
Example split_ex3 : Py.split "/"%char "./d//J1.par" = ["."; "d"; ""; "J1.par"].
Proof. reflexivity. Qed.
Example strip_ex : Py.strip "  1380.78 	" = "1380.78".
Proof. reflexivity. Qed.
Example contains_ex : Py.contains "Central freq" "  Central freq (MHz) = 1380.78" = true.
Proof. reflexivity. Qed.
Example words_ex : Py.words "  J1713+0747_efac   -7.5 	x " = ["J1713+0747_efac"; "-7.5"; "x"].
Proof. reflexivity. Qed.
Example words_separators_ex :
  Py.words (String "a" (String "031" (String "b" (String "160" "c")))) = ["a"; "b"; "c"].
Proof. reflexivity. Qed.
Example universal_newlines_ex :
  Py.universal_newlines
    (String "a" (String "013" (String "010" (String "b" (String "013" "c")))))
  = String "a" (String "010" (String "b" (String "010" "c"))).
Proof. reflexivity. Qed.
Example sorted_ex : Py.sorted ["b.par"; "a.par"; "B.par"] = ["B.par"; "a.par"; "b.par"].
Proof. reflexivity. Qed.

(** ** NumPy arrays as [np.loadtxt] returns them

    [np.loadtxt] collects the rows of a text file into an
    [nrows x ncols] array and, at its default [ndmin=0], squeezes away every
    axis of length one: a file of one row comes back with a single axis, a
    file of one field with none. *)

Module Numpy.

Inductive ndarray (A : Type) :=
| Arr0 (v : A)
| Arr1 (l : list A)
| Arr2 (rows : list (list A)).

Arguments Arr0 {A} v.
Arguments Arr1 {A} l.
Arguments Arr2 {A} rows.

(** A string as an array of strings holds it: the cells of such an array
    have one width and are padded with NUL characters, and an element is
    read without the NUL characters at its end. *)
Fixpoint unpad (s : string) : string :=
  match s with
  | EmptyString => EmptyString
  | String c s' =>
      match unpad s' with
      | EmptyString => if Ascii.eqb c "000" then EmptyString else String c EmptyString
      | r => String c r
      end
  end.

(** [np.squeeze] of the array of at least one row. *)
Definition squeeze {A} (rows : list (list A)) : ndarray A :=
  match rows with
  | [[v]] => Arr0 v
  | [r] => Arr1 r
  | _ =>
      if forallb (fun r => (length r =? 1)%nat) rows
      then Arr1 (List.concat rows)
      else Arr2 rows
  end.

(** The array [np.loadtxt] builds from the rows it read; [None] is the
    [ValueError] raised when two rows differ in their number of fields.  A
    file without rows gives an empty one-axis array (with a warning). *)
Definition from_rows {A} (rows : list (list A)) : option (ndarray A) :=
  match rows with
  | [] => Some (Arr1 [])
  | r0 :: rest =>
      if forallb (fun r => (length r =? length r0)%nat) rest
      then Some (squeeze (r0 :: rest))
      else None
  end.

(** [a.shape[0]]; an array without axes has an empty shape ([IndexError],
    here [None]). *)
Definition shape0 {A} (a : ndarray A) : option nat :=
  match a with
  | Arr0 _ => None
  | Arr1 l => Some (length l)
  | Arr2 rows => Some (length rows)
  end.

(** [a[b:]] for [b >= 0]. *)
Definition from_row {A} (b : nat) (a : ndarray A) : option (ndarray A) :=
  match a with
  | Arr0 _ => None
  | Arr1 l => Some (Arr1 (drop b l))
  | Arr2 rows => Some (Arr2 (drop b rows))
  end.

(** [a[b:, ind]] for [b >= 0] and [ind >= 0]: defined on two axes only, and
    for a column index within the rows ([IndexError] otherwise). *)
Definition column_from {A} (b ind : nat) (a : ndarray A) : option (list A) :=
  match a with
  | Arr2 rows => mapM (fun row => row !! ind) (drop b rows)
  | _ => None
  end.

End Numpy.

Example from_rows_matrix_ex :
  Numpy.from_rows [[1; 2]; [3; 4]; [5; 6]]%Z = Some (Numpy.Arr2 [[1; 2]; [3; 4]; [5; 6]]%Z).
Proof. reflexivity. Qed.
Example from_rows_one_row_ex :
  Numpy.from_rows [[1; 2; 3]]%Z = Some (Numpy.Arr1 [1; 2; 3]%Z).
Proof. reflexivity. Qed.
Example from_rows_one_column_ex :
  Numpy.from_rows [[1]; [2]; [3]]%Z = Some (Numpy.Arr1 [1; 2; 3]%Z).
Proof. reflexivity. Qed.
Example from_rows_ragged_ex : Numpy.from_rows [[1; 2]; [3]]%Z = None.
Proof. reflexivity. Qed.

(** ** Python floats

    A Python [float] and a NumPy [float64] are IEEE 754 binary64 values, and
    their arithmetic rounds to nearest, ties to even.  The cells format,
    compare, multiply and subtract such values; this module gives the values
    and those operations. *)

Module F64.

Local Open Scope Z_scope.

(** A double.  Every finite double is a whole multiple of the smallest
    subnormal, [2^-1074]: [Fin neg n] is the double [(-1)^neg * n * 2^-1074],
    negative zero included. *)
Inductive t :=
| NaN
| Inf (neg : bool)
| Fin (neg : bool) (n : Z).

(** The spacing of the doubles around [n * 2^-1074], as an exponent over
    [2^-1074]: 53 significant bits, and never finer than [2^-1074]. *)
Definition ulp_exp (n : Z) : Z := Z.max (Z.log2 n - 52) 0.

(** [n * 2^-1074] is a double: below [2^1024], and a multiple of the
    spacing at its size. *)
Definition representable (n : Z) : bool :=
  (0 <=? n) && (n <? 2 ^ 2098) && (n mod 2 ^ ulp_exp n =? 0).

Definition valid (x : t) : bool :=
  match x with
  | Fin _ n => representable n
  | _ => true
  end.

(** The multiple of [2^g] nearest to [p], a tie going to the even
    multiple. *)
Definition nearest (p g : Z) : Z :=
  let q := p / 2 ^ g in
  let r := p mod 2 ^ g in
  let up := if 2 * r <? 2 ^ g then false
            else if 2 ^ g <? 2 * r then true
            else Z.odd q in
  (if up then q + 1 else q) * 2 ^ g.

(** The exact value [p * 2^-(1074+k)], rounded to 53 significant bits (to
    the spacing [2^-1074] among the subnormals), in units of [2^-1074]. *)
Definition rmag (k p : Z) : Z :=
  nearest p (Z.max (Z.log2 p - 52) k) / 2 ^ k.

(** Rounding to nearest, ties to even, with overflow to infinity. *)
Definition round (neg : bool) (k p : Z) : t :=
  let n := rmag k p in
  if n <? 2 ^ 2098 then Fin neg n else Inf neg.

Definition sval (neg : bool) (n : Z) : Z := if neg then - n else n.

(** The double nearest to an integer. *)
Definition of_Z (z : Z) : t := round (z <? 0) 0 (Z.abs z * 2 ^ 1074).

Definition is_nan (x : t) : bool := match x with NaN => true | _ => false end.

Definition is_finite (x : t) : bool := match x with Fin _ _ => true | _ => false end.

(** [x <= y]; false when either is NaN. *)
Definition leb (x y : t) : bool :=
  match x, y with
  | NaN, _ | _, NaN => false
  | Inf true, _ => true
  | _, Inf false => true
  | Inf false, _ => false
  | _, Inf true => false
  | Fin sx nx, Fin sy ny => sval sx nx <=? sval sy ny
  end.

(** [x * y]. *)
Definition mul (x y : t) : t :=
  match x, y with
  | NaN, _ | _, NaN => NaN
  | Inf sx, Inf sy => Inf (xorb sx sy)
  | Inf sx, Fin sy ny => if ny =? 0 then NaN else Inf (xorb sx sy)
  | Fin sx nx, Inf sy => if nx =? 0 then NaN else Inf (xorb sx sy)
  | Fin sx nx, Fin sy ny => round (xorb sx sy) 1074 (nx * ny)
  end.

(** [x - y].  An exact zero difference is [+0], except [-0 - +0 = -0]. *)
Definition sub (x y : t) : t :=
  match x, y with
  | NaN, _ | _, NaN => NaN
  | Inf sx, Inf sy => if Bool.eqb sx sy then NaN else Inf sx
  | Inf sx, Fin _ _ => Inf sx
  | Fin _ _, Inf sy => Inf (negb sy)
  | Fin sx nx, Fin sy ny =>
      let d := sval sx nx - sval sy ny in
      if d =? 0 then Fin (sx && negb sy) 0
      else round (d <? 0) 0 (Z.abs d)
  end.

(** [x / y] for a divisor other than zero (on a zero divisor this is the
    IEEE quotient, where Python's own [/] raises).  The quotient is taken
    with three more bits than the result holds and a sticky bit for the
    remainder, then rounded. *)
(** [-x]. *)
Definition opp (x : t) : t :=
  match x with
  | NaN => NaN
  | Inf s => Inf (negb s)
  | Fin s n => Fin (negb s) n
  end.

Definition div (x y : t) : t :=
  match x, y with
  | NaN, _ | _, NaN => NaN
  | Inf _, Inf _ => NaN
  | Inf sx, Fin sy _ => Inf (xorb sx sy)
  | Fin sx _, Inf sy => Fin (xorb sx sy) 0
  | Fin sx nx, Fin sy ny =>
      if ny =? 0 then (if nx =? 0 then NaN else Inf (xorb sx sy))
      else
        let num := nx * 2 ^ 1075 in
        let sticky := if num mod ny =? 0 then 0 else 1 in
        round (xorb sx sy) 2 (2 * (num / ny) + sticky)
  end.

(** The decimal digits of a natural number. *)
Definition dec (n : Z) : string := NilZero.string_of_uint (N.to_uint (Z.to_N n)).

(** The whole number of tenths nearest to [n * 2^-1074], ties to even. *)
Definition tenths (n : Z) : Z := nearest (10 * n) 1074 / 2 ^ 1074.

(** The rendering of [x] by the format [%0.1f]. *)
Definition fmt_0_1f (x : t) : string :=
  match x with
  | NaN => "nan"
  | Inf neg => if neg then "-inf" else "inf"
  | Fin neg n =>
      (if neg then "-" else "") +:+ dec (tenths n / 10) +:+ "." +:+ dec (tenths n mod 10)
  end.

Definition is_digit (c : ascii) : bool :=
  let n := nat_of_ascii c in (48 <=? n)%nat && (n <=? 57)%nat.

(** One digit after the point: digits, a point, a digit, and nothing
    more. *)
Fixpoint point_digit (s : string) : bool :=
  match s with
  | EmptyString => false
  | String c s' =>
      if is_digit c then point_digit s'
      else Ascii.eqb c "." &&
           match s' with
           | String d EmptyString => is_digit d
           | _ => false
           end
  end.

Definition unsigned_one_decimal (s : string) : bool :=
  match s with
  | EmptyString => false
  | String c s' => is_digit c && point_digit s'
  end.

(** An optional minus sign, at least one digit, a point, one digit. *)
Definition one_decimal (s : string) : bool :=
  match s with
  | String "-" s' => unsigned_one_decimal s'
  | _ => unsigned_one_decimal s
  end.

Fixpoint all_digits (s : string) : bool :=
  match s with
  | EmptyString => true
  | String c s' => is_digit c && all_digits s'
  end.

(** [np.pi], the double nearest to pi: [0x1.921fb54442d18p+1]. *)
Definition np_pi : t := Fin false (7074237752028440 * 2 ^ 1023).

Definition top : Z := 2 ^ 2098.

(** Not NaN, and within the range of the doubles. *)
Definition ordered (x : t) : bool :=
  match x with
  | NaN => false
  | Inf _ => true
  | Fin _ n => (0 <=? n) && (n <? 2 ^ 2098)
  end.

(** The position of a value in the order of the doubles, the infinities
    at the two ends. *)
Definition rank (x : t) : Z :=
  match x with
  | NaN => 0
  | Inf neg => sval neg top
  | Fin neg n => sval neg n
  end.

(** The rank of the rounded difference [d * 2^-1074]. *)
Definition srnd (d : Z) : Z :=
  if d <? 0 then - Z.min (rmag 0 (- d)) top else Z.min (rmag 0 d) top.


(** *** Rounding to the nearest multiple *)

Lemma nearest_cases (p g : Z) :
  0 <= g ->
  nearest p g = p / 2 ^ g * 2 ^ g \/
  (nearest p g = (p / 2 ^ g + 1) * 2 ^ g /\ 0 < p mod 2 ^ g).
Proof.
  intros Hg. unfold nearest.
  assert (HG : 0 < 2 ^ g) by (apply Z.pow_pos_nonneg; lia).
  pose proof (Z.mod_pos_bound p (2 ^ g) HG) as Hr.
  destruct (2 * (p mod 2 ^ g) <? 2 ^ g) eqn:E1; [by left|].
  apply Z.ltb_ge in E1.
  destruct (2 ^ g <? 2 * (p mod 2 ^ g)) eqn:E2.
  - right. split; [done|lia].
  - destruct (Z.odd (p / 2 ^ g)); [|by left]. right. split; [done|lia].
Qed.

Lemma nearest_le_multiple (p g K : Z) :
  0 <= g -> K mod 2 ^ g = 0 -> p <= K -> nearest p g <= K.
Proof.
  intros Hg HK Hp.
  assert (HG : 0 < 2 ^ g) by (apply Z.pow_pos_nonneg; lia).
  pose proof (Z.div_mod p (2 ^ g) ltac:(lia)) as Hdm.
  pose proof (Z.mod_pos_bound p (2 ^ g) HG) as Hr.
  apply Z.mod_divide in HK as [kk ->]; [|lia].
  destruct (nearest_cases p g Hg) as [-> | [-> Hpos]];
    remember (p / 2 ^ g) as q; remember (p mod 2 ^ g) as r; remember (2 ^ g) as G.
  - nia.
  - assert (q < kk) by nia. nia.
Qed.

Lemma nearest_ge_multiple (p g K : Z) :
  0 <= g -> K mod 2 ^ g = 0 -> K <= p -> K <= nearest p g.
Proof.
  intros Hg HK Hp.
  assert (HG : 0 < 2 ^ g) by (apply Z.pow_pos_nonneg; lia).
  pose proof (Z.div_mod p (2 ^ g) ltac:(lia)) as Hdm.
  pose proof (Z.mod_pos_bound p (2 ^ g) HG) as Hr.
  apply Z.mod_divide in HK as [kk ->]; [|lia].
  remember (p / 2 ^ g) as q; remember (p mod 2 ^ g) as r; remember (2 ^ g) as G.
  assert (kk <= q) by nia.
  destruct (nearest_cases p g Hg) as [-> | [-> Hpos]]; rewrite <- ?HeqG, <- ?Heqq; nia.
Qed.

Lemma nearest_multiple (p g : Z) : 0 <= g -> nearest p g mod 2 ^ g = 0.
Proof.
  intros Hg. destruct (nearest_cases p g Hg) as [-> | [-> _]]; apply Z.mod_mul;
    apply Z.pow_nonzero; lia.
Qed.

(** The result is a nearest multiple: within half a step of [p]. *)
Lemma nearest_close (p g : Z) :
  0 <= g -> 2 * Z.abs (nearest p g - p) <= 2 ^ g.
Proof.
  intros Hg. unfold nearest.
  assert (HG : 0 < 2 ^ g) by (apply Z.pow_pos_nonneg; lia).
  pose proof (Z.div_mod p (2 ^ g) ltac:(lia)) as Hdm.
  pose proof (Z.mod_pos_bound p (2 ^ g) HG) as Hr.
  remember (p / 2 ^ g) as q; remember (p mod 2 ^ g) as r; remember (2 ^ g) as G.
  cbv zeta.
  destruct (2 * r <? G) eqn:E1; cbv iota.
  - apply Z.ltb_lt in E1. lia.
  - apply Z.ltb_ge in E1.
    destruct (G <? 2 * r) eqn:E2; cbv iota.
    + apply Z.ltb_lt in E2. lia.
    + apply Z.ltb_ge in E2. destruct (Z.odd q); lia.
Qed.

Lemma nearest_nonneg (p g : Z) : 0 <= g -> 0 <= p -> 0 <= nearest p g.
Proof.
  intros Hg Hp. apply nearest_ge_multiple; [done| |done]. apply Z.mod_0_l.
  apply Z.pow_nonzero; lia.
Qed.

Lemma nearest_mono (p1 p2 g : Z) :
  0 <= g -> p1 <= p2 -> nearest p1 g <= nearest p2 g.
Proof.
  intros Hg Hp.
  destruct (Z.eq_dec p1 p2) as [->|Hne]; [lia|].
  destruct (Z.le_gt_cases (nearest p1 g) p2) as [H|H].
  { apply nearest_ge_multiple; [done| |done]. by apply nearest_multiple. }
  destruct (Z.le_gt_cases p1 (nearest p2 g)) as [H'|H'].
  { apply nearest_le_multiple; [done| |done]. by apply nearest_multiple. }
  exfalso.
  assert (HG : 0 < 2 ^ g) by (apply Z.pow_pos_nonneg; lia).
  pose proof (nearest_close p1 g Hg) as C1. pose proof (nearest_close p2 g Hg) as C2.
  pose proof (nearest_multiple p1 g Hg) as M1. pose proof (nearest_multiple p2 g Hg) as M2.
  apply Z.mod_divide in M1 as [a Ha]; [|lia]. apply Z.mod_divide in M2 as [b Hb]; [|lia].
  rewrite Ha, Hb in *. remember (2 ^ g) as G.
  assert (b < a) by nia. nia.
Qed.


(** *** Rounding to a double *)

Lemma pow2_split (a b : Z) : 0 <= a <= b -> 2 ^ b = 2 ^ (b - a) * 2 ^ a.
Proof. intros H. rewrite <- Z.pow_add_r by lia. f_equal. lia. Qed.

Lemma mod_pow2_le (x a b : Z) : 0 <= a <= b -> x mod 2 ^ b = 0 -> x mod 2 ^ a = 0.
Proof.
  intros H Hx. assert (0 < 2 ^ b) by (apply Z.pow_pos_nonneg; lia).
  apply Z.mod_divide in Hx as [y ->]; [|lia].
  rewrite (pow2_split a b H), Z.mul_assoc. apply Z.mod_mul, Z.pow_nonzero; lia.
Qed.

Lemma pow2_log2_multiple (p g : Z) :
  0 < p -> 0 <= g <= Z.log2 p -> 2 ^ Z.log2 p mod 2 ^ g = 0.
Proof.
  intros Hp Hg. rewrite (pow2_split g (Z.log2 p) Hg).
  apply Z.mod_mul, Z.pow_nonzero; lia.
Qed.

Lemma lt_pow2_log2 (a b : Z) : 0 <= a -> 0 < b -> Z.log2 a < Z.log2 b -> a < 2 ^ Z.log2 b.
Proof.
  intros Ha Hb Hlt. destruct (Z.eq_dec a 0) as [->|Hne].
  - apply Z.pow_pos_nonneg; [lia|apply Z.log2_nonneg].
  - pose proof (Z.log2_spec a ltac:(lia)) as [_ H2].
    eapply Z.lt_le_trans; [exact H2|]. apply Z.pow_le_mono_r; lia.
Qed.

(** A double [c], scaled by [2^k], lies on the grid used to round any
    [p <= c * 2^k]. *)
Lemma grid_divides (k p c : Z) :
  0 <= k -> 0 <= p -> representable c = true -> p <= c * 2 ^ k ->
  (c * 2 ^ k) mod 2 ^ Z.max (Z.log2 p - 52) k = 0.
Proof.
  intros Hk Hp Hc Hle. unfold representable in Hc.
  apply andb_prop in Hc as [[H0%Z.leb_le _]%andb_prop Hm%Z.eqb_eq].
  assert (Hpk : 0 < 2 ^ k) by (apply Z.pow_pos_nonneg; lia).
  destruct (Z.eq_dec c 0) as [->|Hne].
  { rewrite Z.mul_0_l. apply Z.mod_0_l, Z.pow_nonzero; lia. }
  set (u := ulp_exp c) in *.
  assert (Hu : 0 <= u) by (unfold u, ulp_exp; lia).
  assert (Hg : Z.max (Z.log2 p - 52) k <= u + k).
  { assert (Z.log2 p <= Z.log2 (c * 2 ^ k)) by (apply Z.log2_le_mono; lia).
    rewrite Z.log2_mul_pow2 in H by lia. unfold u, ulp_exp. lia. }
  apply (mod_pow2_le _ _ (u + k)); [lia|].
  assert (0 < 2 ^ u) by (apply Z.pow_pos_nonneg; lia).
  apply Z.mod_divide in Hm as [c' Hc']; [|lia].
  rewrite Hc', Z.pow_add_r by lia. rewrite <- Z.mul_assoc. apply Z.mod_mul.
  apply Z.neq_mul_0. split; apply Z.pow_nonzero; lia.
Qed.

Lemma rmag_nonneg (k p : Z) : 0 <= k -> 0 <= p -> 0 <= rmag k p.
Proof.
  intros Hk Hp. unfold rmag. apply Z.div_pos; [|apply Z.pow_pos_nonneg; lia].
  apply nearest_nonneg; lia.
Qed.

Lemma rmag_le (k p c : Z) :
  0 <= k -> 0 <= p -> representable c = true -> p <= c * 2 ^ k -> rmag k p <= c.
Proof.
  intros Hk Hp Hc Hle. unfold rmag.
  assert (Hpk : 0 < 2 ^ k) by (apply Z.pow_pos_nonneg; lia).
  apply Z.div_le_upper_bound; [done|]. rewrite Z.mul_comm.
  apply nearest_le_multiple; [lia| |done]. by apply grid_divides.
Qed.

Lemma rmag_ge (k p c : Z) :
  0 <= k -> representable c = true -> c * 2 ^ k <= p -> c <= rmag k p.
Proof.
  intros Hk Hc Hle. unfold rmag.
  assert (Hpk : 0 < 2 ^ k) by (apply Z.pow_pos_nonneg; lia).
  pose proof Hc as Hc'. unfold representable in Hc'.
  apply andb_prop in Hc' as [[H0%Z.leb_le _]%andb_prop Hm%Z.eqb_eq].
  assert (Hp : 0 <= p) by nia.
  apply Z.div_le_lower_bound; [done|]. rewrite Z.mul_comm.
  set (g := Z.max (Z.log2 p - 52) k).
  set (u := ulp_exp c) in *.
  assert (Hu : 0 <= u) by (unfold u, ulp_exp; lia).
  destruct (Z.le_gt_cases g (u + k)) as [Hg|Hg].
  - apply nearest_ge_multiple; [lia| |done].
    apply (mod_pow2_le _ _ (u + k)); [lia|].
    assert (0 < 2 ^ u) by (apply Z.pow_pos_nonneg; lia).
    apply Z.mod_divide in Hm as [c' Hc']; [|lia].
    rewrite Hc', Z.pow_add_r by lia. rewrite <- Z.mul_assoc. apply Z.mod_mul.
    apply Z.neq_mul_0. split; apply Z.pow_nonzero; lia.
  - destruct (Z.eq_dec c 0) as [->|Hne].
    { rewrite Z.mul_0_l. apply nearest_nonneg; lia. }
    assert (Hlog : Z.log2 (c * 2 ^ k) < Z.log2 p).
    { rewrite Z.log2_mul_pow2 by lia. unfold g, u, ulp_exp in Hg. lia. }
    assert (Hp0 : 0 < p) by nia.
    apply Z.le_trans with (2 ^ Z.log2 p).
    + apply Z.lt_le_incl, lt_pow2_log2; [nia|done|done].
    + apply nearest_ge_multiple; [lia| |].
      * apply pow2_log2_multiple; [done|]. unfold g in *. lia.
      * by apply Z.log2_spec.
Qed.

Lemma rmag_mono (k p1 p2 : Z) :
  0 <= k -> 0 <= p1 <= p2 -> rmag k p1 <= rmag k p2.
Proof.
  intros Hk Hp. unfold rmag.
  assert (Hpk : 0 < 2 ^ k) by (apply Z.pow_pos_nonneg; lia).
  apply Z.div_le_mono; [done|].
  set (g1 := Z.max (Z.log2 p1 - 52) k). set (g2 := Z.max (Z.log2 p2 - 52) k).
  assert (Hlog : Z.log2 p1 <= Z.log2 p2) by (apply Z.log2_le_mono; lia).
  destruct (Z.eq_dec g1 g2) as [->|Hne]; [apply nearest_mono; lia|].
  assert (Hlt : Z.log2 p1 < Z.log2 p2) by (unfold g1, g2 in *; lia).
  assert (Hp2 : 0 < p2).
  { destruct (Z.eq_dec p2 0) as [->|]; [|lia]. change (Z.log2 0) with 0 in Hlt.
    pose proof (Z.log2_nonneg p1). lia. }
  apply Z.le_trans with (2 ^ Z.log2 p2).
  - apply nearest_le_multiple; [unfold g1; lia| |].
    + apply pow2_log2_multiple; [done|]. unfold g1, g2 in *. lia.
    + apply Z.lt_le_incl, lt_pow2_log2; lia.
  - apply nearest_ge_multiple; [unfold g2; lia| |].
    + apply pow2_log2_multiple; [done|]. unfold g1, g2 in *. lia.
    + by apply Z.log2_spec.
Qed.

(** A double is its own rounding. *)
Lemma rmag_exact (k c : Z) :
  0 <= k -> representable c = true -> rmag k (c * 2 ^ k) = c.
Proof.
  intros Hk Hc.
  assert (0 <= c).
  { unfold representable in Hc. apply andb_prop in Hc as [[H0%Z.leb_le _]%andb_prop _]. done. }
  assert (0 < 2 ^ k) by (apply Z.pow_pos_nonneg; lia).
  apply Z.le_antisymm; [apply rmag_le|apply rmag_ge]; try done; nia.
Qed.


(** *** The order of the doubles *)

Lemma top_pos : 0 < top.
Proof. unfold top. apply Z.pow_pos_nonneg; lia. Qed.

Lemma valid_ordered (x : t) : valid x = true -> is_nan x = false -> ordered x = true.
Proof.
  destruct x as [|s|s n]; simpl; [done|done|].
  unfold representable. by intros [H _]%andb_prop.
Qed.

Lemma ordered_rank (x : t) : ordered x = true -> - top <= rank x <= top.
Proof.
  pose proof top_pos. destruct x as [|[]|[] n]; simpl; try done; try lia.
  - intros [?%Z.leb_le ?%Z.ltb_lt]%andb_prop. unfold top. lia.
  - intros [?%Z.leb_le ?%Z.ltb_lt]%andb_prop. unfold top. lia.
Qed.

Lemma leb_rank (x y : t) :
  ordered x = true -> ordered y = true -> leb x y = (rank x <=? rank y).
Proof.
  pose proof top_pos as Ht.
  destruct x as [|sx|sx nx], y as [|sy|sy ny]; simpl; try done.
  - intros _ _. destruct sx, sy; simpl; symmetry;
      first [apply Z.leb_le; lia | apply Z.leb_gt; lia].
  - intros _ [?%Z.leb_le ?%Z.ltb_lt]%andb_prop. fold top in *.
    destruct sx, sy; simpl; symmetry; first [apply Z.leb_le; lia | apply Z.leb_gt; lia].
  - intros [?%Z.leb_le ?%Z.ltb_lt]%andb_prop _. fold top in *.
    destruct sx, sy; simpl; symmetry; first [apply Z.leb_le; lia | apply Z.leb_gt; lia].
Qed.

Lemma round_rank (s : bool) (k p : Z) :
  0 <= k -> 0 <= p ->
  ordered (round s k p) = true /\ rank (round s k p) = sval s (Z.min (rmag k p) top).
Proof.
  intros Hk Hp. unfold round. pose proof (rmag_nonneg k p Hk Hp) as Hn.
  fold top. destruct (rmag k p <? top) eqn:E.
  - apply Z.ltb_lt in E. simpl. split.
    + apply andb_true_intro. split; [by apply Z.leb_le|by apply Z.ltb_lt].
    + f_equal. lia.
  - apply Z.ltb_ge in E. simpl. split; [done|]. f_equal. lia.
Qed.

Lemma sub_rank (sx sy : bool) (nx ny : Z) :
  ordered (sub (Fin sx nx) (Fin sy ny)) = true /\
  rank (sub (Fin sx nx) (Fin sy ny)) = srnd (sval sx nx - sval sy ny).
Proof.
  unfold sub, srnd. set (d := sval sx nx - sval sy ny).
  destruct (d =? 0) eqn:E0.
  - apply Z.eqb_eq in E0. rewrite E0. simpl. split; [done|].
    destruct (sx && negb sy); reflexivity.
  - apply Z.eqb_neq in E0. destruct (d <? 0) eqn:E.
    + apply Z.ltb_lt in E.
      destruct (round_rank true 0 (Z.abs d) ltac:(lia) ltac:(lia)) as [Ho Hr].
      split; [done|]. rewrite Hr. simpl. by rewrite Z.abs_neq by lia.
    + apply Z.ltb_ge in E.
      destruct (round_rank false 0 (Z.abs d) ltac:(lia) ltac:(lia)) as [Ho Hr].
      split; [done|]. rewrite Hr. simpl. by rewrite Z.abs_eq by lia.
Qed.

Lemma mul_rank (sx sy : bool) (nx ny : Z) :
  0 <= nx -> 0 <= ny ->
  ordered (mul (Fin sx nx) (Fin sy ny)) = true /\
  rank (mul (Fin sx nx) (Fin sy ny)) = sval (xorb sx sy) (Z.min (rmag 1074 (nx * ny)) top).
Proof. intros Hx Hy. apply round_rank; [lia|nia]. Qed.

Lemma srnd_mono (d1 d2 : Z) : d1 <= d2 -> srnd d1 <= srnd d2.
Proof.
  intros Hd. unfold srnd. pose proof top_pos.
  destruct (d1 <? 0) eqn:E1, (d2 <? 0) eqn:E2;
    rewrite ?Z.ltb_lt, ?Z.ltb_ge in E1, E2.
  - pose proof (rmag_mono 0 (- d2) (- d1) ltac:(lia) ltac:(lia)). lia.
  - pose proof (rmag_nonneg 0 (- d1) ltac:(lia) ltac:(lia)).
    pose proof (rmag_nonneg 0 d2 ltac:(lia) ltac:(lia)). lia.
  - lia.
  - pose proof (rmag_mono 0 d1 d2 ltac:(lia) ltac:(lia)). lia.
Qed.

Lemma srnd_nonneg (d : Z) : 0 <= d -> 0 <= srnd d.
Proof.
  intros Hd. unfold srnd. pose proof top_pos.
  destruct (d <? 0) eqn:E; rewrite ?Z.ltb_lt, ?Z.ltb_ge in E; [lia|].
  pose proof (rmag_nonneg 0 d ltac:(lia) ltac:(lia)). lia.
Qed.

(** Rounding does not cross a double. *)
Lemma srnd_le (d c : Z) : representable c = true -> d <= c -> srnd d <= c.
Proof.
  intros Hc Hd. unfold srnd. pose proof top_pos.
  assert (0 <= c).
  { unfold representable in Hc. by apply andb_prop in Hc as [[?%Z.leb_le _]%andb_prop _]. }
  destruct (d <? 0) eqn:E; rewrite ?Z.ltb_lt, ?Z.ltb_ge in E.
  - pose proof (rmag_nonneg 0 (- d) ltac:(lia) ltac:(lia)). lia.
  - pose proof (rmag_le 0 d c ltac:(lia) ltac:(lia) Hc ltac:(lia)). lia.
Qed.

Lemma srnd_ge (d c : Z) : representable c = true -> - c <= d -> - c <= srnd d.
Proof.
  intros Hc Hd. unfold srnd. pose proof top_pos.
  assert (0 <= c).
  { unfold representable in Hc. by apply andb_prop in Hc as [[?%Z.leb_le _]%andb_prop _]. }
  destruct (d <? 0) eqn:E; rewrite ?Z.ltb_lt, ?Z.ltb_ge in E.
  - pose proof (rmag_le 0 (- d) c ltac:(lia) ltac:(lia) Hc ltac:(lia)). lia.
  - pose proof (rmag_nonneg 0 d ltac:(lia) ltac:(lia)). lia.
Qed.


(** *** The rendering ["%0.1f"] *)

Lemma string_of_uint_digits (u : Decimal.uint) :
  all_digits (NilEmpty.string_of_uint u) = true.
Proof. induction u; simpl; done. Qed.

Lemma dec_digits (n : Z) : all_digits (dec n) = true /\ dec n <> "".
Proof.
  unfold dec, NilZero.string_of_uint.
  destruct (N.to_uint (Z.to_N n)) as [|u|u|u|u|u|u|u|u|u|u] eqn:E;
    try (split; [apply (string_of_uint_digits (_ u))|done]).
  split; done.
Qed.

Lemma dec_digit (d : Z) :
  0 <= d < 10 -> exists c, dec d = String c "" /\ is_digit c = true.
Proof.
  intros Hd.
  assert (d = 0 \/ d = 1 \/ d = 2 \/ d = 3 \/ d = 4 \/ d = 5 \/ d = 6 \/ d = 7 \/
          d = 8 \/ d = 9) as Hcases by lia.
  repeat (destruct Hcases as [->|Hcases]; [eexists; split; reflexivity|]).
  subst. eexists; split; reflexivity.
Qed.

Lemma point_digit_app (a : string) (d : ascii) :
  all_digits a = true -> is_digit d = true ->
  point_digit (a +:+ String "." (String d "")) = true.
Proof.
  intros Ha Hd. induction a as [|c a IH]; simpl.
  - by rewrite Hd.
  - simpl in Ha. apply andb_prop in Ha as [Hc Ha]. rewrite Hc. by apply IH.
Qed.

Lemma unsigned_one_decimal_app (a : string) (d : ascii) :
  all_digits a = true -> a <> "" -> is_digit d = true ->
  unsigned_one_decimal (a +:+ String "." (String d "")) = true.
Proof.
  intros Ha Hne Hd. destruct a as [|c a]; [done|]. simpl in *.
  apply andb_prop in Ha as [Hc Ha]. rewrite Hc. by apply point_digit_app.
Qed.

Lemma tenths_nearest (n : Z) :
  0 <= n -> 0 <= tenths n /\ 2 * Z.abs (tenths n * 2 ^ 1074 - 10 * n) <= 2 ^ 1074.
Proof.
  intros Hn. unfold tenths.
  pose proof (nearest_close (10 * n) 1074 ltac:(lia)) as Hc.
  pose proof (nearest_multiple (10 * n) 1074 ltac:(lia)) as Hm.
  pose proof (nearest_nonneg (10 * n) 1074 ltac:(lia) ltac:(lia)) as H0.
  assert (HG : 0 < 2 ^ 1074) by (apply Z.pow_pos_nonneg; lia).
  apply Z.mod_divide in Hm as [w Hw]; [|lia].
  rewrite Hw in *. rewrite Z.div_mul by lia. split; [nia|done].
Qed.

(** A finite double is rendered with an optional sign, the digits of its
    whole part, a point and one digit: the tenths nearest to its value. *)
Lemma fmt_finite (neg : bool) (n : Z) :
  0 <= n ->
  one_decimal (fmt_0_1f (Fin neg n)) = true /\
  fmt_0_1f (Fin neg n)
  = (if neg then "-" else "") +:+ dec (tenths n / 10) +:+ "." +:+ dec (tenths n mod 10) /\
  2 * Z.abs (tenths n * 2 ^ 1074 - 10 * n) <= 2 ^ 1074.
Proof.
  intros Hn. destruct (tenths_nearest n Hn) as [Ht Hc].
  split; [|split; [done|done]].
  destruct (dec_digits (tenths n / 10)) as [Ha Hne].
  destruct (dec_digit (tenths n mod 10)) as (d & Hd & Hdig);
    [apply Z.mod_pos_bound; lia|].
  unfold fmt_0_1f. rewrite Hd.
  pose proof (unsigned_one_decimal_app _ d Ha Hne Hdig) as Hu.
  change ("." +:+ String d "") with (String "." (String d "")).
  destruct neg.
  - change ("-" +:+ ?x) with (String "-" x). done.
  - change ("" +:+ ?x) with x. unfold one_decimal.
    destruct (dec (tenths n / 10)) as [|c a] eqn:E; [done|].
    change (String c a +:+ ?x) with (String c (a +:+ x)) in *.
    destruct (Ascii.eqb_spec c "-") as [->|Hc']; [by simpl in Ha|].
    destruct c as [[] [] [] [] [] [] [] []]; try done.
Qed.

End F64.

Example of_Z_ex : F64.of_Z 3 = F64.Fin false (3 * 2 ^ 1074).
Proof. by vm_compute. Qed.
Example div_third_ex :
  F64.div (F64.of_Z 1) (F64.of_Z 3) = F64.Fin false (6004799503160661 * 2 ^ 1020).
Proof. by vm_compute. Qed.
Example sub_tenths_ex :
  F64.sub (F64.div (F64.of_Z 1) (F64.of_Z 10)) (F64.div (F64.of_Z 3) (F64.of_Z 10))
  = F64.Fin true (7205759403792793 * 2 ^ 1019).
Proof. by vm_compute. Qed.
Example fmt_0_1f_ex :
  F64.fmt_0_1f (F64.div (F64.of_Z 138078) (F64.of_Z 100)) = "1380.8" /\
  F64.fmt_0_1f (F64.div (F64.of_Z 1) (F64.of_Z 4)) = "0.2" /\
  F64.fmt_0_1f (F64.div (F64.of_Z 3) (F64.of_Z 4)) = "0.8" /\
  F64.fmt_0_1f (F64.Fin true 0) = "-0.0" /\
  F64.fmt_0_1f (F64.Inf false) = "inf".
Proof. by vm_compute. Qed.
Example np_pi_valid : F64.valid F64.np_pi = true.
Proof. by vm_compute. Qed.

(** ** [Faking_it_at_the_command_line.ipynb]: parsing the stdout of [readfile]

<<
    p = subprocess.Popen(['readfile',filename],stdout=subprocess.PIPE,stderr=subprocess.PIPE)
    out, err = p.communicate()
    result = out.split(b"\n")
    for res in result:
        if b"Central freq" in res:
            freq = res.split(b"=")[1].strip()
            print("Frequency=%0.1f" % float(freq))
>>
*)

Module Readfile.

(** The exceptions the cell can raise: [res.split(b"=")[1]] on a line with no
    ["="], and [float(freq)] on text that is not a number. *)
Inductive exn := IndexError | ValueError.

Inductive outcome := Finished | Raised (e : exn).

(** A stand-in for the interpreter's floats, used to run the cell on
    concrete text: every non-empty field is accepted and rendered as it
    is. *)
Definition toy_float (s : string) : option string :=
  if String.eqb s "" then None else Some s.

Definition toy_fmt (x : string) : string := x.

Section Cell.

(** Python's floats, [float(bytes)] ([None] is [ValueError]) and the
    rendering ["%0.1f" % x] belong to the interpreter; the cell only chains
    them. *)
Variable float : Type.
Variable py_float : string -> option float.
Variable fmt_0_1f : float -> string.

(** The [for] loop over [result]; [printed] collects the lines printed so
    far, and an exception ends the loop with what was printed before it. *)
Fixpoint loop (result : list string) (printed : list string) : list string * outcome :=
  match result with
  | [] => (printed, Finished)
  | res :: rest =>
      if Py.contains "Central freq" res then
        match nth_error (Py.split "="%char res) 1 with
        | None => (printed, Raised IndexError)
        | Some field =>
            let freq := Py.strip field in
            match py_float freq with
            | None => (printed, Raised ValueError)
            | Some x => loop rest (printed ++ ["Frequency=" +:+ fmt_0_1f x])
            end
        end
      else loop rest printed
  end.

(** The cell from [p.communicate()] on: [communicate] is the pair
    [(stdout, stderr)] of the finished subprocess. *)
Definition readfile_cell (communicate : string * string) : list string * outcome :=
  let '(out, err) := communicate in
  let result := Py.split "010"%char out in
  loop result [].

(** What the specification says of one line, in its own words: the text
    between the first and the second ["="]. *)
Fixpoint upto_eq (s : string) : string :=
  match s with
  | EmptyString => EmptyString
  | String c s' => if Ascii.eqb c "="%char then EmptyString else String c (upto_eq s')
  end.

Fixpoint between_first_and_second_eq (s : string) : option string :=
  match s with
  | EmptyString => None
  | String c s' =>
      if Ascii.eqb c "="%char then Some (upto_eq s') else between_first_and_second_eq s'
  end.

(** The line the specification expects for [line], if any. *)
Definition expected_print (line : string) : option string :=
  if Py.contains "Central freq" line then
    match between_first_and_second_eq line with
    | Some field =>
        match py_float (Py.strip field) with
        | Some x => Some ("Frequency=" +:+ fmt_0_1f x)
        | None => None
        end
    | None => None
    end
  else None.

(** A line the loop can process: it lacks the label, or it has a ["="]
    followed by text [float] accepts. *)
Definition line_ok (line : string) : Prop :=
  Py.contains "Central freq" line = true ->
  exists field x,
    between_first_and_second_eq line = Some field /\ py_float (Py.strip field) = Some x.

(** *** Facts about the loop *)

Lemma split_eq_head (s : string) :
  exists ps, Py.split "="%char s = upto_eq s :: ps.
Proof.
  induction s as [|c s [ps IH]]; simpl.
  - by exists [].
  - destruct (Ascii.eqb c "="); [by eexists|].
    rewrite IH. by eexists.
Qed.

(** [res.split(b"=")[1]] is the text between the first and the second ["="],
    and raises exactly when the line has no ["="]. *)
Lemma split_eq_second (s : string) :
  nth_error (Py.split "="%char s) 1 = between_first_and_second_eq s.
Proof.
  induction s as [|c s IH]; simpl; [done|].
  destruct (Ascii.eqb c "=").
  - destruct (split_eq_head s) as [ps ->]. done.
  - destruct (split_eq_head s) as [ps Hs]. rewrite Hs in IH |- *. exact IH.
Qed.

Lemma loop_step_ok (line : string) (rest printed : list string) :
  line_ok line ->
  loop (line :: rest) printed =
  loop rest (printed ++ match expected_print line with Some l => [l] | None => [] end).
Proof.
  intros Hok. unfold expected_print. cbn [loop].
  destruct (Py.contains "Central freq" line) eqn:Hc.
  - destruct (Hok Hc) as (field & x & Hf & Hx).
    rewrite split_eq_second, Hf, Hx. done.
  - by rewrite app_nil_r.
Qed.

Lemma loop_all_ok (lines printed : list string) :
  Forall line_ok lines ->
  loop lines printed = (printed ++ omap expected_print lines, Finished).
Proof.
  intros Hall. revert printed.
  induction Hall as [|line rest Hok _ IH]; intros printed.
  - simpl. by rewrite app_nil_r.
  - rewrite loop_step_ok by done. rewrite IH. simpl.
    destruct (expected_print line); simpl; by rewrite <- ?app_assoc.
Qed.

Lemma expected_print_label (line : string) :
  line_ok line ->
  (is_Some (expected_print line) <-> Py.contains "Central freq" line = true).
Proof.
  intros Hok. unfold expected_print.
  destruct (Py.contains "Central freq" line) eqn:Hc.
  - destruct (Hok Hc) as (field & x & -> & ->). split; [done|by eexists].
  - split; [intros [? ?]|]; done.
Qed.

(** When every line carrying the label has a ["="] followed by text
    [float] accepts, the cell finishes, and what it printed is, line by line
    in order, ["Frequency="] followed by the rendering of the float read
    from the stripped text between the first and the second ["="]; a line
    prints if and only if it contains the label. *)
Lemma readfile_cell_on_good_lines (out err : string) :
  Forall line_ok (Py.split "010"%char out) ->
  readfile_cell (out, err) = (omap expected_print (Py.split "010"%char out), Finished) /\
  (forall line, line ∈ Py.split "010"%char out ->
     (is_Some (expected_print line) <-> Py.contains "Central freq" line = true)) /\
  (forall line field x,
     Py.contains "Central freq" line = true ->
     between_first_and_second_eq line = Some field ->
     py_float (Py.strip field) = Some x ->
     expected_print line = Some ("Frequency=" +:+ fmt_0_1f x)).
Proof.
  intros Hall. split; [|split].
  - unfold readfile_cell. by rewrite loop_all_ok.
  - intros line Hin. apply expected_print_label.
    rewrite Forall_forall in Hall. by apply Hall.
  - intros line field x Hc Hf Hx. unfold expected_print. by rewrite Hc, Hf, Hx.
Qed.

(** C3: the cell's printed output and outcome are a function of the
    subprocess's stdout alone; two runs whose subprocesses wrote the same
    stdout, and anything at all to stderr, print the same. *)
Theorem readfile_output_ignores_stderr (run1 run2 : string * string) :
  fst run1 = fst run2 ->
  readfile_cell run1 = readfile_cell run2.
Proof.
  destruct run1 as [out1 err1], run2 as [out2 err2]. simpl.
  intros <-. unfold readfile_cell. reflexivity.
Qed.

End Cell.

Arguments loop {float} py_float fmt_0_1f result printed.
Arguments readfile_cell {float} py_float fmt_0_1f communicate.
Arguments expected_print {float} py_float fmt_0_1f line.
Arguments line_ok {float} py_float line.

Example readfile_run :
  readfile_cell toy_float toy_fmt
    ("Number of channels = 512" +:+ String "010" "  Central freq (MHz) = 1380.8" +:+ String "010" "", "warning")
  = (["Frequency=1380.8"], Finished).
Proof. reflexivity. Qed.

(** *** The cell on doubles *)

(** A stand-in for [float(bytes)] on doubles, used to run the cell: it reads
    ["1380.78"] (as the double nearest to 1380.78), ["inf"] and ["nan"], and
    rejects every other text. *)
Definition toy_double (s : string) : option F64.t :=
  if String.eqb s "1380.78" then Some (F64.div (F64.of_Z 138078) (F64.of_Z 100))
  else if String.eqb s "inf" then Some (F64.Inf false)
  else if String.eqb s "nan" then Some F64.NaN
  else None.

Section Doubles.

(** [float(bytes)] returns a double, or raises [ValueError] ([None]). *)
Variable py_float : string -> option F64.t.


End Doubles.

Example readfile_run_doubles :
  readfile_cell toy_double F64.fmt_0_1f
    ("Number of channels = 512" +:+ String "010" "  Central freq (MHz) = 1380.78" +:+ String "010" "",
     "")
  = (["Frequency=1380.8"], Finished).
Proof. by vm_compute. Qed.

(** A frequency that [float] reads as infinite is printed without a decimal
    place. *)
Example readfile_run_inf :
  readfile_cell toy_double F64.fmt_0_1f ("Central freq (MHz) = inf", "")
  = (["Frequency=inf"], Finished).
Proof. by vm_compute. Qed.


Lemma readfile_output_ignores_stderr_witness :
  fst ("Central freq = 1380.8", "") = fst ("Central freq = 1380.8", "readfile: warning") /\
  readfile_cell toy_float toy_fmt ("Central freq = 1380.8", "")
  = readfile_cell toy_float toy_fmt ("Central freq = 1380.8", "readfile: warning").
Proof.
  split; [reflexivity|].
  apply (readfile_output_ignores_stderr string toy_float toy_fmt
           ("Central freq = 1380.8", "") ("Central freq = 1380.8", "readfile: warning")).
  reflexivity.
Defined.


End Readfile.

(** ** Post-processing of chain files
    ([single_pulsar_noise.ipynb], [stochastic_gwb_analysis.ipynb],
    [cw_exercises.ipynb])

<<
    chain = np.loadtxt(outdir + 'chain_1.txt')
    burn = int(0.25 * chain.shape[0])
    ind = list(pta.param_names).index('J0613-0200_Rcvr_800_GUPPI_efac')
    plt.plot(chain[burn:, ind])
>>
*)

Module Chain.

(** *** [int(0.25 * chain.shape[0])]

    [chain.shape[0]] is a Python integer.  Multiplying it by the float
    [0.25] first converts it to a double: the nearest value with a 53-bit
    significand, ties to the even significand, [OverflowError] (here [None])
    from [2^1024] on.  The product with [0.25] is exact (a change of
    exponent), and [int] truncates towards zero. *)

Definition round_half_even (n e : Z) : Z :=
  let q := (n / 2 ^ e)%Z in
  let r := (n mod 2 ^ e)%Z in
  let half := (2 ^ (e - 1))%Z in
  let q' := if (r <? half)%Z then q
            else if (half <? r)%Z then (q + 1)%Z
            else if Z.even q then q else (q + 1)%Z in
  (q' * 2 ^ e)%Z.

(** The double nearest to the integer [n >= 0], as the integer it is. *)
Definition float_of_int (n : Z) : option Z :=
  let v := if (n <? 2 ^ 53)%Z then n else round_half_even n (Z.log2 n - 52) in
  if (v <? 2 ^ 1024)%Z then Some v else None.

(** [0.25 * x] for a double [x] holding a non-negative integer: the exact
    quotient, kept as a fraction. *)
Definition quarter_of (x : Z) : Z * positive := (x, 4%positive).

(** [int(y)]: truncation towards zero. *)
Definition py_int (y : Z * positive) : Z := (fst y ÷ Z.pos (snd y))%Z.

Definition burn_of_shape0 (n : Z) : option Z :=
  x ← float_of_int n; Some (py_int (quarter_of x)).

Section Columns.

(** The entries of a chain file are doubles; the glue only moves them. *)
Variable value : Type.

(** One state of the sampler: the parameter vector [x], ordered as
    [pta.param_names], and the fields the sampler appends to every line it
    writes (log-likelihood, log-posterior, acceptance rates). *)
Record sample := { x : list value; appended : list value }.

(** The line of the chain file for one state. *)
Definition chain_row (s : sample) : list value := x s ++ appended s.

(** [chain = np.loadtxt(...)], from the rows of numbers in the file. *)
Definition loadtxt (rows : list (list value)) : option (Numpy.ndarray value) :=
  Numpy.from_rows rows.

(** [burn = int(0.25 * chain.shape[0])]. *)
Definition burn (chain : Numpy.ndarray value) : option Z :=
  n ← Numpy.shape0 chain; burn_of_shape0 (Z.of_nat n).

(** [row[-k]] for [k >= 1]: the [k]-th entry from the end. *)
Definition from_end (k : nat) (row : list value) : option value :=
  if (k <=? length row)%nat then row !! (length row - k)%nat else None.

(** The value the model gives parameter [name] in a state: the pairing of
    [pta.param_names] with the parameter vector, looked up by name. *)
Fixpoint assoc (name : string) (l : list (string * value)) : option value :=
  match l with
  | [] => None
  | (k, v) :: l' => if String.eqb k name then Some v else assoc name l'
  end.

Definition param_value (param_names : list string) (name : string) (s : sample) : option value :=
  assoc name (zip param_names (x s)).

End Columns.

Arguments x {value} s.
Arguments appended {value} s.
Arguments chain_row {value} s.
Arguments loadtxt {value} rows.
Arguments burn {value} chain.
Arguments from_end {value} k row.
Arguments assoc {value} name l.
Arguments param_value {value} param_names name s.

(** A chain file of five rows. *)
Definition demo_rows : list (list Z) := [[1; 10]; [2; 20]; [3; 30]; [4; 40]; [5; 50]]%Z.

(** A three-parameter chain of two states, for running the lookup. *)
Definition demo_names : list string := ["efac"; "log10_A"; "gamma"].

Definition demo_samples : list (sample Z) :=
  [ {| x := [1; 2; 3]%Z; appended := [10; 11; 12; 13]%Z |};
    {| x := [4; 5; 6]%Z; appended := [10; 11; 12; 13]%Z |} ].

(** *** The burn-in index *)

Example burn_of_shape0_1e6 : burn_of_shape0 1000000 = Some 250000%Z.
Proof. reflexivity. Qed.
Example burn_of_shape0_2 : burn_of_shape0 2 = Some 0%Z.
Proof. reflexivity. Qed.
Example burn_of_shape0_7 : burn_of_shape0 7 = Some 1%Z.
Proof. reflexivity. Qed.

Lemma float_of_int_exact (n : Z) :
  (0 <= n <= 2 ^ 53)%Z -> float_of_int n = Some n.
Proof.
  intros Hn. unfold float_of_int.
  assert (Hbig : (2 ^ 53 < 2 ^ 1024)%Z) by (apply Z.pow_lt_mono_r; lia).
  destruct (n <? 2 ^ 53)%Z eqn:Hlt.
  - apply Z.ltb_lt in Hlt.
    destruct (n <? 2 ^ 1024)%Z eqn:Hlt'; [done|]. apply Z.ltb_ge in Hlt'. lia.
  - apply Z.ltb_ge in Hlt.
    assert (n = 2 ^ 53)%Z as -> by lia. by vm_compute.
Qed.

Lemma burn_of_shape0_floor (n : Z) :
  (0 <= n <= 2 ^ 53)%Z -> burn_of_shape0 n = Some (n / 4)%Z.
Proof.
  intros Hn. unfold burn_of_shape0. rewrite float_of_int_exact by done.
  simpl. unfold py_int, quarter_of. simpl. f_equal.
  apply Z.quot_div_nonneg; lia.
Qed.

(** A file of at least two rows of at least two numbers each is loaded as
    the matrix of its rows. *)
Lemma loadtxt_matrix {value} (rows : list (list value)) (ncols : nat) :
  (2 <= ncols)%nat -> (2 <= length rows)%nat ->
  Forall (fun row => length row = ncols) rows ->
  loadtxt rows = Some (Numpy.Arr2 rows).
Proof.
  intros Hc Hr Hall. unfold loadtxt, Numpy.from_rows.
  destruct rows as [|r0 [|r1 rest]]; simpl in Hr; [lia|lia|].
  apply Forall_cons in Hall as [H0 Hall].
  assert (Hsame : forallb (fun r : list value => (length r =? length r0)%nat) (r1 :: rest) = true).
  { apply forallb_forall. intros r Hin%list_elem_of_In.
    rewrite Forall_forall in Hall. rewrite (Hall r Hin), H0. apply Nat.eqb_refl. }
  rewrite Hsame. f_equal.
  destruct r0 as [|v0 [|v1 r0]]; simpl in H0; [lia|lia|]. reflexivity.
Qed.

(** C8, as the code has it: for a chain file of [2 <= r <= 2^53] rows (of
    at least two numbers each), the loaded chain is the matrix of these
    rows, [burn] is [floor(r/4)] and lies in [0, r), and [chain[burn:]] is
    the non-empty block of the last [r - floor(r/4)] rows. *)
Theorem burn_is_quarter_of_rows (value : Type) (rows : list (list value)) (ncols : nat) :
  (2 <= ncols)%nat ->
  Forall (fun row => length row = ncols) rows ->
  (2 <= Z.of_nat (length rows) <= 2 ^ 53)%Z ->
  exists (chain : Numpy.ndarray value) (b : Z),
    loadtxt rows = Some chain /\
    Numpy.shape0 chain = Some (length rows) /\
    burn chain = Some b /\
    b = (Z.of_nat (length rows) / 4)%Z /\
    (0 <= b < Z.of_nat (length rows))%Z /\
    Numpy.from_row (Z.to_nat b) chain = Some (Numpy.Arr2 (drop (Z.to_nat b) rows)) /\
    (exists row rest, drop (Z.to_nat b) rows = row :: rest) /\
    Z.of_nat (length (drop (Z.to_nat b) rows))
      = (Z.of_nat (length rows) - Z.of_nat (length rows) / 4)%Z /\
    rows = take (Z.to_nat b) rows ++ drop (Z.to_nat b) rows.
Proof.
  intros Hc Hall Hr.
  set (r := Z.of_nat (length rows)) in *.
  exists (Numpy.Arr2 rows), (r / 4)%Z.
  assert (Hb : (0 <= r / 4 < r)%Z).
  { split; [apply Z.div_pos; lia|]. apply Z.div_lt_upper_bound; lia. }
  assert (Hlen : Z.of_nat (length (drop (Z.to_nat (r / 4)) rows)) = (r - r / 4)%Z).
  { rewrite length_drop. unfold r in *. lia. }
  split; [apply (loadtxt_matrix rows ncols); [done|lia|done]|].
  split; [done|]. split; [|split; [done|split; [done|split; [done|split; [|split]]]]].
  - unfold burn. simpl. apply burn_of_shape0_floor. unfold r in *. lia.
  - destruct (drop (Z.to_nat (r / 4)) rows) as [|row rest] eqn:E.
    + simpl in Hlen. lia.
    + by exists row, rest.
  - done.
  - by rewrite take_drop.
Qed.

Example demo_burn : (loadtxt demo_rows ≫= burn) = Some 1%Z.
Proof. reflexivity. Qed.

Lemma burn_is_quarter_of_rows_witness :
  (2 <= 2)%nat /\
  Forall (fun row : list Z => length row = 2%nat) demo_rows /\
  (2 <= Z.of_nat (length demo_rows) <= 2 ^ 53)%Z /\
  exists (chain : Numpy.ndarray Z) (b : Z),
    loadtxt demo_rows = Some chain /\
    Numpy.shape0 chain = Some (length demo_rows) /\
    burn chain = Some b /\
    b = (Z.of_nat (length demo_rows) / 4)%Z /\
    (0 <= b < Z.of_nat (length demo_rows))%Z /\
    Numpy.from_row (Z.to_nat b) chain = Some (Numpy.Arr2 (drop (Z.to_nat b) demo_rows)) /\
    (exists row rest, drop (Z.to_nat b) demo_rows = row :: rest) /\
    Z.of_nat (length (drop (Z.to_nat b) demo_rows))
      = (Z.of_nat (length demo_rows) - Z.of_nat (length demo_rows) / 4)%Z /\
    demo_rows = take (Z.to_nat b) demo_rows ++ drop (Z.to_nat b) demo_rows.
Proof.
  assert (H1 : (2 <= 2)%nat) by lia.
  assert (H2 : Forall (fun row : list Z => length row = 2%nat) demo_rows)
    by (repeat constructor).
  assert (H3 : (2 <= Z.of_nat (length demo_rows) <= 2 ^ 53)%Z)
    by (vm_compute; split; discriminate).
  split; [exact H1|]. split; [exact H2|]. split; [exact H3|].
  exact (burn_is_quarter_of_rows Z demo_rows 2%nat H1 H2 H3).
Defined.

(** C8 as stated, for every [r >= 1], fails at both ends.  A file of one
    row is loaded as a one-axis array whose [shape[0]] is the number of
    columns: with nine columns [burn] is [2], not [floor(1/4) = 0], and
    [chain[burn:, ind]] has no second axis to index.  Past [2^53] the
    conversion to a double is inexact: [2^53 + 3] becomes [2^53 + 4], so
    [burn] is [2^51 + 1] while [floor(r/4)] is [2^51]. *)
Lemma burn_of_one_row_chain :
  loadtxt [[1; 2; 3; 4; 5; 6; 7; 8; 9]%Z] = Some (Numpy.Arr1 [1; 2; 3; 4; 5; 6; 7; 8; 9]%Z) /\
  burn (Numpy.Arr1 [1; 2; 3; 4; 5; 6; 7; 8; 9]%Z) = Some 2%Z /\
  (Z.of_nat (length [[1; 2; 3; 4; 5; 6; 7; 8; 9]%Z]) / 4 = 0)%Z /\
  Numpy.column_from 2 0 (Numpy.Arr1 [1; 2; 3; 4; 5; 6; 7; 8; 9]%Z) = None /\
  burn_of_shape0 9007199254740995 = Some 2251799813685249%Z /\
  (9007199254740995 / 4 = 2251799813685248)%Z /\
  (9007199254740995 = 2 ^ 53 + 3)%Z.
Proof. by vm_compute. Qed.

(** *** The column of a parameter *)

Lemma index_lookup (name : string) (names : list string) (i : nat) :
  Py.index name names = Some i -> names !! i = Some name.
Proof.
  revert i. induction names as [|y names IH]; intros i; simpl; [done|].
  destruct (String.eqb_spec y name) as [->|Hne].
  - by intros [= <-].
  - destruct (Py.index name names) as [j|]; simpl; [|done].
    intros [= <-]. simpl. by apply IH.
Qed.

Lemma index_first (name : string) (names : list string) (i : nat) :
  Py.index name names = Some i -> forall j, (j < i)%nat -> names !! j <> Some name.
Proof.
  revert i. induction names as [|y names IH]; intros i; simpl; [done|].
  destruct (String.eqb_spec y name) as [->|Hne].
  - intros [= <-] j Hj. lia.
  - destruct (Py.index name names) as [k|]; simpl; [|done].
    intros [= <-] [|j] Hj; simpl.
    + congruence.
    + apply (IH k); [done|lia].
Qed.

Section ColumnFacts.

Variable value : Type.

Lemma assoc_zip_index (name : string) (names : list string) (xs : list value) (i : nat) :
  Py.index name names = Some i ->
  length xs = length names ->
  assoc name (zip names xs) = xs !! i /\ is_Some (xs !! i).
Proof.
  revert xs i. induction names as [|y names IH]; intros xs i; simpl; [done|].
  destruct xs as [|v xs]; [done|]. simpl.
  destruct (String.eqb y name).
  - intros [= <-] _. simpl. split; [done|by eexists].
  - destruct (Py.index name names) as [j|] eqn:E; simpl; [|done].
    intros [= <-] [= Hlen]. simpl. by apply IH.
Qed.

Lemma column_of_rows (names : list string) (name : string) (ind : nat)
    (samples : list (sample value)) :
  Py.index name names = Some ind ->
  Forall (fun s => length (x s) = length names) samples ->
  exists trace,
    mapM (param_value names name) samples = Some trace /\
    mapM (fun row : list value => row !! ind) (List.map chain_row samples) = Some trace.
Proof.
  intros Hind Hall. setoid_rewrite mapM_Some.
  induction Hall as [|s samples Hlen _ (trace & IH1 & IH2)].
  - exists []. split; constructor.
  - destruct (assoc_zip_index name names (x s) ind Hind Hlen) as [Ha [v Hv]].
    exists (v :: trace). split; (constructor; [|done]).
    + unfold param_value. by rewrite Ha.
    + unfold chain_row. rewrite lookup_app_l by (by eapply lookup_lt_Some). done.
Qed.

(** The file of at least two states, every state with the fields of
    [param_names] and the same [k >= 1] appended fields, is loaded as the
    matrix of its rows. *)
Lemma loadtxt_chain (param_names : list string) (samples : list (sample value)) (k : nat) :
  Forall (fun s => length (x s) = length param_names) samples ->
  Forall (fun s => length (appended s) = k) samples ->
  (2 <= length samples)%nat ->
  (2 <= length param_names + k)%nat ->
  loadtxt (List.map chain_row samples) = Some (Numpy.Arr2 (List.map chain_row samples)).
Proof.
  intros Hx Ha Hn Hw.
  apply (loadtxt_matrix _ (length param_names + k)); [done|by rewrite length_map|].
  apply Forall_forall. intros row Hrow.
  apply list_elem_of_In, in_map_iff in Hrow as (s & <- & Hs%list_elem_of_In).
  unfold chain_row. rewrite length_app.
  rewrite (proj1 (Forall_forall _ _) Hx s Hs), (proj1 (Forall_forall _ _) Ha s Hs). done.
Qed.


(** The upper-limit cell of [stochastic_gwb_analysis.ipynb] reads column
    [-5]: with the four fields the sampler appends, that is the last
    parameter. *)
Lemma column_minus_5_is_last_parameter (s : sample value) :
  length (appended s) = 4%nat ->
  from_end 5 (chain_row s) = last (x s).
Proof.
  intros H4. unfold from_end, chain_row. rewrite length_app, H4.
  destruct (x s) as [|v xs _] using rev_ind; [done|].
  rewrite length_app. simpl length.
  replace (5 <=? length xs + 1 + 4)%nat with true by (symmetry; apply Nat.leb_le; lia).
  rewrite last_snoc, lookup_app_l by (rewrite length_app; simpl; lia).
  replace (length xs + 1 + 4 - 5)%nat with (length xs + 0)%nat by lia.
  by rewrite lookup_app_r, Nat.add_0_r, Nat.sub_diag by lia.
Qed.

End ColumnFacts.

Example demo_column :
  (chain ← loadtxt (List.map chain_row demo_samples); Numpy.column_from 1 1 chain)
  = Some [5%Z].
Proof. reflexivity. Qed.


(** C1 as stated, for every chain, fails on the chain file of a single
    state: [np.loadtxt] returns its one row as an array with a single axis,
    and [chain[burn:, ind]] has no second axis to index ([IndexError]),
    where the matrix of that one row would give the parameter's value. *)
Lemma index_of_one_state_chain :
  Py.index "log10_A" demo_names = Some 1%nat /\
  loadtxt [chain_row {| x := [1; 2; 3]%Z; appended := [10; 11; 12; 13]%Z |}]
  = Some (Numpy.Arr1 [1; 2; 3; 10; 11; 12; 13]%Z) /\
  burn (Numpy.Arr1 [1; 2; 3; 10; 11; 12; 13]%Z) = Some 1%Z /\
  Numpy.column_from 1 1 (Numpy.Arr1 [1; 2; 3; 10; 11; 12; 13]%Z) = None /\
  Numpy.column_from 0 1
    (Numpy.Arr2 [chain_row {| x := [1; 2; 3]%Z; appended := [10; 11; 12; 13]%Z |}])
  = Some [2%Z].
Proof. by vm_compute. Qed.

End Chain.

(** ** Facts about [sorted] and the order on strings *)

Module PyFacts.

(** The order [sorted] sorts by. *)
Definition le (s1 s2 : string) : Prop := String.leb s1 s2 = true.

Lemma ascii_compare_refl (c : ascii) : Ascii.compare c c = Eq.
Proof. unfold Ascii.compare. apply N.compare_refl. Qed.

Lemma compare_refl (s : string) : String.compare s s = Eq.
Proof. induction s as [|c s IH]; simpl; [done|]. by rewrite ascii_compare_refl. Qed.

Lemma ascii_compare_lt_trans (a b c : ascii) :
  Ascii.compare a b = Lt -> Ascii.compare b c = Lt -> Ascii.compare a c = Lt.
Proof. unfold Ascii.compare. rewrite !N.compare_lt_iff. lia. Qed.

Lemma compare_lt_trans (s1 s2 s3 : string) :
  String.compare s1 s2 = Lt -> String.compare s2 s3 = Lt -> String.compare s1 s3 = Lt.
Proof.
  revert s2 s3. induction s1 as [|a s1 IH]; intros [|b s2] [|c s3]; simpl; try done.
  destruct (Ascii.compare a b) eqn:Hab; try done.
  - apply Ascii.compare_eq_iff in Hab as ->.
    destruct (Ascii.compare b c); try done. apply IH.
  - destruct (Ascii.compare b c) eqn:Hbc; try done.
    + apply Ascii.compare_eq_iff in Hbc as <-. by rewrite Hab.
    + by rewrite (ascii_compare_lt_trans _ _ _ Hab Hbc).
Qed.

Lemma leb_iff (s1 s2 : string) :
  String.leb s1 s2 = true <-> String.compare s1 s2 = Lt \/ s1 = s2.
Proof.
  unfold String.leb. destruct (String.compare s1 s2) eqn:Hc.
  - apply String.compare_eq_iff in Hc. tauto.
  - tauto.
  - split; [done|]. intros [?| ->]; [done|]. by rewrite compare_refl in Hc.
Qed.

Lemma leb_refl (s : string) : String.leb s s = true.
Proof. apply leb_iff. by right. Qed.

Lemma leb_trans (s1 s2 s3 : string) :
  String.leb s1 s2 = true -> String.leb s2 s3 = true -> String.leb s1 s3 = true.
Proof.
  rewrite !leb_iff. intros [H12| ->] [H23| ->]; eauto using compare_lt_trans.
Qed.

Lemma insert_sorted_perm (x : string) (l : list string) :
  Permutation (Py.insert_sorted x l) (x :: l).
Proof.
  induction l as [|y l IH]; simpl; [done|].
  destruct (String.leb x y); [done|].
  rewrite IH. apply perm_swap.
Qed.

Lemma sorted_perm (l : list string) : Permutation (Py.sorted l) l.
Proof.
  induction l as [|x l IH]; simpl; [done|].
  rewrite insert_sorted_perm. by constructor.
Qed.

Lemma elem_of_sorted (x : string) (l : list string) : x ∈ Py.sorted l <-> x ∈ l.
Proof. by rewrite sorted_perm. Qed.

Lemma insert_sorted_Forall (P : string -> Prop) (x : string) (l : list string) :
  P x -> Forall P l -> Forall P (Py.insert_sorted x l).
Proof. intros Hx Hl. rewrite insert_sorted_perm. by constructor. Qed.

Lemma insert_sorted_strongly (x : string) (l : list string) :
  StronglySorted le l -> StronglySorted le (Py.insert_sorted x l).
Proof.
  induction 1 as [|y l Hl IH Hy]; simpl.
  - repeat constructor.
  - destruct (String.leb x y) eqn:Hxy.
    + constructor; [by constructor|]. constructor; [done|].
      eapply Forall_impl; [exact Hy|]. intros z Hz. by eapply leb_trans.
    + constructor; [done|]. apply insert_sorted_Forall; [|done].
      destruct (String.leb_total x y) as [H|H]; [congruence|done].
Qed.

(** [sorted] returns its argument rearranged in ascending order. *)
Lemma sorted_strongly (l : list string) : StronglySorted le (Py.sorted l).
Proof.
  induction l as [|x l IH]; simpl; [constructor|]. by apply insert_sorted_strongly.
Qed.

Lemma filter_strongly {A} (R : A -> A -> Prop) (f : A -> bool) (l : list A) :
  StronglySorted R l -> StronglySorted R (List.filter f l).
Proof.
  induction 1 as [|y l Hl IH Hy]; simpl; [constructor|].
  destruct (f y); [|done]. constructor; [done|].
  rewrite List.Forall_forall in Hy |- *. intros z Hz.
  apply List.filter_In in Hz as [Hz _]. by apply Hy.
Qed.

(** Two duplicate-free lists sorted by the same antisymmetric relation and
    holding the same elements are the same list. *)
Lemma strongly_sorted_unique {A} (R : A -> A -> Prop) (l1 l2 : list A) :
  (forall a b, a ∈ l1 -> b ∈ l1 -> R a b -> R b a -> a = b) ->
  StronglySorted R l1 -> StronglySorted R l2 ->
  NoDup l1 -> NoDup l2 ->
  (forall a, a ∈ l1 <-> a ∈ l2) ->
  l1 = l2.
Proof.
  intros Hanti Hs1. revert l2 Hanti.
  induction Hs1 as [|x l1 Hs1 IH Hx]; intros l2 Hanti Hs2 Hn1 Hn2 Hel.
  - destruct l2 as [|y l2]; [done|]. exfalso.
    assert (y ∈ @nil A) by (apply Hel; left). by eapply not_elem_of_nil.
  - destruct Hs2 as [|y l2 Hs2 Hy].
    { exfalso. assert (x ∈ @nil A) by (apply Hel; left). by eapply not_elem_of_nil. }
    apply NoDup_cons in Hn1 as [Hx1 Hn1]. apply NoDup_cons in Hn2 as [Hy2 Hn2].
    rewrite List.Forall_forall in Hx, Hy.
    assert (x = y) as <-.
    { assert (Hxin : x ∈ y :: l2) by (apply Hel; left).
      assert (Hyin : y ∈ x :: l1) by (apply Hel; left).
      apply elem_of_cons in Hxin as [?|Hxin]; [done|].
      apply elem_of_cons in Hyin as [?|Hyin]; [done|].
      apply Hanti; [left|by right| |].
      - apply Hx. by apply list_elem_of_In.
      - apply Hy. by apply list_elem_of_In. }
    f_equal. apply IH; try done.
    + intros a b Ha Hb. apply Hanti; by right.
    + intros a. specialize (Hel a). rewrite !elem_of_cons in Hel.
      split; intros Ha.
      * destruct (proj1 Hel (or_intror Ha)) as [->|?]; [done|done].
      * destruct (proj2 Hel (or_intror Ha)) as [->|?]; [done|done].
Qed.

(** *** Splitting and comparing file names *)

Lemma compare_app_prefix (p a b : string) :
  String.compare (p +:+ a) (p +:+ b) = String.compare a b.
Proof. induction p as [|c p IH]; simpl; [done|]. by rewrite ascii_compare_refl. Qed.

Lemma ends_with_app (e s : string) : Py.ends_with e (s +:+ e) = true.
Proof.
  induction s as [|c s IH]; simpl.
  - destruct e; cbn [Py.ends_with]; by rewrite String.eqb_refl.
  - rewrite IH. apply orb_true_r.
Qed.

Lemma has_char_app (c : ascii) (a b : string) :
  Py.has_char c (a +:+ b) = Py.has_char c a || Py.has_char c b.
Proof. induction a as [|d a IH]; simpl; [done|]. by rewrite IH, orb_assoc. Qed.

Lemma split_no_sep (c : ascii) (s : string) :
  Py.has_char c s = false -> Py.split c s = [s].
Proof.
  induction s as [|d s IH]; simpl; [done|].
  intros [Hd Hs]%orb_false_elim. rewrite Hd, IH by done. done.
Qed.

Lemma split_not_nil (c : ascii) (s : string) : Py.split c s <> [].
Proof.
  destruct s as [|d s]; simpl; [done|].
  destruct (Ascii.eqb d c); [done|]. by destruct (Py.split c s).
Qed.

(** [(a + c + t).split(c) == a.split(c) + t.split(c)]. *)
Lemma split_app_sep (c : ascii) (a t : string) :
  Py.split c (a +:+ String c t) = Py.split c a ++ Py.split c t.
Proof.
  induction a as [|d a IH]; simpl.
  - by rewrite Ascii.eqb_refl.
  - destruct (Ascii.eqb d c); [by rewrite IH|].
    rewrite IH. pose proof (split_not_nil c a).
    by destruct (Py.split c a).
Qed.

Lemma hd_split_app (c : ascii) (s t : string) :
  Py.has_char c s = false ->
  List.hd "" (Py.split c (s +:+ String c t)) = s.
Proof.
  induction s as [|d s IH]; simpl.
  - intros _. by rewrite Ascii.eqb_refl.
  - intros [Hd Hs]%orb_false_elim. rewrite Hd. specialize (IH Hs).
    destruct (Py.split c (s +:+ String c t)); simpl in *; by subst.
Qed.

(** The first piece of [split] has no separator in it, and the string is
    that piece, alone or followed by a separator and the rest. *)
Lemma hd_split_decomp (c : ascii) (e : string) :
  Py.has_char c (List.hd "" (Py.split c e)) = false /\
  (e = List.hd "" (Py.split c e) \/
   exists t, e = List.hd "" (Py.split c e) +:+ String c t).
Proof.
  induction e as [|d e [IH1 IH2]]; simpl.
  - split; [done|by left].
  - destruct (Ascii.eqb_spec d c) as [->|Hne]; simpl.
    + split; [done|]. right. by exists e.
    + pose proof (split_not_nil c e) as Hnn.
      destruct (Py.split c e) as [|h ps]; [done|]. simpl in *.
      split.
      * rewrite IH1. by apply Ascii.eqb_neq in Hne as ->.
      * destruct IH2 as [->|[t ->]]; [by left|]. right. by exists t.
Qed.

Lemma last_split_dataset1 (e : string) :
  Py.has_char "/" e = false ->
  List.last (Py.split "/"%char ("./dataset1/" +:+ e)) "" = e.
Proof.
  intros He.
  assert (Py.split "/"%char ("./dataset1/" +:+ e)
          = "." :: "dataset1" :: Py.split "/"%char e) as -> by reflexivity.
  by rewrite split_no_sep.
Qed.

Lemma ascii_compare_neq (a b : ascii) :
  a <> b -> Ascii.compare a b <> Eq.
Proof. intros Hne Heq. by apply Ascii.compare_eq_iff in Heq. Qed.

(** For two different names without a dot, the order of the names followed
    by a dot is decided before the dot of either: what follows the dots
    does not matter. *)
Lemma compare_dot_ext (a b s t : string) :
  Py.has_char "." a = false -> Py.has_char "." b = false -> a <> b ->
  String.compare (a +:+ String "." s) (b +:+ String "." t)
  = String.compare (a +:+ ".") (b +:+ ".").
Proof.
  revert b. induction a as [|c a IH]; intros [|d b]; simpl; try done.
  - intros _ [Hd _]%orb_false_elim _. apply Ascii.eqb_neq in Hd.
    pose proof (ascii_compare_neq "." d (not_eq_sym Hd)).
    by destruct (Ascii.compare "." d).
  - intros [Hc _]%orb_false_elim _ _. apply Ascii.eqb_neq in Hc.
    pose proof (ascii_compare_neq c "." Hc).
    by destruct (Ascii.compare c ".").
  - intros [_ Ha]%orb_false_elim [_ Hb]%orb_false_elim Hne.
    destruct (Ascii.compare c d) eqn:Hcd; try done.
    apply Ascii.compare_eq_iff in Hcd as ->.
    apply IH; try done. congruence.
Qed.

Lemma leb_dot_ext (a b s : string) :
  Py.has_char "." a = false -> Py.has_char "." b = false ->
  String.leb (a +:+ String "." s) (b +:+ String "." s) = true ->
  String.leb (a +:+ ".") (b +:+ ".") = true.
Proof.
  intros Ha Hb. destruct (String.string_dec a b) as [->|Hne].
  - intros _. apply leb_refl.
  - unfold String.leb. by rewrite (compare_dot_ext a b s s).
Qed.

Lemma app_dot_inj (a b s t : string) :
  Py.has_char "." a = false -> Py.has_char "." b = false ->
  a +:+ String "." s = b +:+ String "." t -> a = b.
Proof.
  revert b. induction a as [|c a IH]; intros [|d b]; simpl; try done.
  - intros _ [Hd _]%orb_false_elim [= <- _]. by rewrite Ascii.eqb_refl in Hd.
  - intros [Hc _]%orb_false_elim _ [= -> _]. by rewrite Ascii.eqb_refl in Hc.
  - intros [_ Ha]%orb_false_elim [_ Hb]%orb_false_elim [= -> Heq].
    f_equal. by apply IH.
Qed.

Lemma app_inj_l (p a b : string) : p +:+ a = p +:+ b -> a = b.
Proof. induction p as [|c p IH]; simpl; [done|]. intros [= ?]. by apply IH. Qed.

Lemma mem_elem_of (x : string) (l : list string) : Py.mem x l = true <-> x ∈ l.
Proof.
  unfold Py.mem. rewrite existsb_exists. split.
  - intros (y & Hy & ->%String.eqb_eq). by apply list_elem_of_In.
  - intros Hx. exists x. split; [by apply list_elem_of_In|apply String.eqb_refl].
Qed.

Lemma strongly_sorted_map {A B} (R : A -> A -> Prop) (R' : B -> B -> Prop)
    (f : A -> B) (l : list A) :
  (forall a b, a ∈ l -> b ∈ l -> R a b -> R' (f a) (f b)) ->
  StronglySorted R l -> StronglySorted R' (List.map f l).
Proof.
  intros Hf Hs. induction Hs as [|x l Hs IH Hx]; simpl; [constructor|].
  constructor.
  - apply IH. intros a b Ha Hb. apply Hf; by right.
  - rewrite List.Forall_forall in Hx |- *. intros y (z & <- & Hz)%List.in_map_iff.
    apply Hf; [left|right; by apply list_elem_of_In|by apply Hx].
Qed.

End PyFacts.

(** ** [stochastic_gwb_analysis.ipynb]: the noise dictionary

<<
    noisefiles = sorted(glob.glob('./dataset1/noise/*.json'))
    params = {}
    for nf in noisefiles:
        with open(nf, 'r') as fin:
            params.update(json.load(fin))
>>
*)

Module Noise.

(** Two noise files that both set one key: the file sorted last wins,
    whatever order [glob] listed them in. *)
Definition demo_json (nf : string) : gmap string Z :=
  if String.eqb nf "noise/A.json" then {[ "efac" := 1%Z; "equad" := 2%Z ]}
  else if String.eqb nf "noise/B.json" then {[ "efac" := 3%Z ]}
  else ∅.

Section Load.

(** The values of a noise dictionary are floats the cell never inspects. *)
Variable value : Type.

(** [json.load(open(nf))]: the dictionary stored in the noise file [nf]. *)
Variable json_load : string -> gmap string value.

(** [params.update(d)]: every key of [d] is bound to its value in [d]; the
    other keys of [params] stay. *)
Definition update (params d : gmap string value) : gmap string value := d ∪ params.

(** The [for] loop. *)
Fixpoint load_loop (noisefiles : list string) (params : gmap string value)
  : gmap string value :=
  match noisefiles with
  | [] => params
  | nf :: rest => load_loop rest (update params (json_load nf))
  end.

(** The two cells; [globbed] is what [glob.glob] returned, in the order the
    file system listed it. *)
Definition load_noise (globbed : list string) : gmap string value :=
  let noisefiles := Py.sorted globbed in
  let params := ∅ in
  load_loop noisefiles params.

Lemma load_loop_app (l1 l2 : list string) (params : gmap string value) :
  load_loop (l1 ++ l2) params = load_loop l2 (load_loop l1 params).
Proof. revert params. induction l1 as [|nf l1 IH]; intros params; simpl; [done|]. apply IH. Qed.

Lemma load_loop_undefined (key : string) (l : list string) (params : gmap string value) :
  (forall nf, nf ∈ l -> json_load nf !! key = None) ->
  load_loop l params !! key = params !! key.
Proof.
  revert params. induction l as [|nf l IH]; intros params Hl; simpl; [done|].
  rewrite IH by (intros; apply Hl; by right).
  unfold update. apply lookup_union_r. apply Hl. left.
Qed.

Lemma load_loop_is_Some (key : string) (l : list string) (params : gmap string value) :
  is_Some (load_loop l params !! key) <->
  is_Some (params !! key) \/ exists nf, nf ∈ l /\ is_Some (json_load nf !! key).
Proof.
  revert params. induction l as [|nf l IH]; intros params; simpl.
  - split; [by left|]. intros [?|(nf & Hnf & _)]; [done|]. by apply not_elem_of_nil in Hnf.
  - rewrite IH. unfold update. rewrite lookup_union_is_Some. split.
    + intros [[H|H]|(nf' & Hin & H)].
      * right. exists nf. split; [left|done].
      * by left.
      * right. exists nf'. split; [by right|done].
    + intros [H|(nf' & Hin & H)].
      * left. by right.
      * apply elem_of_cons in Hin as [->|Hin].
        -- left. by left.
        -- right. by exists nf'.
Qed.

(** C5: after the loop, a key is in [params] exactly when some noise file
    has it, and a key is bound to the value of the last file, in sorted
    file-name order, that has it. *)
Theorem params_last_file_wins (globbed : list string) (key : string) :
  (is_Some (load_noise globbed !! key) <->
   exists nf, nf ∈ globbed /\ is_Some (json_load nf !! key)) /\
  (forall before nf after v,
     Py.sorted globbed = before ++ nf :: after ->
     json_load nf !! key = Some v ->
     (forall nf', nf' ∈ after -> json_load nf' !! key = None) ->
     load_noise globbed !! key = Some v).
Proof.
  split.
  - unfold load_noise. rewrite load_loop_is_Some, lookup_empty.
    setoid_rewrite PyFacts.elem_of_sorted. split.
    + intros [[? ?]|?]; done.
    + intros ?; by right.
  - intros before nf after v Hsort Hv Hafter. unfold load_noise.
    rewrite Hsort, load_loop_app. simpl.
    rewrite load_loop_undefined by done.
    unfold update. by apply lookup_union_Some_l.
Qed.

End Load.

Arguments update {value} params d.
Arguments load_loop {value} json_load noisefiles params.
Arguments load_noise {value} json_load globbed.

Example load_noise_run :
  load_noise demo_json ["noise/B.json"; "noise/A.json"] !! "efac" = Some 3%Z /\
  load_noise demo_json ["noise/B.json"; "noise/A.json"] !! "equad" = Some 2%Z /\
  load_noise demo_json ["noise/B.json"; "noise/A.json"] !! "ecorr" = None.
Proof. by vm_compute. Qed.

End Noise.

(** ** [stochastic_gwb_analysis.ipynb]: pairing [.par] and [.tim] files

<<
    datadir = './dataset1/'
    parfiles = sorted(glob.glob(datadir + '/*.par'))
    timfiles = sorted(glob.glob(datadir + '/*.tim'))
    parfiles = [x.encode('ascii') for x in parfiles if x.split('/')[-1].split('.')[0] in psrlist]
    timfiles = [x.encode('ascii') for x in timfiles if x.split('/')[-1].split('.')[0] in psrlist]
    for p, t in zip(parfiles, timfiles):
        psr = Pulsar(p, t, ephem='DE436', clk=None)
>>
*)

Module DataFiles.

(** [glob.glob('./dataset1//*' + ext)] over a directory whose entries are
    [entries] (in the order the file system lists them): the entries that
    end in [ext] and do not start with a dot (a [*] does not match a hidden
    file), each joined to the directory part ['./dataset1'] of the
    pattern. *)
Definition glob_matches (ext name : string) : bool :=
  Py.ends_with ext name && negb (Py.starts_with "." name).

Definition glob_ext (entries : list string) (ext : string) : list string :=
  List.map (String.append "./dataset1/") (List.filter (glob_matches ext) entries).

(** [x.split('/')[-1].split('.')[0]]; [split] never returns an empty list,
    so neither index can fail. *)
Definition stem (x : string) : string :=
  let base := List.last (Py.split "/"%char x) "" in
  List.hd "" (Py.split "."%char base).

(** The filter of the list comprehension. *)
Definition keep (psrlist : list string) (x : string) : bool :=
  Py.mem (stem x) psrlist.

(** The paths the filter keeps, in the order of the sorted listing. *)
Definition selected (ext : string) (entries psrlist : list string) : list string :=
  let files := Py.sorted (glob_ext entries ext) in
  List.filter (keep psrlist) files.

(** Text of which every character is ASCII. *)
Fixpoint is_ascii (s : string) : bool :=
  match s with
  | EmptyString => true
  | String c s' => (nat_of_ascii c <? 128)%nat && is_ascii s'
  end.

(** [x.encode('ascii')]: the same characters on ASCII text; on any other
    text the codec raises ([UnicodeDecodeError] on the byte strings of
    Python 2, [UnicodeEncodeError] on the text of Python 3), here [None]. *)
Definition encode_ascii (x : string) : option string :=
  if is_ascii x then Some x else None.

(** [[x.encode('ascii') for x in files if keep(x)]]: the comprehension
    raises at the first kept path that is not ASCII, and then binds
    nothing. *)
Definition files_with_ext (ext : string) (entries psrlist : list string)
  : option (list string) :=
  mapM encode_ascii (selected ext entries psrlist).

Definition parfiles (entries psrlist : list string) : option (list string) :=
  files_with_ext ".par" entries psrlist.

Definition timfiles (entries psrlist : list string) : option (list string) :=
  files_with_ext ".tim" entries psrlist.

(** The text of a file name before its first dot: what the filter looks up
    in [psrlist]. *)
Definition first_piece (e : string) : string := List.hd "" (Py.split "."%char e).

(** The order the sorted paths induce on the pulsar names. *)
Definition dot_le (a b : string) : Prop := PyFacts.le (a +:+ ".") (b +:+ ".").

(** The pulsar names of the files kept for the extension [.r]. *)
Definition stems (r : string) (entries psrlist : list string) : list string :=
  List.map stem (selected (String "." r) entries psrlist).

(** The [(p, t)] pairs the loop hands to [Pulsar]; [None] when one of the
    two comprehensions raised. *)
Definition pulsar_args (entries psrlist : list string) : option (list (string * string)) :=
  ps ← parfiles entries psrlist;
  ts ← timfiles entries psrlist;
  Some (zip ps ts).

(** The precondition of the claim, as a check: every name of [psrlist] has
    its [.par] and its [.tim] among the entries. *)
Definition has_pairs (entries psrlist : list string) : bool :=
  forallb (fun n => Py.mem (n +:+ ".par") entries && Py.mem (n +:+ ".tim") entries) psrlist.

(** A directory of three pulsars, two of them listed. *)
Definition demo_entries : list string :=
  ["J2.tim"; "J1.par"; "notes.txt"; "J3.par"; "J2.par"; "J3.tim"; "J1.tim"].

Definition demo_psrlist : list string := ["J1"; "J2"].

Example pulsar_args_run :
  pulsar_args demo_entries demo_psrlist
  = Some [("./dataset1/J1.par", "./dataset1/J1.tim");
          ("./dataset1/J2.par", "./dataset1/J2.tim")].
Proof. reflexivity. Qed.

(** A listed pulsar whose file name is not ASCII (here the byte 233) stops
    the cell. *)
Example parfiles_not_ascii :
  parfiles [String "233" ".par"; String "233" ".tim"] [String "233" ""] = None.
Proof. reflexivity. Qed.


(** A second [.par] file of a listed pulsar, as timing releases ship them,
    makes the lists differ in length. *)
Example pairing_breaks_on_extra_par :
  has_pairs ["J1.par"; "J1.tim"; "J1.gls.par"] ["J1"] = true /\
  parfiles ["J1.par"; "J1.tim"; "J1.gls.par"] ["J1"]
    = Some ["./dataset1/J1.gls.par"; "./dataset1/J1.par"] /\
  timfiles ["J1.par"; "J1.tim"; "J1.gls.par"] ["J1"] = Some ["./dataset1/J1.tim"].
Proof. by vm_compute. Qed.

(** *** Which files the two comprehensions keep *)

Lemma map_is_fmap {A B} (f : A -> B) (l : list A) : List.map f l = f <$> l.
Proof. induction l as [|a l IH]; simpl; [done|]. by rewrite IH. Qed.

Lemma filter_nodup {A} (f : A -> bool) (l : list A) :
  NoDup l -> NoDup (List.filter f l).
Proof.
  induction 1 as [|a l Ha Hl IH]; simpl; [constructor|].
  destruct (f a); [|done]. constructor; [|done].
  intros Hin%list_elem_of_In%List.filter_In. apply Ha, list_elem_of_In. tauto.
Qed.

Lemma stem_path (e : string) :
  Py.has_char "/" e = false -> stem ("./dataset1/" +:+ e) = first_piece e.
Proof. intros He. unfold stem. by rewrite PyFacts.last_split_dataset1. Qed.

Lemma prefix_empty (s : string) : String.prefix "" s = true.
Proof. by destruct s. Qed.

Lemma hidden_iff_empty (s r : string) :
  Py.has_char "." s = false ->
  (Py.starts_with "." (s +:+ String "." r) = false <-> s <> "").
Proof.
  unfold Py.starts_with. destruct s as [|c s].
  - intros _. change ("" +:+ String "." r) with (String "." r).
    cbn [String.prefix]. destruct (ascii_dec "." "."); [|done].
    rewrite prefix_empty. split; done.
  - intros [Hc _]%orb_false_elim. apply Ascii.eqb_neq in Hc.
    change (String c s +:+ String "." r) with (String c (s +:+ String "." r)).
    cbn [String.prefix]. destruct (ascii_dec "." c) as [<-|_]; [done|].
    split; done.
Qed.

Lemma is_ascii_app (a b : string) : is_ascii (a +:+ b) = is_ascii a && is_ascii b.
Proof. induction a as [|c a IH]; simpl; [done|]. by rewrite IH, andb_assoc. Qed.

(** On ASCII paths the comprehension returns the kept paths themselves. *)
Lemma encode_all (l : list string) :
  Forall (fun x => is_ascii x = true) l -> mapM encode_ascii l = Some l.
Proof.
  intros Hall. apply mapM_Some.
  induction Hall as [|x l Hx _ IH]; constructor; [|done].
  unfold encode_ascii. by rewrite Hx.
Qed.

(** When it returns, it returns the kept paths themselves, all ASCII. *)
Lemma encode_some (l l' : list string) :
  mapM encode_ascii l = Some l' -> l' = l /\ Forall (fun x => is_ascii x = true) l.
Proof.
  intros H%mapM_Some.
  induction H as [|x y l l' Hxy _ [-> IH]]; [done|].
  unfold encode_ascii in Hxy. destruct (is_ascii x) eqn:Hx; [|done].
  injection Hxy as <-. split; [done|by constructor].
Qed.

(** It raises exactly when a kept path is not ASCII. *)
Lemma encode_none (l : list string) :
  mapM encode_ascii l = None <-> Exists (fun x => is_ascii x = false) l.
Proof.
  rewrite mapM_None, !Exists_exists.
  split; intros (x & Hin & Hx); exists x; (split; [done|]);
    unfold encode_ascii in *; by destruct (is_ascii x).
Qed.

Section Pairing.

Variables entries psrlist : list string.

(** The entries of a directory are distinct names without a slash. *)
Hypothesis entries_nodup : NoDup entries.
Hypothesis entries_names : forall e, e ∈ entries -> Py.has_char "/" e = false.

Section OneExtension.

(** An extension [.r], and the assumption that the only file with that
    extension whose first piece is a listed pulsar is the pulsar's own. *)
Variable r : string.
Hypothesis one_file :
  forall e, e ∈ entries -> Py.ends_with (String "." r) e = true ->
            first_piece e ∈ psrlist -> e = first_piece e +:+ String "." r.

Lemma files_elem (x : string) :
  x ∈ selected (String "." r) entries psrlist <->
  exists e, x = "./dataset1/" +:+ e /\ e ∈ entries /\
            glob_matches (String "." r) e = true /\ first_piece e ∈ psrlist.
Proof.
  unfold selected, glob_ext.
  rewrite list_elem_of_In, List.filter_In, <- list_elem_of_In, PyFacts.elem_of_sorted.
  rewrite list_elem_of_In, List.in_map_iff. unfold keep.
  rewrite PyFacts.mem_elem_of. split.
  - intros [(e & <- & [He Hm]%List.filter_In) Hstem].
    apply list_elem_of_In in He. rewrite stem_path in Hstem by auto.
    by exists e.
  - intros (e & -> & He & Hm & Hs). split.
    + exists e. split; [done|]. apply List.filter_In. by rewrite <- list_elem_of_In.
    + by rewrite stem_path by auto.
Qed.

(** A kept path is the directory, the pulsar name, the extension. *)
Lemma files_shape (x : string) :
  x ∈ selected (String "." r) entries psrlist ->
  x = "./dataset1/" +:+ stem x +:+ String "." r /\
  stem x ∈ psrlist /\ Py.has_char "." (stem x) = false /\ stem x <> "" /\
  (stem x +:+ String "." r) ∈ entries.
Proof.
  intros (e & -> & He & [Hend Hvis]%andb_prop & Hs)%files_elem.
  rewrite stem_path by auto.
  pose proof (one_file e He Hend Hs) as Heq.
  destruct (PyFacts.hd_split_decomp "." e) as [Hdot _]. fold (first_piece e) in Hdot.
  split; [by rewrite <- Heq|]. split; [done|]. split; [done|]. split; [|by rewrite <- Heq].
  apply (hidden_iff_empty _ r); [done|]. rewrite <- Heq. by apply negb_true_iff.
Qed.

Lemma files_of_stems :
  selected (String "." r) entries psrlist
  = List.map (fun s => "./dataset1/" +:+ s +:+ String "." r) (stems r entries psrlist).
Proof.
  unfold stems. rewrite List.map_map.
  rewrite <- (List.map_id (selected _ _ _)) at 1.
  apply List.map_ext_in. intros x Hx%list_elem_of_In.
  by destruct (files_shape x Hx) as [<- _].
Qed.

Lemma stems_elem (s : string) :
  s ∈ stems r entries psrlist <->
  s ∈ psrlist /\ Py.has_char "." s = false /\ s <> "" /\ (s +:+ String "." r) ∈ entries.
Proof.
  unfold stems. rewrite list_elem_of_In, List.in_map_iff. split.
  - intros (x & <- & Hx%list_elem_of_In).
    by destruct (files_shape x Hx) as (_ & ? & ? & ? & ?).
  - intros (Hs & Hdot & Hne & He).
    assert (Hfp : first_piece (s +:+ String "." r) = s)
      by (by apply PyFacts.hd_split_app).
    exists ("./dataset1/" +:+ s +:+ String "." r). split.
    + rewrite stem_path by auto. done.
    + apply list_elem_of_In, files_elem. exists (s +:+ String "." r).
      split; [done|]. split; [done|]. split; [|by rewrite Hfp].
      unfold glob_matches. rewrite PyFacts.ends_with_app. simpl.
      apply negb_true_iff. by apply hidden_iff_empty.
Qed.

Lemma files_nodup : NoDup (selected (String "." r) entries psrlist).
Proof.
  unfold selected, glob_ext. apply filter_nodup.
  rewrite PyFacts.sorted_perm, map_is_fmap. apply NoDup_fmap_2_strong.
  - intros a b _ _. apply PyFacts.app_inj_l.
  - by apply filter_nodup.
Qed.

Lemma stems_nodup : NoDup (stems r entries psrlist).
Proof.
  unfold stems. rewrite map_is_fmap. apply NoDup_fmap_2_strong; [|apply files_nodup].
  intros x y Hx Hy Heq.
  destruct (files_shape x Hx) as [-> _]. destruct (files_shape y Hy) as [-> _].
  by rewrite Heq.
Qed.

Lemma stems_sorted : StronglySorted dot_le (stems r entries psrlist).
Proof.
  unfold stems.
  apply (PyFacts.strongly_sorted_map PyFacts.le).
  - intros x y Hx Hy Hle.
    destruct (files_shape x Hx) as (Ex & _ & Hdx & _).
    destruct (files_shape y Hy) as (Ey & _ & Hdy & _).
    unfold dot_le, PyFacts.le in *. rewrite Ex, Ey in Hle.
    unfold String.leb in Hle. rewrite PyFacts.compare_app_prefix in Hle.
    by apply (PyFacts.leb_dot_ext _ _ r).
  - unfold selected. apply PyFacts.filter_strongly, PyFacts.sorted_strongly.
Qed.

End OneExtension.

(** The precondition of the claim: each listed pulsar has its two files. *)
Hypothesis pairs_present :
  forall n, n ∈ psrlist -> (n +:+ ".par") ∈ entries /\ (n +:+ ".tim") ∈ entries.

(** A [.par] or [.tim] file that the filter attributes to a listed pulsar
    is that pulsar's own file. *)
Hypothesis one_par :
  forall e, e ∈ entries -> Py.ends_with ".par" e = true ->
            first_piece e ∈ psrlist -> e = first_piece e +:+ ".par".
Hypothesis one_tim :
  forall e, e ∈ entries -> Py.ends_with ".tim" e = true ->
            first_piece e ∈ psrlist -> e = first_piece e +:+ ".tim".

Lemma same_stems : stems "par" entries psrlist = stems "tim" entries psrlist.
Proof.
  apply (PyFacts.strongly_sorted_unique dot_le).
  - intros a b Ha Hb Hab Hba.
    apply (stems_elem "par" one_par) in Ha as (_ & Ha & _).
    apply (stems_elem "par" one_par) in Hb as (_ & Hb & _).
    apply (PyFacts.app_dot_inj a b "" ""); [done..|].
    by apply String.leb_antisym.
  - by apply stems_sorted.
  - by apply stems_sorted.
  - by apply stems_nodup.
  - by apply stems_nodup.
  - intros s. rewrite (stems_elem "par" one_par), (stems_elem "tim" one_tim).
    split; intros (Hs & ? & ? & _); (split; [done|split; [done|split; [done|]]]);
      by destruct (pairs_present s Hs).
Qed.

(** The names of the listed pulsars are ASCII text. *)
Hypothesis names_ascii : forall n, n ∈ psrlist -> is_ascii n = true.

Lemma selected_ascii (r : string) :
  (forall e, e ∈ entries -> Py.ends_with (String "." r) e = true ->
             first_piece e ∈ psrlist -> e = first_piece e +:+ String "." r) ->
  is_ascii r = true ->
  Forall (fun x => is_ascii x = true) (selected (String "." r) entries psrlist).
Proof.
  intros Hone Hr. apply Forall_forall. intros x Hx.
  destruct (files_shape r Hone x Hx) as (Hshape & Hs & _).
  rewrite Hshape, !is_ascii_app, (names_ascii _ Hs). simpl. by rewrite Hr.
Qed.


End Pairing.



(** A decidable property of every element of a concrete list, by running
    its decision procedure. *)
Ltac decide_on_list :=
  lazymatch goal with
  | |- forall x, x ∈ ?l -> @?P x =>
      apply (proj1 (Forall_forall P l)); apply (bool_decide_unpack _);
      vm_compute; exact I
  end.


End DataFiles.

(** ** The time span of the data
    ([stochastic_gwb_analysis.ipynb], [single_pulsar_noise.ipynb])

<<
    tmin = [p.toas.min() for p in psrs]
    tmax = [p.toas.max() for p in psrs]
    Tspan = np.max(tmax) - np.min(tmin)
>>
*)

Module Span.

Section Times.

(** Arrival times are doubles (any type with a test for NaN, a comparison
    and a subtraction will do for the shape of the cell). *)
Variable time : Type.
Variable isnan : time -> bool.
Variable leb : time -> time -> bool.
Variable sub : time -> time -> time.

(** [np.max] and [np.min] of a sequence, and the array methods [max] and
    [min]: a left-to-right reduction; the empty sequence raises
    [ValueError] ([None]). *)
Definition reduce (pick : time -> time -> time) (l : list time) : option time :=
  match l with
  | [] => None
  | t :: l' => Some (fold_left pick l' t)
  end.

(** One step of NumPy's reductions, [acc] the value so far: for the
    maximum [acc >= t || isnan(acc) ? acc : t], for the minimum
    [acc <= t || isnan(acc) ? acc : t].  A NaN, once met, stays. *)
Definition maximum (acc t : time) : time := if leb t acc || isnan acc then acc else t.
Definition minimum (acc t : time) : time := if leb acc t || isnan acc then acc else t.

Definition np_max (l : list time) : option time := reduce maximum l.
Definition np_min (l : list time) : option time := reduce minimum l.

(** The cell of [stochastic_gwb_analysis.ipynb]; [psrs] holds the [toas]
    array of each pulsar. *)
Definition Tspan (psrs : list (list time)) : option time :=
  tmin ← mapM np_min psrs;
  tmax ← mapM np_max psrs;
  hi ← np_max tmax;
  lo ← np_min tmin;
  Some (sub hi lo).

(** The cell of [single_pulsar_noise.ipynb]: [tmin] and [tmax] are scalars,
    of which [np.min] and [np.max] are the scalars themselves. *)
Definition Tspan_single (toas : list time) : option time :=
  tmin ← np_min toas;
  tmax ← np_max toas;
  Some (sub tmax tmin).

(** [t] is the largest (the smallest) time of all pulsars. *)
Definition global_max (psrs : list (list time)) (t : time) : Prop :=
  (exists toas, toas ∈ psrs /\ t ∈ toas) /\
  (forall toas u, toas ∈ psrs -> u ∈ toas -> leb u t = true).

Definition global_min (psrs : list (list time)) (t : time) : Prop :=
  (exists toas, toas ∈ psrs /\ t ∈ toas) /\
  (forall toas u, toas ∈ psrs -> u ∈ toas -> leb t u = true).

(** *** A reduction that picks by a key returns an extremum *)

Section Extremum.

Variable pick : time -> time -> time.
Variable key : time -> Z.
Variable ok : time -> Prop.
Hypothesis pick_spec :
  forall a b, ok a -> ok b -> pick a b = if (key b <=? key a)%Z then a else b.

Lemma fold_pick_extremum (l : list time) (t : time) :
  Forall ok (t :: l) ->
  fold_left pick l t ∈ t :: l /\
  forall u, u ∈ t :: l -> (key u <= key (fold_left pick l t))%Z.
Proof.
  revert t. induction l as [|x l IH]; intros t Hok; simpl.
  - split; [left|]. intros u ->%list_elem_of_singleton. lia.
  - apply Forall_cons in Hok as [Ht Hok]. apply Forall_cons in Hok as [Hx Hok].
    assert (Hp : pick t x = t /\ (key x <= key t)%Z \/ pick t x = x /\ (key t <= key x)%Z).
    { rewrite (pick_spec t x Ht Hx). destruct (key x <=? key t)%Z eqn:E.
      - left. split; [done|]. by apply Z.leb_le.
      - right. split; [done|]. apply Z.leb_gt in E. lia. }
    assert (Hok' : Forall ok (pick t x :: l)).
    { constructor; [|done]. destruct Hp as [[-> _]|[-> _]]; done. }
    destruct (IH (pick t x) Hok') as [Hin Hle].
    assert (Hm : (key (pick t x) <= key (fold_left pick l (pick t x)))%Z)
      by (apply Hle; left).
    split.
    + apply elem_of_cons in Hin as [->|Hin].
      * destruct Hp as [[-> _]|[-> _]]; [left|right; left].
      * right. by right.
    + intros u Hu. apply elem_of_cons in Hu as [->|Hu].
      * destruct Hp as [[E ?]|[E ?]]; rewrite E in *; lia.
      * apply elem_of_cons in Hu as [->|Hu].
        -- destruct Hp as [[E ?]|[E ?]]; rewrite E in *; lia.
        -- apply Hle. by right.
Qed.

Lemma reduce_extremum (l : list time) :
  l <> [] -> Forall ok l ->
  exists m, reduce pick l = Some m /\ m ∈ l /\ forall u, u ∈ l -> (key u <= key m)%Z.
Proof.
  destruct l as [|t l]; [done|]. intros _ Hok. eexists. split; [reflexivity|].
  by apply fold_pick_extremum.
Qed.

End Extremum.

End Times.

Arguments reduce {time} pick l.
Arguments maximum {time} isnan leb acc t.
Arguments minimum {time} isnan leb acc t.
Arguments np_max {time} isnan leb l.
Arguments np_min {time} isnan leb l.
Arguments Tspan {time} isnan leb sub psrs.
Arguments Tspan_single {time} isnan leb sub toas.
Arguments global_max {time} leb psrs t.
Arguments global_min {time} leb psrs t.

(** *** The cell on doubles *)

(** A double that is a number: finite, and no NaN. *)
Definition number (t : F64.t) : Prop := F64.valid t = true /\ F64.is_finite t = true.

(** Arrival times in days, for running the cell. *)
Definition demo_psrs : list (list F64.t) :=
  [[F64.of_Z 53030; F64.of_Z 53000; F64.of_Z 53060]; [F64.of_Z 56650; F64.of_Z 54000];
   [F64.of_Z 55000]].

Example Tspan_run : Tspan F64.is_nan F64.leb F64.sub demo_psrs = Some (F64.of_Z 3650).
Proof. by vm_compute. Qed.

Example Tspan_empty_array : Tspan F64.is_nan F64.leb F64.sub [[F64.of_Z 30; F64.of_Z 10]; []] = None.
Proof. reflexivity. Qed.

Lemma number_ordered (t : F64.t) : number t -> F64.ordered t = true.
Proof. intros [Hv Hf]. apply F64.valid_ordered; [done|]. by destruct t. Qed.

Lemma maximum_by_rank (a b : F64.t) :
  number a -> number b ->
  maximum F64.is_nan F64.leb a b = if (F64.rank b <=? F64.rank a)%Z then a else b.
Proof.
  intros Ha Hb. unfold maximum.
  rewrite F64.leb_rank by by apply number_ordered.
  destruct Ha as [_ Ha]. destruct a; try done. simpl. by rewrite orb_false_r.
Qed.

Lemma minimum_by_rank (a b : F64.t) :
  number a -> number b ->
  minimum F64.is_nan F64.leb a b
  = if (- F64.rank b <=? - F64.rank a)%Z then a else b.
Proof.
  intros Ha Hb. unfold minimum.
  rewrite F64.leb_rank by by apply number_ordered.
  destruct Ha as [_ Ha]. destruct a; try done. simpl. rewrite orb_false_r.
  destruct (F64.sval neg n <=? F64.rank b)%Z eqn:E1, (- F64.rank b <=? - F64.sval neg n)%Z eqn:E2;
    rewrite ?Z.leb_le, ?Z.leb_gt in E1, E2; try done; lia.
Qed.

Lemma np_max_spec (l : list F64.t) :
  l <> [] -> Forall number l ->
  exists m, np_max F64.is_nan F64.leb l = Some m /\ m ∈ l /\
            forall u, u ∈ l -> (F64.rank u <= F64.rank m)%Z.
Proof. apply (reduce_extremum _ _ F64.rank number), maximum_by_rank. Qed.

Lemma np_min_spec (l : list F64.t) :
  l <> [] -> Forall number l ->
  exists m, np_min F64.is_nan F64.leb l = Some m /\ m ∈ l /\
            forall u, u ∈ l -> (F64.rank m <= F64.rank u)%Z.
Proof.
  intros Hne Hall.
  destruct (reduce_extremum _ _ (fun t => (- F64.rank t)%Z) number minimum_by_rank l Hne Hall)
    as (m & Hm & Hin & Hle).
  exists m. split; [done|]. split; [done|]. intros u Hu. specialize (Hle u Hu). lia.
Qed.

(** The per-pulsar comprehension succeeds on non-empty arrays of numbers
    and returns each array's extremum. *)
Lemma mapM_np_max (psrs : list (list F64.t)) :
  Forall (fun toas => toas <> []) psrs -> Forall (Forall number) psrs ->
  exists tmax, mapM (np_max F64.is_nan F64.leb) psrs = Some tmax /\
    Forall2 (fun toas m => m ∈ toas /\ forall u, u ∈ toas -> (F64.rank u <= F64.rank m)%Z)
      psrs tmax.
Proof.
  setoid_rewrite mapM_Some.
  induction 1 as [|toas psrs Hne _ IH]; intros Hnum.
  - exists []. split; constructor.
  - apply Forall_cons in Hnum as [Hn Hnum]. destruct (IH Hnum) as (tmax & IH1 & IH2).
    destruct (np_max_spec toas Hne Hn) as (m & Hm & Hin & Hle).
    exists (m :: tmax). split; by constructor.
Qed.

Lemma mapM_np_min (psrs : list (list F64.t)) :
  Forall (fun toas => toas <> []) psrs -> Forall (Forall number) psrs ->
  exists tmin, mapM (np_min F64.is_nan F64.leb) psrs = Some tmin /\
    Forall2 (fun toas m => m ∈ toas /\ forall u, u ∈ toas -> (F64.rank m <= F64.rank u)%Z)
      psrs tmin.
Proof.
  setoid_rewrite mapM_Some.
  induction 1 as [|toas psrs Hne _ IH]; intros Hnum.
  - exists []. split; constructor.
  - apply Forall_cons in Hnum as [Hn Hnum]. destruct (IH Hnum) as (tmin & IH1 & IH2).
    destruct (np_min_spec toas Hne Hn) as (m & Hm & Hin & Hle).
    exists (m :: tmin). split; by constructor.
Qed.

Lemma extrema_are_numbers (psrs : list (list F64.t)) (ts : list F64.t)
    (R : list F64.t -> F64.t -> Prop) :
  Forall (Forall number) psrs ->
  Forall2 (fun toas m => m ∈ toas /\ R toas m) psrs ts ->
  Forall number ts.
Proof.
  intros Hnum H2. induction H2 as [|toas m psrs ts [Hin _] _ IH]; [done|].
  apply Forall_cons in Hnum as [Hn Hnum]. constructor; [|by apply IH].
  by apply (proj1 (Forall_forall _ _) Hn).
Qed.

(** The difference of two numbers, in the order of the doubles. *)
Lemma sub_numbers (a b : F64.t) :
  number a -> number b ->
  F64.ordered (F64.sub a b) = true /\
  F64.rank (F64.sub a b) = F64.srnd (F64.rank a - F64.rank b).
Proof.
  intros [_ Ha] [_ Hb]. destruct a as [| |sa na], b as [| |sb nb]; try done.
  apply F64.sub_rank.
Qed.



(** C10 as stated, for every array of arrival times, fails when a time is
    NaN: the reductions carry the NaN through, [Tspan] is NaN, and NaN is
    not [>= 0] (nor [>=] any pulsar's span). *)
Lemma Tspan_of_nan :
  Tspan F64.is_nan F64.leb F64.sub [[F64.of_Z 53000; F64.NaN; F64.of_Z 53030]] = Some F64.NaN /\
  F64.leb (F64.of_Z 0) F64.NaN = false /\
  Tspan F64.is_nan F64.leb F64.sub [[F64.of_Z 53000; F64.of_Z 53030]; [F64.of_Z 53010; F64.NaN]] = Some F64.NaN /\
  Tspan_single F64.is_nan F64.leb F64.sub [F64.of_Z 53000; F64.of_Z 53030] = Some (F64.of_Z 30) /\
  F64.leb (F64.of_Z 30) F64.NaN = false.
Proof. by vm_compute. Qed.

End Span.

(** ** [cw_exercises.ipynb]: the sky position of a fake pulsar

<<
    u = np.random.uniform()
    v = np.random.uniform()
    phi = 2*np.pi*u
    theta = np.arccos(2*v-1) - np.pi/2
    c = SkyCoord(phi,theta,frame='icrs',unit='rad')
>>

    [u] and [v] are doubles, [np.pi] is the double nearest to pi, and every
    operation rounds.  [np.arccos] is the arc cosine of the C library; of it
    the development uses only that it maps [[-1, 1]] into [[0, np.pi]],
    [1] to [0] and [-1] to [np.pi]. *)

Module Sky.

Local Open Scope Z_scope.

Section Cell.

Variable arccos : F64.t -> F64.t.

Definition phi (u : F64.t) : F64.t := F64.mul (F64.mul (F64.of_Z 2) F64.np_pi) u.

Definition theta (v : F64.t) : F64.t :=
  F64.sub (arccos (F64.sub (F64.mul (F64.of_Z 2) v) (F64.of_Z 1)))
          (F64.div F64.np_pi (F64.of_Z 2)).

(** The longitude and latitude handed to [SkyCoord]. *)
Definition sky_position (u v : F64.t) : F64.t * F64.t := (phi u, theta v).

(** A double in [[0, 1]]. *)
Definition unit_interval (x : F64.t) : Prop :=
  F64.valid x = true /\ F64.leb (F64.of_Z 0) x = true /\ F64.leb x (F64.of_Z 1) = true.

(** The bounds of the two ranges: [2*np.pi] and [np.pi/2]. *)
Definition two_pi : F64.t := F64.mul (F64.of_Z 2) F64.np_pi.
Definition half_pi : F64.t := F64.div F64.np_pi (F64.of_Z 2).

(** *** The constants *)

(** [np.pi/2] and [1], in units of [2^-1074]. *)
Definition P : Z := 7074237752028440 * 2 ^ 1022.
Definition one : Z := 2 ^ 1074.

Lemma P_representable :
  F64.representable P = true /\ F64.representable (2 * P) = true /\
  F64.representable (4 * P) = true /\ F64.representable one = true /\
  F64.representable (2 * one) = true.
Proof. by vm_compute. Qed.

Lemma of_Z_0 : F64.of_Z 0 = F64.Fin false 0.
Proof. by vm_compute. Qed.

Lemma of_Z_1 : F64.of_Z 1 = F64.Fin false one.
Proof. by vm_compute. Qed.

Lemma of_Z_2 : F64.of_Z 2 = F64.Fin false (2 * one).
Proof. by vm_compute. Qed.

Lemma of_Z_minus_1 : F64.of_Z (-1) = F64.Fin true one.
Proof. by vm_compute. Qed.

Lemma np_pi_eq : F64.np_pi = F64.Fin false (2 * P).
Proof. by vm_compute. Qed.

Lemma two_pi_eq : two_pi = F64.Fin false (4 * P).
Proof. by vm_compute. Qed.

Lemma half_pi_eq : half_pi = F64.Fin false P.
Proof. by vm_compute. Qed.

Lemma mul_2_pi : F64.mul (F64.of_Z 2) F64.np_pi = F64.Fin false (4 * P).
Proof. by vm_compute. Qed.

Lemma div_pi_2 : F64.div F64.np_pi (F64.of_Z 2) = F64.Fin false P.
Proof. by vm_compute. Qed.

Lemma phi_0 : phi (F64.of_Z 0) = F64.of_Z 0.
Proof. by vm_compute. Qed.

Lemma phi_1 : phi (F64.of_Z 1) = two_pi.
Proof. by vm_compute. Qed.

Lemma cosine_of_1 : F64.sub (F64.mul (F64.of_Z 2) (F64.of_Z 1)) (F64.of_Z 1) = F64.of_Z 1.
Proof. by vm_compute. Qed.

Lemma cosine_of_0 : F64.sub (F64.mul (F64.of_Z 2) (F64.of_Z 0)) (F64.of_Z 1) = F64.of_Z (-1).
Proof. by vm_compute. Qed.

Lemma zero_minus_half_pi :
  F64.sub (F64.of_Z 0) (F64.div F64.np_pi (F64.of_Z 2)) = F64.opp half_pi.
Proof. by vm_compute. Qed.

Lemma pi_minus_half_pi : F64.sub F64.np_pi (F64.div F64.np_pi (F64.of_Z 2)) = half_pi.
Proof. by vm_compute. Qed.

Lemma bounds : 0 < P /\ 4 * P < F64.top /\ 0 < one /\ 2 * one < F64.top /\ one = 2 ^ 1074.
Proof. by vm_compute. Qed.

#[local] Opaque P one.

Lemma ordered_Fin (s : bool) (c : Z) : 0 <= c < F64.top -> F64.ordered (F64.Fin s c) = true.
Proof.
  intros Hc. unfold F64.ordered. fold F64.top. apply andb_true_intro.
  split; [apply Z.leb_le|apply Z.ltb_lt]; lia.
Qed.

Lemma representable_nonneg (c : Z) : F64.representable c = true -> 0 <= c.
Proof.
  unfold F64.representable. intros H.
  apply andb_prop in H as [H _]. apply andb_prop in H as [H _]. by apply Z.leb_le.
Qed.

(** A double in [[0, 1]] is finite, with [0 <= n <= 2^1074]. *)
Lemma unit_interval_inv (x : F64.t) :
  unit_interval x ->
  exists s n, x = F64.Fin s n /\ 0 <= n <= one /\ (s = true -> n = 0).
Proof.
  intros (Hv & H0 & H1). rewrite of_Z_0 in H0. rewrite of_Z_1 in H1.
  destruct x as [|[]|s n]; cbn [F64.leb] in H0, H1;
    [discriminate H0|discriminate H0|discriminate H1|].
  exists s, n. split; [reflexivity|].
  apply representable_nonneg in Hv.
  apply Z.leb_le in H0, H1.
  destruct s; unfold F64.sval in *; lia.
Qed.

Lemma rmag_zero (k : Z) : 0 <= k -> F64.rmag k 0 = 0.
Proof.
  intros Hk. apply Z.le_antisymm; [|apply F64.rmag_nonneg; lia].
  apply F64.rmag_le; [lia|lia|reflexivity|lia].
Qed.

(** The product of a double [c >= 0] and a double in [[0, 1]] lies in
    [[0, c]]. *)
Lemma mul_unit (c : Z) (x : F64.t) :
  F64.representable c = true -> c < F64.top -> unit_interval x ->
  F64.ordered (F64.mul (F64.Fin false c) x) = true /\
  0 <= F64.rank (F64.mul (F64.Fin false c) x) <= c /\
  exists s r, F64.mul (F64.Fin false c) x = F64.Fin s r /\ 0 <= r <= c /\ (s = true -> r = 0).
Proof.
  intros Hc Htop (s & n & -> & Hn & Hs)%unit_interval_inv.
  pose proof (representable_nonneg c Hc) as H0.
  destruct (F64.mul_rank false s c n H0 ltac:(lia)) as [Ho Hr].
  assert (Hone : 0 < one /\ one = 2 ^ 1074)
    by (split; [exact (proj1 (proj2 (proj2 bounds)))|exact (proj2 (proj2 (proj2 (proj2 bounds))))]).
  destruct Hone as [Hone Eone].
  assert (Hle : F64.rmag 1074 (c * n) <= c).
  { apply F64.rmag_le; [lia|nia|exact Hc|]. rewrite <- Eone. nia. }
  pose proof (F64.rmag_nonneg 1074 (c * n) ltac:(lia) ltac:(nia)) as Hge.
  assert (Hz : s = true -> F64.rmag 1074 (c * n) = 0).
  { intros Hs'. rewrite (Hs Hs'), Z.mul_0_r. apply rmag_zero. lia. }
  clear Eone.
  split; [exact Ho|]. split.
  - rewrite Hr. cbn [xorb]. rewrite Z.min_l by lia.
    destruct s; unfold F64.sval; [rewrite Hz by reflexivity; lia|lia].
  - exists s, (F64.rmag 1074 (c * n)). split; [|split; [lia|exact Hz]].
    unfold F64.mul, F64.round. cbn [xorb]. fold F64.top.
    destruct (F64.rmag 1074 (c * n) <? F64.top) eqn:E; [reflexivity|].
    apply Z.ltb_ge in E. lia.
Qed.

(** The longitude grows with [u]. *)
Lemma phi_mono (u u' : F64.t) :
  unit_interval u -> unit_interval u' -> F64.leb u u' = true ->
  F64.leb (phi u) (phi u') = true.
Proof.
  intros Hu Hu' Hle.
  pose proof (proj1 bounds) as HP.
  destruct (unit_interval_inv u Hu) as (s & n & -> & Hn & Hs).
  destruct (unit_interval_inv u' Hu') as (s' & n' & -> & Hn' & Hs').
  cbn [F64.leb] in Hle. apply Z.leb_le in Hle.
  assert (Hnn : n <= n').
  { unfold F64.sval in Hle.
    destruct s; [rewrite (Hs eq_refl); lia|].
    destruct s'; [rewrite (Hs' eq_refl) in *; lia|lia]. }
  unfold phi. rewrite mul_2_pi.
  destruct (F64.mul_rank false s (4 * P) n ltac:(lia) ltac:(lia)) as [Ho Hr].
  destruct (F64.mul_rank false s' (4 * P) n' ltac:(lia) ltac:(lia)) as [Ho' Hr'].
  rewrite F64.leb_rank by assumption. rewrite Hr, Hr'. apply Z.leb_le. cbn [xorb].
  pose proof (F64.rmag_mono 1074 (4 * P * n) (4 * P * n') ltac:(lia) ltac:(nia)) as Hm.
  pose proof (F64.rmag_nonneg 1074 (4 * P * n) ltac:(lia) ltac:(nia)) as H0.
  pose proof (F64.rmag_nonneg 1074 (4 * P * n') ltac:(lia) ltac:(nia)) as H0'.
  pose proof F64.top_pos as Htp.
  assert (Hz : s = true -> F64.rmag 1074 (4 * P * n) = 0).
  { intros Hs1. rewrite (Hs Hs1), Z.mul_0_r. apply rmag_zero. lia. }
  assert (Hz' : s' = true -> F64.rmag 1074 (4 * P * n') = 0).
  { intros Hs1. rewrite (Hs' Hs1), Z.mul_0_r. apply rmag_zero. lia. }
  destruct s, s'; unfold F64.sval;
    rewrite ?(Hz eq_refl), ?(Hz' eq_refl) in *; lia.
Qed.

(** The argument of the arc cosine lies in [[-1, 1]]. *)
Lemma cosine_in_range (v : F64.t) :
  unit_interval v ->
  F64.leb (F64.of_Z (-1)) (F64.sub (F64.mul (F64.of_Z 2) v) (F64.of_Z 1)) = true /\
  F64.leb (F64.sub (F64.mul (F64.of_Z 2) v) (F64.of_Z 1)) (F64.of_Z 1) = true.
Proof.
  intros Hv.
  pose proof (proj1 (proj2 (proj2 (proj2 P_representable)))) as R1.
  pose proof (proj2 (proj2 (proj2 (proj2 P_representable)))) as R2.
  pose proof (proj1 (proj2 (proj2 bounds))) as Hpos.
  pose proof (proj1 (proj2 (proj2 (proj2 bounds)))) as Htop.
  pose proof F64.top_pos as Htp.
  rewrite of_Z_1, of_Z_2, of_Z_minus_1.
  destruct (mul_unit (2 * one) v R2 Htop Hv) as (_ & _ & s & r & -> & Hr2 & Hs).
  destruct (F64.sub_rank s false r one) as [Ho Hr].
  assert (Hd : - one <= F64.sval s r - F64.sval false one <= one).
  { unfold F64.sval. destruct s; [rewrite (Hs eq_refl)|]; lia. }
  pose proof (F64.srnd_le _ _ R1 (proj2 Hd)) as Hup.
  pose proof (F64.srnd_ge _ _ R1 (proj1 Hd)) as Hlo.
  rewrite !F64.leb_rank by (exact Ho || apply ordered_Fin; lia). rewrite Hr.
  split; apply Z.leb_le; unfold F64.rank, F64.sval in *; lia.
Qed.

(** The arc cosine of the C library: it maps [[-1, 1]] into [[0, np.pi]],
    [acos(1)] is [+0], and [acos(-1)] is the double nearest to pi. *)
Hypothesis arccos_range :
  forall x, F64.leb (F64.of_Z (-1)) x = true -> F64.leb x (F64.of_Z 1) = true ->
            F64.leb (F64.of_Z 0) (arccos x) = true /\ F64.leb (arccos x) F64.np_pi = true.
Hypothesis arccos_one : arccos (F64.of_Z 1) = F64.of_Z 0.
Hypothesis arccos_minus_one : arccos (F64.of_Z (-1)) = F64.np_pi.

(** C9: for doubles [u], [v] in [[0, 1]], the longitude [phi] lies in
    [[0, 2*np.pi]] and the latitude [theta] in [[-np.pi/2, np.pi/2]]; the
    four ends are reached, at [u = 0], [u = 1], [v = 1] and [v = 0], and
    the longitude grows with [u]. *)
Theorem sky_position_in_range (u v : F64.t) :
  unit_interval u -> unit_interval v ->
  (F64.leb (F64.of_Z 0) (fst (sky_position u v)) = true /\
   F64.leb (fst (sky_position u v)) two_pi = true) /\
  (F64.leb (F64.opp half_pi) (snd (sky_position u v)) = true /\
   F64.leb (snd (sky_position u v)) half_pi = true) /\
  sky_position (F64.of_Z 0) (F64.of_Z 1) = (F64.of_Z 0, F64.opp half_pi) /\
  sky_position (F64.of_Z 1) (F64.of_Z 0) = (two_pi, half_pi) /\
  (forall u', unit_interval u' -> F64.leb u u' = true ->
     F64.leb (fst (sky_position u v)) (fst (sky_position u' v)) = true).
Proof.
  intros Hu Hv.
  pose proof (proj1 P_representable) as RP.
  pose proof (proj1 (proj2 (proj2 P_representable))) as R4P.
  pose proof (proj1 bounds) as HP.
  pose proof (proj1 (proj2 bounds)) as Htop.
  pose proof F64.top_pos as Htp.
  split; [|split; [|split; [|split]]]; [| | | |intros u' Hu' Hle; by apply phi_mono].
  - unfold sky_position, phi. cbn [fst]. rewrite mul_2_pi, two_pi_eq, of_Z_0.
    destruct (mul_unit (4 * P) u R4P Htop Hu) as (Ho & Hrank & _).
    rewrite !F64.leb_rank by (exact Ho || apply ordered_Fin; lia).
    split; apply Z.leb_le; cbn [F64.rank F64.sval]; lia.
  - unfold sky_position, theta. cbn [snd]. rewrite div_pi_2.
    destruct (cosine_in_range v Hv) as [Hlo Hhi].
    destruct (arccos_range _ Hlo Hhi) as [Ha0 Hapi].
    rewrite of_Z_0 in Ha0. rewrite np_pi_eq in Hapi.
    generalize dependent (arccos (F64.sub (F64.mul (F64.of_Z 2) v) (F64.of_Z 1))).
    intros a Ha0 Hapi.
    destruct a as [|[]|sa na]; cbn [F64.leb] in Ha0, Hapi;
      [discriminate Ha0|discriminate Ha0|discriminate Hapi|].
    apply Z.leb_le in Ha0, Hapi. rewrite half_pi_eq.
    destruct (F64.sub_rank sa false na P) as [Ho Hr].
    assert (Hd : - P <= F64.sval sa na - F64.sval false P <= P)
      by (unfold F64.sval in *; lia).
    pose proof (F64.srnd_le _ _ RP (proj2 Hd)) as Hup.
    pose proof (F64.srnd_ge _ _ RP (proj1 Hd)) as Hdown.
    unfold F64.opp. cbn [negb].
    rewrite !F64.leb_rank by (exact Ho || apply ordered_Fin; lia). rewrite Hr.
    split; apply Z.leb_le; unfold F64.rank, F64.sval in *; lia.
  - unfold sky_position, theta.
    rewrite phi_0, cosine_of_1, arccos_one, zero_minus_half_pi. reflexivity.
  - unfold sky_position, theta.
    rewrite phi_1, cosine_of_0, arccos_minus_one, pi_minus_half_pi. reflexivity.
Qed.

End Cell.

(** A stand-in for the arc cosine, exact at the two ends of [[-1, 1]], for
    running the cell. *)
Definition toy_arccos (x : F64.t) : F64.t :=
  if F64.leb (F64.of_Z 1) x then F64.of_Z 0
  else if F64.leb x (F64.of_Z (-1)) then F64.np_pi
  else F64.div F64.np_pi (F64.of_Z 2).

Example sky_position_run :
  sky_position toy_arccos (F64.div (F64.of_Z 1) (F64.of_Z 2)) (F64.div (F64.of_Z 1) (F64.of_Z 2))
  = (F64.np_pi, F64.of_Z 0).
Proof. by vm_compute. Qed.

Lemma sky_position_in_range_witness :
  (unit_interval (F64.div (F64.of_Z 1) (F64.of_Z 2)) /\
   unit_interval (F64.div (F64.of_Z 1) (F64.of_Z 4))) /\
  (F64.leb (F64.of_Z 0)
     (fst (sky_position toy_arccos (F64.div (F64.of_Z 1) (F64.of_Z 2))
             (F64.div (F64.of_Z 1) (F64.of_Z 4)))) = true /\
   F64.leb (fst (sky_position toy_arccos (F64.div (F64.of_Z 1) (F64.of_Z 2))
                   (F64.div (F64.of_Z 1) (F64.of_Z 4)))) two_pi = true) /\
  (F64.leb (F64.opp half_pi)
     (snd (sky_position toy_arccos (F64.div (F64.of_Z 1) (F64.of_Z 2))
             (F64.div (F64.of_Z 1) (F64.of_Z 4)))) = true /\
   F64.leb (snd (sky_position toy_arccos (F64.div (F64.of_Z 1) (F64.of_Z 2))
                   (F64.div (F64.of_Z 1) (F64.of_Z 4)))) half_pi = true) /\
  sky_position toy_arccos (F64.of_Z 0) (F64.of_Z 1) = (F64.of_Z 0, F64.opp half_pi) /\
  sky_position toy_arccos (F64.of_Z 1) (F64.of_Z 0) = (two_pi, half_pi) /\
  (forall u', unit_interval u' -> F64.leb (F64.div (F64.of_Z 1) (F64.of_Z 2)) u' = true ->
     F64.leb (fst (sky_position toy_arccos (F64.div (F64.of_Z 1) (F64.of_Z 2))
                     (F64.div (F64.of_Z 1) (F64.of_Z 4))))
             (fst (sky_position toy_arccos u' (F64.div (F64.of_Z 1) (F64.of_Z 4)))) = true).
Proof.
  assert (H1 : unit_interval (F64.div (F64.of_Z 1) (F64.of_Z 2))) by (by vm_compute).
  assert (H2 : unit_interval (F64.div (F64.of_Z 1) (F64.of_Z 4))) by (by vm_compute).
  assert (Hrange : forall x,
             F64.leb (F64.of_Z (-1)) x = true -> F64.leb x (F64.of_Z 1) = true ->
             F64.leb (F64.of_Z 0) (toy_arccos x) = true /\
             F64.leb (toy_arccos x) F64.np_pi = true).
  { intros x _ _. unfold toy_arccos.
    destruct (F64.leb (F64.of_Z 1) x); [by vm_compute|].
    destruct (F64.leb x (F64.of_Z (-1))); by vm_compute. }
  assert (Hone : toy_arccos (F64.of_Z 1) = F64.of_Z 0) by (by vm_compute).
  assert (Hminus : toy_arccos (F64.of_Z (-1)) = F64.np_pi) by (by vm_compute).
  split; [exact (conj H1 H2)|].
  exact (sky_position_in_range toy_arccos Hrange Hone Hminus _ _ H1 H2).
Defined.

End Sky.

(** ** The notebooks as sequential programs: chain files are written
    before they are read

    Every statement of the three analysis notebooks is kept, cell by cell,
    as the names it reads (in the order Python evaluates them), what it does
    to the chain files, and the names it binds.  A read of a name that is
    not bound raises [NameError], and an exception ends the run.  The names
    of Python's builtins ([int], [len], [list], [map], [str], [zip],
    [sorted], [open], [print]) are always bound and are left out of the
    lists; so are the IPython magics at the top of a cell, which bind no
    name, and the cells that hold no statement.  A name bound by a loop or
    by a list comprehension (Python 2) is read by no statement outside of
    it.  [sampler.sample] writes [outDir + '/chain_1.txt']; two paths name
    one file when they agree up to repeated slashes. *)

Module Notebook.

(** A path expression. *)
Inductive expr :=
| Lit (s : string)
| Var (x : string)
| Add (e1 e2 : expr)
| PsrName (psr : string).   (* a text built from [str(psr.name)] *)

(** What a statement does besides reading and binding names. *)
Inductive action :=
| Nothing
| SetStr (x : string) (e : expr)          (* [x = e], a path *)
| NewSampler (x : string) (outDir : expr) (* [x = ptmcmc(..., outDir=e, ...)] *)
| SampleWith (x : string)                 (* [x.sample(...)] *)
| Load (path : expr)                      (* [np.loadtxt(path, ...)] *)
| Save (path : expr).                     (* [np.savetxt(path, ...)] *)

Inductive stmt :=
| Stmt (reads : list string) (act : action) (binds : list string)
| ImportStar.   (* [from matplotlib.pyplot import *] *)

(** [import m as x], [from m import a, b]. *)
Definition import (names : list string) : stmt := Stmt [] Nothing names.

(** A statement that only reads and binds names; [def f] binds [f] and
    reads nothing, the names of its body are read at each call. *)
Definition call (reads binds : list string) : stmt := Stmt reads Nothing binds.

Inductive value :=
| Str (s : string)
| Sampler (outDir : string)
| Obj.

Inductive exn :=
| NameError (x : string)
| TypeError
| AttributeError.

(** What a run leaves behind: the sampler wrote its chain file under
    [outDir], a text file was saved, a text file was read. *)
Inductive event :=
| SamplerWrote (outDir : string)
| Saved (path : string)
| Read (path : string).

(** The names the notebook bound, the latest first; whether the [import *]
    has run; the events so far. *)
Record state := {
  env : list (string * value);
  star : bool;
  trace : list event
}.

Definition init : state := {| env := []; star := false; trace := [] |}.

Fixpoint lookup_var (x : string) (env : list (string * value)) : option value :=
  match env with
  | [] => None
  | (y, v) :: env' => if String.eqb y x then Some v else lookup_var x env'
  end.

(** A path with every run of slashes reduced to one slash. *)
Fixpoint collapse (after_slash : bool) (s : string) : string :=
  match s with
  | EmptyString => EmptyString
  | String c s' =>
      if Ascii.eqb c "/"
      then if after_slash then collapse true s' else String c (collapse true s')
      else String c (collapse false s')
  end.

Definition normpath (s : string) : string := collapse false s.

Section Run.

(** [str(psr.name)], read from the pulsar's [.par] file. *)
Variable psr_name : string.

(** The names [matplotlib.pyplot] exports. *)
Variable exported : string -> bool.

(** The names the kernel has bound when the first cell runs, with their
    values: none in a fresh kernel. *)
Variable predefined : string -> option value.

(** The value of a name: the notebook's own binding, or else the binding
    the kernel had, or else an object the [import *] brought. *)
Definition lookup (st : state) (x : string) : option value :=
  match lookup_var x (env st) with
  | Some v => Some v
  | None => if star st && exported x then Some Obj else predefined x
  end.

Fixpoint eval (st : state) (e : expr) : exn + string :=
  match e with
  | Lit s => inr s
  | Var x =>
      match lookup st x with
      | Some (Str s) => inr s
      | Some _ => inl TypeError
      | None => inl (NameError x)
      end
  | Add e1 e2 =>
      match eval st e1 with
      | inl e => inl e
      | inr s1 =>
          match eval st e2 with
          | inl e => inl e
          | inr s2 => inr (s1 +:+ s2)
          end
      end
  | PsrName x =>
      match lookup st x with
      | Some _ => inr psr_name
      | None => inl (NameError x)
      end
  end.

(** The first of the names that is not bound. *)
Fixpoint first_unbound (st : state) (names : list string) : option string :=
  match names with
  | [] => None
  | x :: names' =>
      match lookup st x with
      | Some _ => first_unbound st names'
      | None => Some x
      end
  end.

Definition bind (x : string) (v : value) (st : state) : state :=
  {| env := (x, v) :: env st; star := star st; trace := trace st |}.

Definition emit (ev : event) (st : state) : state :=
  {| env := env st; star := star st; trace := trace st ++ [ev] |}.

Definition act_on (st : state) (a : action) : exn + state :=
  match a with
  | Nothing => inr st
  | SetStr x e =>
      match eval st e with
      | inr s => inr (bind x (Str s) st)
      | inl e => inl e
      end
  | NewSampler x e =>
      match eval st e with
      | inr d => inr (bind x (Sampler d) st)
      | inl e => inl e
      end
  | SampleWith x =>
      match lookup st x with
      | Some (Sampler d) => inr (emit (SamplerWrote d) st)
      | Some _ => inl AttributeError
      | None => inl (NameError x)
      end
  | Load e =>
      match eval st e with
      | inr p => inr (emit (Read p) st)
      | inl e => inl e
      end
  | Save e =>
      match eval st e with
      | inr p => inr (emit (Saved p) st)
      | inl e => inl e
      end
  end.

(** The [import *] rebinds every name the module exports: a name the
    notebook had bound to a path is an object afterwards. *)
Definition import_star (st : state) : state :=
  {| env := List.map (fun '(x, v) => (x, if exported x then Obj else v)) (env st);
     star := true; trace := trace st |}.

Definition exec (st : state) (c : stmt) : exn + state :=
  match c with
  | ImportStar => inr (import_star st)
  | Stmt reads act binds =>
      match first_unbound st reads with
      | Some x => inl (NameError x)
      | None =>
          match act_on st act with
          | inl e => inl e
          | inr st' => inr (fold_left (fun st x => bind x Obj st) binds st')
          end
      end
  end.

(** A cell runs until a statement raises. *)
Fixpoint run_cell (st : state) (cell : list stmt) : state * option exn :=
  match cell with
  | [] => (st, None)
  | c :: cell' =>
      match exec st c with
      | inr st' => run_cell st' cell'
      | inl e => (st, Some e)
      end
  end.

(** A notebook is run from the top, cell after cell, until a cell raises:
    the result is the state then and the exception, if any. *)
Fixpoint run (st : state) (cells : list (list stmt)) : state * option exn :=
  match cells with
  | [] => (st, None)
  | cell :: cells' =>
      match run_cell st cell with
      | (st', None) => run st' cells'
      | (st', Some e) => (st', Some e)
      end
  end.

End Run.

(** The imports shared by [single_pulsar_noise.ipynb] and
    [stochastic_gwb_analysis.ipynb]. *)
Definition enterprise_imports : list stmt :=
  [ import ["division"];                       (* from __future__ import division *)
    import ["np"];                             (* import numpy as np *)
    import ["os"; "glob"; "json"];             (* import os, glob, json *)
    import ["plt"];                            (* import matplotlib.pyplot as plt *)
    import ["sl"];                             (* import scipy.linalg as sl *)
    import ["enterprise"];                     (* import enterprise *)
    import ["Pulsar"];                         (* from enterprise.pulsar import Pulsar *)
    import ["parameter"];                      (* import enterprise.signals.parameter as parameter *)
    import ["utils"];                          (* from enterprise.signals import utils *)
    import ["signal_base"];                    (* from enterprise.signals import signal_base *)
    import ["selections"];                     (* from enterprise.signals import selections *)
    import ["Selection"];                      (* from enterprise.signals.selections import Selection *)
    import ["white_signals"];                  (* from enterprise.signals import white_signals *)
    import ["gp_signals"];                     (* from enterprise.signals import gp_signals *)
    import ["deterministic_signals"];          (* from enterprise.signals import deterministic_signals *)
    import ["const"];                          (* import enterprise.constants as const *)
    import ["corner"];                         (* import corner *)
    import ["ptmcmc"] ].                       (* from PTMCMCSampler.PTMCMCSampler import PTSampler as ptmcmc *)

Definition single_pulsar_noise : list (list stmt) :=
  [ enterprise_imports;
    [ Stmt [] (SetStr "par" (Lit "./J0613-0200_NANOGrav_11yv0.gls.par")) [];
      Stmt [] (SetStr "tim" (Lit "./J0613-0200_NANOGrav_11yv0.tim")) [];
      call ["Pulsar"; "par"; "tim"] ["psr"] ];            (* psr = Pulsar(par, tim, ...) *)
    [ call ["psr"] ["tmin"];                              (* tmin = psr.toas.min() *)
      call ["psr"] ["tmax"];                              (* tmax = psr.toas.max() *)
      call ["np"; "tmax"; "np"; "tmin"] ["Tspan"] ];      (* Tspan = np.max(tmax) - np.min(tmin) *)
    [ call ["selections"; "selections"] ["selection"];    (* selection = selections.Selection(selections.by_backend) *)
      call ["selections"; "selections"] ["selection2"] ];
    [ call ["parameter"] ["efac"];                        (* efac = parameter.Uniform(0.01, 10.0) *)
      call ["parameter"] ["equad"];
      call ["parameter"] ["ecorr"];
      call ["parameter"] ["log10_A"];
      call ["parameter"] ["gamma"];
      call ["parameter"] ["log10_A_dm"];
      call ["parameter"] ["gamma_dm"] ];
    [ call ["white_signals"; "efac"; "selection"] ["ef"];        (* ef = white_signals.MeasurementNoise(efac=efac, selection=selection) *)
      call ["white_signals"; "equad"; "selection"] ["eq"];
      call ["white_signals"; "ecorr"; "selection2"] ["ec"];
      call ["utils"; "log10_A"; "gamma"] ["pl"];                 (* pl = utils.powerlaw(log10_A=log10_A, gamma=gamma) *)
      call ["gp_signals"; "pl"; "Tspan"] ["rn"];                 (* rn = gp_signals.FourierBasisGP(spectrum=pl, components=30, Tspan=Tspan) *)
      call ["utils"; "Tspan"] ["dm_basis"];
      call ["utils"; "log10_A_dm"; "gamma_dm"] ["dm_pl"];
      call ["gp_signals"; "dm_pl"; "dm_basis"] ["dm_gp"];
      call ["gp_signals"] ["tm"] ];
    [ call ["ef"; "eq"; "ec"; "rn"; "dm_gp"; "tm"] ["models"];   (* models = ef + eq + ec + rn + dm_gp + tm *)
      call ["signal_base"; "models"; "psr"] ["pta"] ];           (* pta = signal_base.PTA(models(psr)) *)
    [ call ["pta"] [] ];                                         (* pta.params *)
    [ call ["np"; "pta"] ["x0"];                                 (* x0 = np.hstack(p.sample() for p in pta.params) *)
      call ["x0"] ["ndim"] ];                                    (* ndim = len(x0) *)
    [ call ["np"; "np"; "ndim"] ["cov"];                         (* cov = np.diag(np.ones(ndim) * 0.01**2) *)
      Stmt ["psr"]                                               (* outdir = './chains/noise_run_{}/'.format(str(psr.name)) *)
        (SetStr "outdir" (Add (Add (Lit "./chains/noise_run_") (PsrName "psr")) (Lit "/"))) [];
      Stmt ["ptmcmc"; "ndim"; "pta"; "pta"; "cov"; "outdir"]     (* sampler = ptmcmc(ndim, ..., cov, outDir=outdir, resume=False) *)
        (NewSampler "sampler" (Var "outdir")) [] ];
    [ call [] ["N"];                                             (* N = int(1e6) *)
      Stmt ["sampler"; "x0"; "N"] (SampleWith "sampler") [] ];   (* sampler.sample(x0, N, ...) *)
    [ Stmt ["np"; "outdir"] (Load (Add (Var "outdir") (Lit "chain_1.txt"))) ["chain"];
                                                                 (* chain = np.loadtxt(outdir + 'chain_1.txt') *)
      call ["chain"] ["burn"] ];                                 (* burn = int(0.25 * chain.shape[0]) *)
    [ call ["pta"] ["ind"] ];                                    (* ind = list(pta.param_names).index(...) *)
    [ call ["plt"; "chain"; "burn"; "ind"] [];                   (* plt.plot(chain[burn:, ind]) *)
      call ["plt"] [] ];                                         (* plt.show() *)
    [ call ["plt"; "chain"; "burn"; "ind"] [];                   (* plt.hist(chain[burn:,ind], ...) *)
      call ["plt"] []; call ["plt"] []; call ["plt"] [] ];       (* plt.xlabel, plt.ylabel, plt.show *)
    [ call ["pta"] ["ind_redA"];
      call ["pta"] ["ind_redgam"];
      call ["corner"; "chain"; "burn"; "ind_redA"; "ind_redgam"] ["fig"] ];
    [ import ["enterprise_extensions"];                          (* import enterprise_extensions *)
      import ["models"; "model_utils"] ];                        (* from enterprise_extensions import models, model_utils *)
    [ call ["models"; "psr"; "params"] ["pta"] ];                (* pta = models.model_singlepsr_noise(psr, ..., noisedict=params, ...) *)
    [ Stmt ["model_utils"; "pta"; "outdir"]                      (* sampler = model_utils.setup_sampler(pta, outdir=outdir, resume=False) *)
        (NewSampler "sampler" (Var "outdir")) [] ];
    [ call [] ["N"];
      call ["np"; "pta"] ["x0"];                                 (* x0 = x0 = np.hstack(...) *)
      Stmt ["sampler"; "x0"; "N"] (SampleWith "sampler") [] ];
    [ Stmt ["np"; "outdir"] (Load (Add (Var "outdir") (Lit "/chain_1.txt"))) ["chain"];
      call ["chain"] ["burn"];
      Stmt ["np"; "outdir"; "np"] (Load (Add (Var "outdir") (Lit "/pars.txt"))) ["pars"];
                                                                 (* pars = np.loadtxt(outdir + '/pars.txt', dtype=np.unicode_) *)
      call ["model_utils"; "chain"; "pars"] ["pp"] ];            (* pp = model_utils.PostProcessing(chain, pars) *)
    [ call ["pp"] [] ] ].                                        (* pp.plot_trace() *)

Definition stochastic_gwb_analysis : list (list stmt) :=
  [ enterprise_imports;
    [ call ["np"] ["psrlist"];                                   (* psrlist = np.load('./psr_names.npy') *)
      call ["psrlist"] [] ];
    [ Stmt [] (SetStr "datadir" (Lit "./dataset1/")) [] ];
    [ call ["glob"; "datadir"] ["parfiles"];                     (* parfiles = sorted(glob.glob(datadir + '/*.par')) *)
      call ["glob"; "datadir"] ["timfiles"];
      call ["parfiles"; "psrlist"] ["x"; "parfiles"];            (* parfiles = [x.encode('ascii') for x in parfiles if ... in psrlist] *)
      call ["timfiles"; "psrlist"] ["x"; "timfiles"] ];
    [ call ["parfiles"] [] ];                                    (* len(parfiles) *)
    [ call [] ["psrs"];                                          (* psrs = [] *)
      call ["parfiles"; "timfiles"; "Pulsar"; "psrs"] ["p"; "t"; "psr"] ];
                                                                 (* for p, t in zip(parfiles, timfiles): ... *)
    [ call ["glob"] ["noisefiles"] ];                            (* noisefiles = sorted(glob.glob('./dataset1/noise/*.json')) *)
    [ call [] ["params"];                                        (* params = {} *)
      call ["noisefiles"; "params"; "json"] ["nf"; "fin"] ];     (* for nf in noisefiles: ... params.update(json.load(fin)) *)
    [ call ["psrs"] ["p"; "tmin"];                               (* tmin = [p.toas.min() for p in psrs] *)
      call ["psrs"] ["p"; "tmax"];
      call ["np"; "tmax"; "np"; "tmin"] ["Tspan"] ];
    [ call ["selections"; "selections"] ["selection"];
      call ["selections"; "selections"] ["selection2"] ];
    [ call ["parameter"] ["efac"];
      call ["parameter"] ["equad"];
      call ["parameter"] ["ecorr"];
      call ["parameter"] ["log10_A"];
      call ["parameter"] ["gamma"];
      call ["parameter"] ["log10_A_dm"];
      call ["parameter"] ["gamma_dm"];
      call ["parameter"] ["log10_A_gw"];
      call ["parameter"] ["gamma_gw"] ];
    [ call ["white_signals"; "efac"; "selection"] ["ef"];
      call ["white_signals"; "equad"; "selection"] ["eq"];
      call ["white_signals"; "ecorr"; "selection2"] ["ec"];
      call ["utils"; "log10_A"; "gamma"] ["pl"];
      call ["gp_signals"; "pl"; "Tspan"] ["rn"];
      call ["utils"; "Tspan"] ["dm_basis"];
      call ["utils"; "log10_A_dm"; "gamma_dm"] ["dm_pl"];
      call ["gp_signals"; "dm_pl"; "dm_basis"] ["dm_gp"];
      call ["utils"; "log10_A_gw"; "gamma_gw"] ["cpl"];          (* cpl = utils.powerlaw(log10_A=log10_A_gw, gamma=gamma_gw) *)
      call ["gp_signals"; "cpl"; "Tspan"] ["gw"];
      call ["gp_signals"] ["tm"] ];
    [ call ["eq"; "rn"; "dm_gp"; "tm"; "gw"] ["s"] ];            (* s = eq + rn + dm_gp + tm + gw *)
    [ call [] ["models"];                                        (* models = [] *)
      call ["psrs"; "models"; "s"] ["p"];                        (* for p in psrs: models.append(s(p)) *)
      call ["signal_base"; "models"] ["pta"] ];                  (* pta = signal_base.PTA(models) *)
    [ call ["pta"] [] ];
    [ call ["pta"; "params"] [] ];                               (* pta.set_default_params(params) *)
    [ call ["np"; "pta"] ["x0"];
      call ["x0"] ["ndim"] ];
    [ call ["np"; "np"; "ndim"] ["cov"];
      Stmt ["ptmcmc"; "ndim"; "pta"; "pta"; "cov"]               (* sampler = ptmcmc(..., outDir='./chains/dataset1_crn/', resume=False) *)
        (NewSampler "sampler" (Lit "./chains/dataset1_crn/")) [] ];
    [ call [] ["N"];
      call ["np"; "pta"] ["x0"];
      Stmt ["sampler"; "x0"; "N"] (SampleWith "sampler") [] ];
    [ Stmt ["np"] (Load (Lit "./chains/dataset1_crn/chain_1.txt")) ["chain"];
      call ["chain"] ["burn"] ];
    [ call ["chain"] [] ];                                       (* chain.shape *)
    [ call ["plt"; "chain"] []; call ["plt"] [] ];               (* plt.plot(chain[:,-5]); plt.show() *)
    [ call ["plt"; "chain"; "burn"] [] ];                        (* plt.hist(chain[burn:,-5], ...) *)
    [ call ["np"; "chain"; "burn"] ["upper"];                    (* upper = 10**np.percentile(chain[burn:, -5], q=95) *)
      call ["upper"] [] ] ].                                     (* print(upper) *)

Definition cw_exercises : list (list stmt) :=
  [ [ import ["division"; "print_function"];                     (* from __future__ import division, print_function *)
      import ["np"];                                             (* import numpy as np *)
      ImportStar;                                                (* from matplotlib.pyplot import * *)
      import ["plt"];                                            (* from matplotlib import pyplot as plt *)
      import ["T"];                                              (* import libstempo as T *)
      import ["LT"];                                             (* import libstempo.toasim as LT *)
      import ["LP"] ];                                           (* import libstempo.plot as LP *)
    [ import ["SkyCoord"];                                       (* from astropy.coordinates import SkyCoord *)
      call [] ["make_fake_pulsar"] ];                            (* def make_fake_pulsar(DIR=""): ... *)
    [ call ["make_fake_pulsar"; "np"; "SkyCoord"] ["par1"];      (* par1 = make_fake_pulsar() *)
      call ["make_fake_pulsar"; "np"; "SkyCoord"] ["par2"];
      call ["make_fake_pulsar"; "np"; "SkyCoord"] ["par3"];
      call ["par1"; "par2"; "par3"] [] ];                        (* print(par1, par2, par3) *)
    [ call ["LT"; "par1"; "t"] ["psr1"] ];                       (* psr1 = LT.fakepulsar(par1,obstimes=t,toaerr=3,iters=7) *)
    [ call [] ["observe"] ];                                     (* def observe(par, ...): ... *)
    [ call ["observe"; "par1"; "np"; "LT"; "observe"; "par2"; "observe"; "par3"]
        ["tobj1"; "tobj2"; "tobj3"];                             (* tobj1, tobj2, tobj3 = observe(par1), observe(par2),observe(par3) *)
      call ["LP"; "tobj3"] [] ];                                 (* LP.plotres(tobj3) *)
    [ call [] ["spittime"];                                      (* def spittime(rms): ... *)
      call ["spittime"] [] ];                                    (* print(spittime(8.82)) *)
    [ import ["Pulsar"];
      import ["parameter"];
      import ["utils"];
      import ["signal_base"];
      import ["selections"];
      import ["Selection"];
      import ["white_signals"];
      import ["gp_signals"];
      import ["corner"];
      import ["fns"];                                            (* import enterprise_cw_funcs as fns *)
      import ["ptmcmc"];
      import ["subprocess"] ];
    [ call ["Pulsar"] ["psr"] ];                                 (* psr = Pulsar("J1910+4909.par", "J1910+4909.tim", ...) *)
    [ call [] ["psrs"] ];                                        (* psrs = [] *)
    [ call ["parameter"] ["efac"];
      call ["parameter"] ["equad"];
      call ["white_signals"; "efac"] ["ef"];
      call ["white_signals"; "equad"] ["eq"];
      call ["gp_signals"] ["tm"] ];
    [ call ["parameter"] ["cos_gwtheta"];
      call ["parameter"; "np"] ["gwphi"];                        (* gwphi = parameter.Uniform(0, 2*np.pi)('gwphi') *)
      call ["parameter"] ["log10_mc"];
      call ["parameter"] ["log10_fgw"];
      call ["parameter"; "np"] ["phase0"];
      call ["parameter"; "np"] ["psi"];
      call ["parameter"] ["cos_inc"];
      call ["parameter"] ["log10_h"];
      call ["fns"; "cos_gwtheta"; "gwphi"; "log10_mc"; "log10_h"; "log10_fgw"; "phase0";
            "psi"; "cos_inc"] ["cw_wf"];                         (* cw_wf = fns.cw_delay(cos_gwtheta=cos_gwtheta, ...) *)
      call ["fns"; "cw_wf"] ["cw"] ];
    [ call ["ef"; "eq"; "tm"; "cw"] ["s"] ];                     (* s = ef + eq + tm + cw *)
    [ call ["psrs"] ["model"];                                   (* model = [s(psr) for psr in psrs], with psrs = [] *)
      call ["signal_base"; "model"] ["pta"];
      call ["np"; "pta"] ["x0"];
      call ["x0"] ["ndim"];
      call ["np"; "np"; "ndim"] ["cov"];
      call ["fns"; "pta"] ["groups"];                            (* groups = fns.get_parameter_groups(pta) *)
      Stmt [] (SetStr "chaindir" (Lit "chains/")) [];
      Stmt ["ptmcmc"; "ndim"; "pta"; "pta"; "cov"; "groups"; "chaindir"]
        (NewSampler "sampler" (Var "chaindir")) [];              (* sampler = ptmcmc(..., groups=groups, outDir=chaindir, resume=False) *)
      Stmt ["chaindir"] (SetStr "filename" (Add (Var "chaindir") (Lit "/params.txt"))) [];
      Stmt ["np"; "filename"; "pta"] (Save (Var "filename")) [] ];
                                                                 (* np.savetxt(filename,list(map(str, pta.param_names)), fmt='%s') *)
    [ call ["fns"; "pta"] ["jp"];                                (* jp = fns.JumpProposal(pta) *)
      call ["sampler"; "jp"] [];
      call ["sampler"; "jp"] [] ];
    [ call [] ["N"];
      Stmt ["sampler"; "x0"; "N"] (SampleWith "sampler") [] ];
    [ Stmt ["np"; "chaindir"] (Load (Add (Var "chaindir") (Lit "/chain_1.txt"))) ["chain"];
      Stmt ["np"; "chaindir"] (Load (Add (Var "chaindir") (Lit "/params.txt"))) ["params"];
      call ["chain"] ["burn"];
      call ["params"] [] ];                                      (* print(params) *)
    [ call [] ["plot_param"] ] ].                                (* def plot_param(name): ... *)

(** The analysis notebooks.  (The two tutorials of the workshop run no
    sampler and load no text file.) *)
Definition notebooks : list (list (list stmt)) :=
  [ single_pulsar_noise; stochastic_gwb_analysis; cw_exercises ].

(** The file a sampler with output directory [outDir] writes. *)
Definition chain_file_of (outDir : string) : string := outDir +:+ "/chain_1.txt".

(** A path whose last component is [chain_1.txt]. *)
Definition is_chain_file (path : string) : bool :=
  String.eqb (List.last (Py.split "/"%char path) "") "chain_1.txt".

(** Every read of a chain file comes strictly after a sampler run that
    wrote that file. *)
Definition reads_follow_writes (tr : list event) : Prop :=
  forall i path,
    tr !! i = Some (Read path) -> is_chain_file path = true ->
    exists j outDir,
      (j < i)%nat /\ tr !! j = Some (SamplerWrote outDir) /\
      normpath (chain_file_of outDir) = normpath path.

Definition no_export (x : string) : bool := false.

(** A fresh kernel. *)
Definition fresh (x : string) : option value := None.

(** A kernel in which every name is bound already. *)
Definition all_bound (x : string) : option value := Some Obj.

(** [single_pulsar_noise.ipynb], in a fresh kernel, stops at the cell that
    reads [params], which no cell has bound. *)
Example run_single_pulsar_noise :
  let r := run "J0613-0200" no_export fresh init single_pulsar_noise in
  trace r.1 = [SamplerWrote "./chains/noise_run_J0613-0200/";
               Read "./chains/noise_run_J0613-0200/chain_1.txt"] /\
  r.2 = Some (NameError "params").
Proof. by vm_compute. Qed.

(** With [params] bound beforehand it goes on to its second sampler run. *)
Example run_single_pulsar_noise_with_params :
  let r := run "J0613-0200" no_export
             (fun x => if String.eqb x "params" then Some Obj else None)
             init single_pulsar_noise in
  trace r.1 = [SamplerWrote "./chains/noise_run_J0613-0200/";
               Read "./chains/noise_run_J0613-0200/chain_1.txt";
               SamplerWrote "./chains/noise_run_J0613-0200/";
               Read "./chains/noise_run_J0613-0200//chain_1.txt";
               Read "./chains/noise_run_J0613-0200//pars.txt"] /\
  r.2 = None.
Proof. by vm_compute. Qed.

Example run_stochastic :
  let r := run "" no_export fresh init stochastic_gwb_analysis in
  trace r.1 = [SamplerWrote "./chains/dataset1_crn/";
               Read "./chains/dataset1_crn/chain_1.txt"] /\
  r.2 = None.
Proof. by vm_compute. Qed.

(** [cw_exercises.ipynb], in a fresh kernel, stops at the cell that reads
    [t], before any sampler is made. *)
Example run_cw_exercises :
  let r := run "" no_export fresh init cw_exercises in
  trace r.1 = [] /\ r.2 = Some (NameError "t").
Proof. by vm_compute. Qed.

Example run_cw_exercises_with_t :
  let r := run "" no_export (fun x => if String.eqb x "t" then Some Obj else None)
             init cw_exercises in
  trace r.1 = [Saved "chains//params.txt"; SamplerWrote "chains/";
               Read "chains//chain_1.txt"; Read "chains//params.txt"] /\
  r.2 = None.
Proof. by vm_compute. Qed.

Example normpath_ex : normpath "chains//chain_1.txt" = "chains/chain_1.txt".
Proof. reflexivity. Qed.

(** The first [n] statements of a notebook: a run that an exception of a
    library call, or the user, ends after [n] statements has run them. *)
Fixpoint take_stmts (n : nat) (cells : list (list stmt)) : list (list stmt) :=
  match cells with
  | [] => []
  | cell :: cells' =>
      if (n <=? length cell)%nat then [take n cell]
      else cell :: take_stmts (n - length cell) cells'
  end.

Example take_stmts_ex :
  take_stmts 3 [[ImportStar; ImportStar]; [import ["a"]; import ["b"]]; [import ["c"]]]
  = [[ImportStar; ImportStar]; [import ["a"]]].
Proof. reflexivity. Qed.

(** *** Paths *)

Lemma last_app_r {A} (l1 l2 : list A) (d : A) :
  l2 <> [] -> List.last (l1 ++ l2) d = List.last l2 d.
Proof.
  intros Hne. induction l1 as [|x l1 IH]; [done|].
  simpl. rewrite IH. destruct (l1 ++ l2) eqn:E; [|done].
  by apply app_eq_nil in E as [_ ->].
Qed.

(** The last component of [a/t] is the last component of [t]. *)
Lemma last_component (a t : string) :
  List.last (Py.split "/"%char (a +:+ String "/" t)) ""
  = List.last (Py.split "/"%char t) "".
Proof. rewrite PyFacts.split_app_sep. apply last_app_r, PyFacts.split_not_nil. Qed.

(** A slash after a slash does not change the file a path names. *)
Lemma collapse_double_slash (b : bool) (a t : string) :
  collapse b ((a +:+ "/") +:+ String "/" t) = collapse b ((a +:+ "/") +:+ t).
Proof.
  revert b. induction a as [|c a IH]; intros b; simpl.
  - by destruct b.
  - destruct (Ascii.eqb c "/"), b; by rewrite IH.
Qed.

Lemma append_slash (a t : string) : (a +:+ "/") +:+ t = a +:+ String "/" t.
Proof. induction a as [|c a IH]; simpl; [done|]. by rewrite IH. Qed.

(** *** The events of an interrupted run are the first events of the
    whole run *)

Lemma reads_follow_writes_prefix (tr1 tr2 : list event) :
  tr1 `prefix_of` tr2 -> reads_follow_writes tr2 -> reads_follow_writes tr1.
Proof.
  intros [k ->] H i path Hi Hc.
  destruct (H i path) as (j & d & Hj & Hw & Hn); [|done|].
  - by apply lookup_app_l_Some.
  - exists j, d. split; [done|]. split; [|done].
    apply lookup_lt_Some in Hi.
    rewrite lookup_app_l in Hw; [done|lia].
Qed.

Section Prefix.

Variable psr_name : string.
Variable exported : string -> bool.
Variable predefined : string -> option value.

Lemma fold_bind_trace (binds : list string) (st : state) :
  trace (fold_left (fun st x => bind x Obj st) binds st) = trace st.
Proof. revert st. induction binds as [|x binds IH]; intros st; simpl; [done|]. by rewrite IH. Qed.

Lemma act_on_trace (st st' : state) (a : action) :
  act_on psr_name exported predefined st a = inr st' -> trace st `prefix_of` trace st'.
Proof.
  destruct a as [|x e|x e|x|e|e]; simpl.
  - by intros [= <-].
  - destruct (eval _ _ _ st e); [done|]. by intros [= <-].
  - destruct (eval _ _ _ st e); [done|]. by intros [= <-].
  - destruct (lookup exported predefined st x) as [[| |]|]; try done.
    intros [= <-]. by apply prefix_app_r.
  - destruct (eval _ _ _ st e); [done|]. intros [= <-]. by apply prefix_app_r.
  - destruct (eval _ _ _ st e); [done|]. intros [= <-]. by apply prefix_app_r.
Qed.

Lemma exec_trace (st st' : state) (c : stmt) :
  exec psr_name exported predefined st c = inr st' -> trace st `prefix_of` trace st'.
Proof.
  destruct c as [reads act binds|]; simpl.
  - destruct (first_unbound exported predefined st reads); [done|].
    destruct (act_on _ _ _ st act) as [|st1] eqn:E; [done|].
    intros [= <-]. rewrite fold_bind_trace. by eapply act_on_trace.
  - by intros [= <-].
Qed.

Lemma run_cell_trace (cell : list stmt) (st : state) :
  trace st `prefix_of` trace (run_cell psr_name exported predefined st cell).1.
Proof.
  revert st. induction cell as [|c cell IH]; intros st; simpl; [done|].
  destruct (exec _ _ _ st c) as [|st'] eqn:E; [done|].
  etrans; [by eapply exec_trace|]. apply IH.
Qed.

Lemma run_trace (cells : list (list stmt)) (st : state) :
  trace st `prefix_of` trace (run psr_name exported predefined st cells).1.
Proof.
  revert st. induction cells as [|cell cells IH]; intros st; simpl; [done|].
  pose proof (run_cell_trace cell st) as H.
  destruct (run_cell _ _ _ st cell) as [st' [e|]]; simpl in H; [done|].
  etrans; [exact H|]. apply IH.
Qed.

Lemma run_cell_take (k : nat) (cell : list stmt) (st : state) :
  trace (run_cell psr_name exported predefined st (take k cell)).1
  `prefix_of` trace (run_cell psr_name exported predefined st cell).1.
Proof.
  revert k st. induction cell as [|c cell IH]; intros k st.
  - by rewrite take_nil.
  - destruct k as [|k]; [apply (run_cell_trace (c :: cell))|].
    simpl. destruct (exec _ _ _ st c); [done|]. apply IH.
Qed.

Lemma run_take_stmts (n : nat) (cells : list (list stmt)) (st : state) :
  trace (run psr_name exported predefined st (take_stmts n cells)).1
  `prefix_of` trace (run psr_name exported predefined st cells).1.
Proof.
  revert n st. induction cells as [|cell cells IH]; intros n st; [done|].
  cbn [take_stmts]. destruct (n <=? length cell)%nat.
  - pose proof (run_cell_take n cell st) as H.
    cbn [run].
    destruct (run_cell _ _ _ st (take n cell)) as [st1 o1].
    destruct (run_cell _ _ _ st cell) as [st2 o2]. simpl in H.
    trans (trace st1); [by destruct o1|].
    trans (trace st2); [exact H|].
    destruct o2 as [e2|]; [done|]. apply run_trace.
  - cbn [run]. destruct (run_cell _ _ _ st cell) as [st' [e|]]; [done|]. apply IH.
Qed.

End Prefix.

(** *** The names the kernel has, and those [matplotlib.pyplot] exports,
    matter only where they are looked up *)

Section Ext.

Variable psr_name : string.
Variables e1 e2 : string -> bool.
Variables p1 p2 : string -> option value.
Hypothesis agree : forall x, e1 x = e2 x.
Hypothesis agree' : forall x, p1 x = p2 x.

Lemma lookup_ext st x : lookup e1 p1 st x = lookup e2 p2 st x.
Proof. unfold lookup. by rewrite agree, agree'. Qed.

Lemma eval_ext st e : eval psr_name e1 p1 st e = eval psr_name e2 p2 st e.
Proof. induction e as [| |a IHa b IHb|]; simpl; rewrite ?lookup_ext, ?IHa, ?IHb; done. Qed.

Lemma first_unbound_ext st names :
  first_unbound e1 p1 st names = first_unbound e2 p2 st names.
Proof. induction names as [|x names IH]; simpl; [done|]. by rewrite lookup_ext, IH. Qed.

Lemma act_on_ext st a : act_on psr_name e1 p1 st a = act_on psr_name e2 p2 st a.
Proof. destruct a; simpl; by rewrite ?eval_ext, ?lookup_ext. Qed.

Lemma import_star_ext st : import_star e1 st = import_star e2 st.
Proof.
  unfold import_star. f_equal. apply map_ext. intros [x v]. by rewrite agree.
Qed.

Lemma exec_ext st c : exec psr_name e1 p1 st c = exec psr_name e2 p2 st c.
Proof. destruct c; simpl; by rewrite ?first_unbound_ext, ?act_on_ext, ?import_star_ext. Qed.

Lemma run_cell_ext cell st :
  run_cell psr_name e1 p1 st cell = run_cell psr_name e2 p2 st cell.
Proof.
  revert st. induction cell as [|c cell IH]; intros st; simpl; [done|].
  rewrite exec_ext. destruct (exec _ _ _ st c); [done|]. apply IH.
Qed.

Lemma run_ext cells st : run psr_name e1 p1 st cells = run psr_name e2 p2 st cells.
Proof.
  revert st. induction cells as [|cell cells IH]; intros st; simpl; [done|].
  rewrite run_cell_ext. destruct (run_cell _ _ _ st cell) as [st' [e|]]; by rewrite ?IH.
Qed.

End Ext.

(** The run of a notebook that looks up, outside its own bindings, the one
    name [x]. *)
Lemma run_at (psr_name : string) (exported : string -> bool)
    (predefined : string -> option value) (x : string) (cells : list (list stmt)) :
  run psr_name exported predefined init cells
  = run psr_name
      (fun y => if String.eqb y x then exported x else exported y)
      (fun y => if String.eqb y x then predefined x else predefined y)
      init cells.
Proof.
  apply run_ext; intros y; by destruct (String.eqb_spec y x) as [->|].
Qed.

(** *** The three analysis notebooks, run to the end *)

Lemma noise_run_trace_ok (d : string) :
  reads_follow_writes
    [ SamplerWrote (d +:+ "/"); Read ((d +:+ "/") +:+ "chain_1.txt");
      SamplerWrote (d +:+ "/"); Read ((d +:+ "/") +:+ "/chain_1.txt");
      Read ((d +:+ "/") +:+ "/pars.txt") ].
Proof.
  intros i path Hi Hc.
  destruct i as [|[|[|[|[|i]]]]]; simpl in Hi; try discriminate Hi.
  - injection Hi as <-. exists 0%nat, (d +:+ "/"). split; [lia|]. split; [done|].
    unfold normpath, chain_file_of. apply collapse_double_slash.
  - injection Hi as <-. exists 2%nat, (d +:+ "/"). split; [lia|]. by split.
  - injection Hi as <-. unfold is_chain_file in Hc.
    by rewrite last_component in Hc.
Qed.

Lemma single_pulsar_noise_trace (psr_name : string) (exported : string -> bool)
    (predefined : string -> option value) :
  trace (run psr_name exported predefined init single_pulsar_noise).1
  `prefix_of`
  (let d := "./chains/noise_run_" +:+ psr_name in
   [ SamplerWrote (d +:+ "/"); Read ((d +:+ "/") +:+ "chain_1.txt");
     SamplerWrote (d +:+ "/"); Read ((d +:+ "/") +:+ "/chain_1.txt");
     Read ((d +:+ "/") +:+ "/pars.txt") ]).
Proof.
  rewrite (run_at psr_name exported predefined "params").
  destruct (predefined "params") as [v|].
  - exists []. vm_compute. reflexivity.
  - exists [ SamplerWrote (("./chains/noise_run_" +:+ psr_name) +:+ "/");
             Read ((("./chains/noise_run_" +:+ psr_name) +:+ "/") +:+ "/chain_1.txt");
             Read ((("./chains/noise_run_" +:+ psr_name) +:+ "/") +:+ "/pars.txt") ].
    vm_compute. reflexivity.
Qed.

Lemma stochastic_gwb_analysis_trace (psr_name : string) (exported : string -> bool)
    (predefined : string -> option value) :
  trace (run psr_name exported predefined init stochastic_gwb_analysis).1
  = [SamplerWrote "./chains/dataset1_crn/"; Read "./chains/dataset1_crn/chain_1.txt"].
Proof. vm_compute. reflexivity. Qed.

Lemma cw_exercises_trace (psr_name : string) (exported : string -> bool)
    (predefined : string -> option value) :
  trace (run psr_name exported predefined init cw_exercises).1
  `prefix_of`
  [ Saved "chains//params.txt"; SamplerWrote "chains/";
    Read "chains//chain_1.txt"; Read "chains//params.txt" ].
Proof.
  rewrite (run_at psr_name exported predefined "t").
  destruct (exported "t"), (predefined "t") as [v|];
    first [ by (exists []; vm_compute)
          | by (eexists; vm_compute; reflexivity) ].
Qed.

Lemma cw_trace_ok :
  reads_follow_writes
    [ Saved "chains//params.txt"; SamplerWrote "chains/";
      Read "chains//chain_1.txt"; Read "chains//params.txt" ].
Proof.
  intros i path Hi Hc.
  destruct i as [|[|[|[|i]]]]; simpl in Hi; try discriminate Hi.
  - injection Hi as <-. exists 1%nat, "chains/". split; [lia|].
    split; [done|]. by vm_compute.
  - injection Hi as <-. vm_compute in Hc. discriminate Hc.
Qed.

Lemma stochastic_trace_ok :
  reads_follow_writes
    [SamplerWrote "./chains/dataset1_crn/"; Read "./chains/dataset1_crn/chain_1.txt"].
Proof.
  intros i path Hi Hc.
  destruct i as [|[|i]]; simpl in Hi; try discriminate Hi.
  injection Hi as <-. exists 0%nat, "./chains/dataset1_crn/". split; [lia|].
  split; [done|]. by vm_compute.
Qed.

(** C7: in each analysis notebook, run from the top in any kernel and
    ended after any number of statements, each load of a [chain_1.txt]
    comes strictly after a [sampler.sample] whose output directory holds
    that file; and in a kernel that has the names the notebook leaves
    unbound, the run reaches the end and loads a [chain_1.txt]. *)
Theorem chain_read_after_sampler_run (psr_name : string) (exported : string -> bool)
    (nb : list (list stmt)) :
  nb ∈ notebooks ->
  (forall (predefined : string -> option value) (n : nat),
     reads_follow_writes
       (trace (run psr_name exported predefined init (take_stmts n nb)).1)) /\
  (run psr_name exported all_bound init nb).2 = None /\
  (exists i path,
     trace (run psr_name exported all_bound init nb).1 !! i = Some (Read path) /\
     is_chain_file path = true).
Proof.
  unfold notebooks. rewrite !elem_of_cons, elem_of_nil.
  intros [->|[->|[->|[]]]]; split.
  - intros predefined n. eapply reads_follow_writes_prefix; [apply run_take_stmts|].
    eapply reads_follow_writes_prefix; [apply single_pulsar_noise_trace|].
    apply noise_run_trace_ok.
  - split; [vm_compute; reflexivity|].
    exists 1%nat, ((("./chains/noise_run_" +:+ psr_name) +:+ "/") +:+ "chain_1.txt").
    split; [vm_compute; reflexivity|].
    unfold is_chain_file. by rewrite append_slash, last_component.
  - intros predefined n. eapply reads_follow_writes_prefix; [apply run_take_stmts|].
    rewrite stochastic_gwb_analysis_trace. apply stochastic_trace_ok.
  - split; [vm_compute; reflexivity|].
    exists 1%nat, "./chains/dataset1_crn/chain_1.txt".
    by rewrite stochastic_gwb_analysis_trace.
  - intros predefined n. eapply reads_follow_writes_prefix; [apply run_take_stmts|].
    eapply reads_follow_writes_prefix; [apply cw_exercises_trace|].
    apply cw_trace_ok.
  - rewrite (run_at psr_name exported all_bound "t").
    destruct (exported "t").
    + split; [vm_compute; reflexivity|].
      exists 2%nat, "chains//chain_1.txt". split; vm_compute; reflexivity.
    + split; [vm_compute; reflexivity|].
      exists 2%nat, "chains//chain_1.txt". split; vm_compute; reflexivity.
Qed.

Lemma chain_read_after_sampler_run_witness :
  single_pulsar_noise ∈ notebooks /\
  reads_follow_writes
    (trace (run "J0613-0200" no_export fresh init (take_stmts 60 single_pulsar_noise)).1).
Proof.
  assert (H : single_pulsar_noise ∈ notebooks) by (unfold notebooks; left).
  split; [exact H|].
  exact (proj1 (chain_read_after_sampler_run "J0613-0200" no_export single_pulsar_noise H)
           fresh 60%nat).
Defined.

(** Were the load moved above the run, the property would fail: the check
    is not vacuous. *)
Example read_before_run_detected :
  let nb := [ [ Stmt [] (NewSampler "sampler" (Lit "chains/")) [];
                Stmt [] (Load (Lit "chains/chain_1.txt")) ["chain"];
                Stmt ["sampler"] (SampleWith "sampler") [] ] ] in
  trace (run "" no_export fresh init nb).1
  = [Read "chains/chain_1.txt"; SamplerWrote "chains/"] /\
  ~ reads_follow_writes (trace (run "" no_export fresh init nb).1).
Proof.
  split; [reflexivity|]. simpl. intros H.
  destruct (H 0%nat "chains/chain_1.txt" eq_refl eq_refl) as (j & _ & Hj & _). lia.
Qed.

End Notebook.

(** ** [cw_exercises.ipynb]: the parameter-name file

<<
    filename = chaindir + '/params.txt'
    np.savetxt(filename,list(map(str, pta.param_names)), fmt='%s')
    ...
    params = list(np.loadtxt(chaindir + '/params.txt', dtype='str'))
>>

    [np.savetxt] and [np.loadtxt] are NumPy's; they are embedded here as
    NumPy documents them, with the arguments the two cells leave at their
    defaults: [newline='\n'] for the writer and, for the reader,
    [comments='#'], [delimiter=None] (split on whitespace) and [ndmin=0]
    (axes of length one are squeezed away).  A string is a sequence of
    characters with code points below 256, which is what the writer's
    encoding, Latin-1, can hold.  The reader opens the file as a text: its
    lines end at a newline, at a carriage return, or at the two in a row,
    and it splits a line as a text, at every whitespace character. *)

Module ParamsFile.

(** [np.savetxt(filename, X, fmt='%s')] for a list [X] of strings:
    [np.asarray(X)] first, then one element per line. *)
Definition savetxt (X : list string) : string :=
  List.fold_right (fun name file => Numpy.unpad name +:+ String "010" file) "" X.

(** The fields of one line: the text before the first [#], split on
    whitespace. *)
Definition split_line (line : string) : list string :=
  Py.words (List.hd "" (Py.split "#"%char line)).

Definition is_nil {A} (l : list A) : bool :=
  match l with [] => true | _ => false end.

(** The rows read from the file; lines without a field are skipped. *)
Definition read_rows (file : string) : list (list string) :=
  List.filter (fun r => negb (is_nil r))
    (List.map split_line (Py.split "010"%char (Py.universal_newlines file))).

(** [np.loadtxt(file, dtype='str')]. *)
Definition loadtxt (file : string) : option (Numpy.ndarray string) :=
  Numpy.from_rows (List.map (List.map Numpy.unpad) (read_rows file)).

(** The elements [list(a)] iterates over: the strings of a one-axis array,
    the rows of a two-axes array; an array without axes cannot be iterated
    ([TypeError], here [None]). *)
Inductive item :=
| Str (s : string)
| Row (r : list string).

Definition py_list (a : Numpy.ndarray string) : option (list item) :=
  match a with
  | Numpy.Arr0 _ => None
  | Numpy.Arr1 l => Some (List.map Str l)
  | Numpy.Arr2 rows => Some (List.map Row rows)
  end.

(** Writing the names and reading them back. *)
Definition write_then_read (param_names : list string) : option (list item) :=
  a ← loadtxt (savetxt param_names); py_list a.

(** A name that is not empty and has no whitespace in it. *)
Definition solid (name : string) : bool :=
  negb (String.eqb name "") && negb (Py.has_space name).

(** A name without the character [c]. *)
Definition without (c : ascii) (name : string) : bool := negb (Py.has_char c name).

Example write_then_read_run :
  write_then_read ["cos_gwtheta"; "gwphi"; "log10_h"]
  = Some [Str "cos_gwtheta"; Str "gwphi"; Str "log10_h"].
Proof. reflexivity. Qed.

Example write_then_read_empty : write_then_read [] = Some [].
Proof. reflexivity. Qed.

(** A unit separator (code point 31) splits a line in two fields, so the
    file of the names [a<US>b] and [c] has rows of two fields and of one,
    which the reader refuses ([ValueError]); a carriage return ends a
    line; a NUL character at the end of a name is not written. *)
Example read_unit_separator :
  split_line (String "a" (String "031" "b")) = ["a"; "b"] /\
  write_then_read [String "a" (String "031" "b"); "c"] = None.
Proof. by vm_compute. Qed.

Example read_carriage_return :
  write_then_read [String "a" (String "013" "b"); "c"] = Some [Str "a"; Str "b"; Str "c"].
Proof. by vm_compute. Qed.

Example write_nul : savetxt [String "a" (String "000" ""); "c"] = String "a" (String "010" (String "c" (String "010" ""))).
Proof. by vm_compute. Qed.


(** *** What the writer and the reader leave alone *)

Lemma unpad_id (s : string) : Py.has_char "000" s = false -> Numpy.unpad s = s.
Proof.
  induction s as [|c s IH]; simpl; [done|].
  intros [Hc Hs]%orb_false_elim. rewrite (IH Hs), Hc. by destruct s.
Qed.

Lemma universal_newlines_id (s : string) :
  Py.has_char "013" s = false -> Py.universal_newlines s = s.
Proof.
  induction s as [|c s IH]; simpl; [done|].
  intros [Hc Hs]%orb_false_elim. by rewrite Hc, (IH Hs).
Qed.

Lemma has_char_space (c : ascii) (s : string) :
  Py.is_text_space c = true -> Py.has_space s = false -> Py.has_char c s = false.
Proof.
  intros Hc. induction s as [|d s IH]; simpl; [done|].
  intros [Hd Hs]%orb_false_elim. rewrite IH by done.
  destruct (Ascii.eqb_spec d c) as [->|_]; [congruence|done].
Qed.

Lemma has_space_app (a b : string) :
  Py.has_space (a +:+ b) = Py.has_space a || Py.has_space b.
Proof. induction a as [|c a IH]; simpl; [done|]. by rewrite IH, orb_assoc. Qed.

(** The lines the writer would make of names as they are. *)
Definition join_lines (names : list string) : string :=
  List.fold_right (fun name file => name +:+ String "010" file) "" names.

Lemma savetxt_join (names : list string) :
  forallb (without "000") names = true -> savetxt names = join_lines names.
Proof.
  induction names as [|n names IH]; simpl; [done|].
  intros [Hn%negb_true_iff Hns]%andb_prop. by rewrite unpad_id, <- IH.
Qed.

Lemma join_lines_no_cr (names : list string) :
  forallb (fun n => negb (Py.has_space n)) names = true ->
  Py.has_char "013" (join_lines names) = false.
Proof.
  induction names as [|n names IH]; simpl; [done|].
  intros [Hn%negb_true_iff Hns]%andb_prop.
  rewrite PyFacts.has_char_app. simpl. rewrite IH by done.
  by rewrite (has_char_space "013" n).
Qed.

Lemma join_lines_split (names : list string) :
  forallb (fun n => negb (Py.has_space n)) names = true ->
  Py.split "010"%char (join_lines names) = names ++ [""].
Proof.
  induction names as [|n names IH]; simpl; [done|].
  intros [Hn%negb_true_iff Hns]%andb_prop.
  rewrite PyFacts.split_app_sep, IH by done.
  by rewrite PyFacts.split_no_sep by by apply has_char_space.
Qed.

(** The lines the reader sees are the names, and the empty text after the
    last newline. *)
Lemma savetxt_lines (names : list string) :
  forallb (fun n => negb (Py.has_space n)) names = true ->
  forallb (without "000") names = true ->
  Py.split "010"%char (Py.universal_newlines (savetxt names)) = names ++ [""].
Proof.
  intros Hs H0. rewrite savetxt_join by done.
  rewrite universal_newlines_id by by apply join_lines_no_cr.
  by apply join_lines_split.
Qed.

Lemma unpad_column (names : list string) :
  forallb (without "000") names = true ->
  List.map (List.map Numpy.unpad) (List.map (fun n => [n]) names)
  = List.map (fun n => [n]) names.
Proof.
  induction names as [|n names IH]; simpl; [done|].
  intros [Hn%negb_true_iff Hns]%andb_prop. by rewrite unpad_id, IH.
Qed.

(** *** The round trip *)

Lemma words_cons_cons (c d : ascii) (s : string) :
  Py.is_text_space c = false -> Py.is_text_space d = false ->
  Py.words (String c (String d s))
  = match Py.words (String d s) with
    | w :: ws => String c w :: ws
    | [] => [String c ""]
    end.
Proof.
  intros Hc Hd.
  change (Py.words (String c (String d s)))
    with (if Py.is_text_space c then Py.words (String d s)
          else if Py.is_text_space d then String c "" :: Py.words (String d s)
          else match Py.words (String d s) with
               | w :: ws => String c w :: ws
               | [] => [String c ""]
               end).
  by rewrite Hc, Hd.
Qed.

Lemma words_one (c : ascii) (s : string) :
  Py.has_space (String c s) = false -> Py.words (String c s) = [String c s].
Proof.
  revert c. induction s as [|d s IH]; intros c [Hc Hs]%orb_false_elim.
  - simpl. by rewrite Hc.
  - pose proof Hs as [Hd _]%orb_false_elim.
    rewrite words_cons_cons by done. by rewrite (IH d Hs).
Qed.

Lemma words_solid (name : string) :
  solid name = true -> Py.words name = [name].
Proof.
  unfold solid. intros [Hne Hsp%negb_true_iff]%andb_prop.
  destruct name as [|c s]; [done|]. by apply words_one.
Qed.

Lemma split_line_solid (name : string) :
  solid name = true -> Py.has_char "#" name = false -> split_line name = [name].
Proof.
  intros Hs Hh. unfold split_line. rewrite PyFacts.split_no_sep by done.
  by apply words_solid.
Qed.

Lemma solid_no_space (names : list string) :
  forallb solid names = true ->
  forallb (fun n => negb (Py.has_space n)) names = true.
Proof.
  induction names as [|n names IH]; simpl; [done|].
  intros [[_ Hn]%andb_prop Hns]%andb_prop. by rewrite Hn, IH.
Qed.

Lemma read_rows_savetxt (names : list string) :
  forallb solid names = true ->
  forallb (without "#") names = true ->
  forallb (without "000") names = true ->
  read_rows (savetxt names) = List.map (fun n => [n]) names.
Proof.
  intros Hs Hh H0. unfold read_rows.
  rewrite savetxt_lines by (by try apply solid_no_space).
  rewrite List.map_app, List.filter_app. simpl. rewrite app_nil_r.
  clear H0. induction names as [|n names IH]; simpl in *; [done|].
  apply andb_prop in Hs as [Hn Hs]. apply andb_prop in Hh as [Hnh%negb_true_iff Hh].
  rewrite split_line_solid by done. simpl. by rewrite IH.
Qed.

Lemma column_rows (names : list string) :
  forallb (fun r : list string => (length r =? 1)%nat) (List.map (fun n => [n]) names) = true /\
  List.concat (List.map (fun n => [n]) names) = names.
Proof. induction names as [|n names [IH1 IH2]]; simpl; [done|]. by rewrite IH1, IH2. Qed.

Lemma squeeze_column (n1 n2 : string) (names : list string) :
  Numpy.squeeze (List.map (fun n => [n]) (n1 :: n2 :: names))
  = Numpy.Arr1 (n1 :: n2 :: names).
Proof.
  destruct (column_rows (n1 :: n2 :: names)) as [Hall Hhd].
  change (Numpy.squeeze (List.map (fun n => [n]) (n1 :: n2 :: names)))
    with (if forallb (fun r : list string => (length r =? 1)%nat)
               (List.map (fun n => [n]) (n1 :: n2 :: names))
          then Numpy.Arr1 (List.concat (List.map (fun n => [n]) (n1 :: n2 :: names)))
          else Numpy.Arr2 (List.map (fun n => [n]) (n1 :: n2 :: names))).
  by rewrite Hall, Hhd.
Qed.

(** The array made of a column of names, one name a row. *)
Lemma from_rows_column (names : list string) :
  Numpy.from_rows (List.map (fun n => [n]) names)
  = match names with
    | [] => Some (Numpy.Arr1 [])
    | [n] => Some (Numpy.Arr0 n)
    | _ => Some (Numpy.Arr1 names)
    end.
Proof.
  unfold Numpy.from_rows.
  destruct names as [|n1 [|n2 names]]; [done|done|].
  change (List.map (fun n => [n]) (n1 :: n2 :: names))
    with ([n1] :: List.map (fun n => [n]) (n2 :: names)).
  cbv iota beta. change (length [n1]) with 1%nat.
  destruct (column_rows (n2 :: names)) as [-> _].
  change ([n1] :: List.map (fun n => [n]) (n2 :: names))
    with (List.map (fun n => [n]) (n1 :: n2 :: names)).
  by rewrite squeeze_column.
Qed.



End ParamsFile.

(** * Further properties of the glue code *)

(** ** The [readfile] cell: where it stops and what it can print *)

Module ReadfileErrors.

Section Cell.

Variable float : Type.
Variable py_float : string -> option float.
Variable fmt_0_1f : float -> string.

(** A line carrying the label. *)
Definition labelled (line : string) : bool := Py.contains "Central freq" line.

(** The lines the loop gets through before anything is raised add their
    prints and change nothing else. *)
Lemma loop_good_prefix (good rest printed : list string) :
  Forall (Readfile.line_ok py_float) good ->
  Readfile.loop py_float fmt_0_1f (good ++ rest) printed
  = Readfile.loop py_float fmt_0_1f rest
      (printed ++ omap (Readfile.expected_print py_float fmt_0_1f) good).
Proof.
  intros Hgood. revert printed.
  induction Hgood as [|line good Hok _ IH]; intros printed.
  - simpl. by rewrite app_nil_r.
  - cbn [app]. rewrite Readfile.loop_step_ok by done. rewrite IH. f_equal.
    simpl. destruct (Readfile.expected_print py_float fmt_0_1f line); simpl;
      by rewrite <- ?app_assoc.
Qed.

(** X1: the loop stops at the first labelled line it cannot read.  What
    the earlier lines printed stays printed, nothing is printed for the
    lines after it, and the exception is [IndexError] when the line has no
    ["="], [ValueError] when [float] rejects the text after it. *)
Theorem readfile_stops_at_first_unreadable_line
    (out err : string) (good rest : list string) (bad : string) :
  Py.split "010"%char out = good ++ bad :: rest ->
  Forall (Readfile.line_ok py_float) good ->
  labelled bad = true ->
  (Readfile.between_first_and_second_eq bad = None ->
   Readfile.readfile_cell py_float fmt_0_1f (out, err)
   = (omap (Readfile.expected_print py_float fmt_0_1f) good,
      Readfile.Raised Readfile.IndexError)) /\
  (forall field,
     Readfile.between_first_and_second_eq bad = Some field ->
     py_float (Py.strip field) = None ->
     Readfile.readfile_cell py_float fmt_0_1f (out, err)
     = (omap (Readfile.expected_print py_float fmt_0_1f) good,
        Readfile.Raised Readfile.ValueError)).
Proof.
  intros Hsplit Hgood Hlab. unfold Readfile.readfile_cell. rewrite Hsplit.
  rewrite loop_good_prefix by done. cbn [Readfile.loop app].
  unfold labelled in Hlab. rewrite Hlab, Readfile.split_eq_second.
  split.
  - by intros ->.
  - intros field -> Hf. by rewrite Hf.
Qed.

Lemma loop_prints_frequency_lines (lines printed : list string) :
  exists new o,
    Readfile.loop py_float fmt_0_1f lines printed = (printed ++ new, o) /\
    Forall (fun l => exists x, l = "Frequency=" +:+ fmt_0_1f x) new /\
    (length new <= length (List.filter labelled lines))%nat.
Proof.
  revert printed. induction lines as [|line lines IH]; intros printed.
  - exists [], Readfile.Finished. simpl. by rewrite app_nil_r.
  - cbn [Readfile.loop List.filter]. unfold labelled at 1.
    destruct (Py.contains "Central freq" line) eqn:Hc.
    + destruct (nth_error (Py.split "=" line) 1) as [field|].
      * destruct (py_float (Py.strip field)) as [x|].
        -- destruct (IH (printed ++ ["Frequency=" +:+ fmt_0_1f x])) as (new & o & -> & Hall & Hlen).
           exists (("Frequency=" +:+ fmt_0_1f x) :: new), o.
           split; [by rewrite <- app_assoc|]. split; [|simpl; lia].
           constructor; [by exists x|done].
        -- exists [], (Readfile.Raised Readfile.ValueError).
           rewrite app_nil_r. split; [done|]. split; [constructor|simpl; lia].
      * exists [], (Readfile.Raised Readfile.IndexError).
        rewrite app_nil_r. split; [done|]. split; [constructor|simpl; lia].
    + destruct (IH printed) as (new & o & -> & Hall & Hlen). by exists new, o.
Qed.

(** X2: whatever the subprocess wrote, every line the cell prints is
    ["Frequency="] followed by a rendered float, and the cell prints at most
    one line per labelled line of the output. *)
Theorem readfile_prints_only_frequency_lines (out err : string) :
  Forall (fun l => exists x, l = "Frequency=" +:+ fmt_0_1f x)
    (fst (Readfile.readfile_cell py_float fmt_0_1f (out, err))) /\
  (length (fst (Readfile.readfile_cell py_float fmt_0_1f (out, err)))
   <= length (List.filter labelled (Py.split "010"%char out)))%nat.
Proof.
  unfold Readfile.readfile_cell.
  destruct (loop_prints_frequency_lines (Py.split "010"%char out) []) as (new & o & -> & H1 & H2).
  by split.
Qed.

End Cell.

Lemma readfile_stops_at_first_unreadable_line_witness :
  Py.split "010"%char ("Central freq = 1380.8" +:+ String "010" "Central freq 1400"
                        +:+ String "010" "Central freq = 1500.0")
    = ["Central freq = 1380.8"] ++ "Central freq 1400" :: ["Central freq = 1500.0"] /\
  Forall (Readfile.line_ok Readfile.toy_float) ["Central freq = 1380.8"] /\
  labelled "Central freq 1400" = true /\
  Readfile.readfile_cell Readfile.toy_float Readfile.toy_fmt
    ("Central freq = 1380.8" +:+ String "010" "Central freq 1400"
       +:+ String "010" "Central freq = 1500.0", "")
  = (["Frequency=1380.8"], Readfile.Raised Readfile.IndexError).
Proof.
  assert (H1 : Py.split "010"%char ("Central freq = 1380.8" +:+ String "010" "Central freq 1400"
                        +:+ String "010" "Central freq = 1500.0")
    = ["Central freq = 1380.8"] ++ "Central freq 1400" :: ["Central freq = 1500.0"])
    by reflexivity.
  assert (H2 : Forall (Readfile.line_ok Readfile.toy_float) ["Central freq = 1380.8"]).
  { repeat constructor. intros _. exists " 1380.8", "1380.8". split; reflexivity. }
  assert (H3 : labelled "Central freq 1400" = true) by reflexivity.
  split; [exact H1|]. split; [exact H2|]. split; [exact H3|].
  exact (proj1 (readfile_stops_at_first_unreadable_line string Readfile.toy_float
                  Readfile.toy_fmt _ "" _ _ _ H1 H2 H3) eq_refl).
Defined.

End ReadfileErrors.

(** ** The burn-in index on every loaded array, and the column [-5] *)

Module ChainMore.

(** [chain[b:, -k]] for [b >= 0] and [k >= 1]: the [k]-th column from the
    right of a two-axis array.  The index is checked against the width of
    the array, so it is an [IndexError] on an array narrower than [k] also
    when the slice [b:] leaves no row. *)
Definition column_from_end {A} (b k : nat) (a : Numpy.ndarray A) : option (list A) :=
  match a with
  | Numpy.Arr2 rows =>
      if forallb (fun row => (k <=? length row)%nat) rows
      then mapM (Chain.from_end k) (drop b rows)
      else None
  | _ => None
  end.

Lemma pow2_1024 : (2 ^ 1024 = 2 * 2 ^ 1023)%Z.
Proof. by rewrite <- Z.pow_succ_r. Qed.

(** The double nearest to [n] is at most [2 n]. *)
Lemma round_half_even_bound (n : Z) :
  (2 ^ 53 <= n)%Z ->
  (0 <= Chain.round_half_even n (Z.log2 n - 52) <= 2 * n)%Z.
Proof.
  intros Hn.
  assert (H53 : (0 < 2 ^ 53)%Z) by (apply Z.pow_pos_nonneg; lia).
  assert (Hlog : (53 <= Z.log2 n)%Z) by (apply Z.log2_le_pow2; lia).
  set (e := (Z.log2 n - 52)%Z).
  assert (He : (0 < 2 ^ e)%Z) by (apply Z.pow_pos_nonneg; unfold e; lia).
  assert (Hen : (2 ^ e <= n)%Z).
  { transitivity (2 ^ Z.log2 n)%Z.
    - apply Z.pow_le_mono_r; unfold e; lia.
    - apply Z.log2_spec. lia. }
  unfold Chain.round_half_even.
  pose proof (Z.div_mod n (2 ^ e)%Z ltac:(lia)) as Hdm.
  pose proof (Z.mod_pos_bound n (2 ^ e)%Z He) as Hmod.
  assert (Hq : (0 <= n / 2 ^ e)%Z) by (apply Z.div_pos; lia).
  set (q := (n / 2 ^ e)%Z) in *. set (r := (n mod 2 ^ e)%Z) in *.
  assert (Hup : ((q + 1) * 2 ^ e <= 2 * n)%Z) by nia.
  assert (Hlo : (0 <= q * 2 ^ e <= 2 * n)%Z) by nia.
  destruct (r <? 2 ^ (e - 1))%Z; [lia|].
  destruct (2 ^ (e - 1) <? r)%Z; [nia|].
  destruct (Z.even q); [lia|nia].
Qed.

Lemma float_of_int_bound (n : Z) :
  (0 <= n < 2 ^ 1023)%Z ->
  exists v, Chain.float_of_int n = Some v /\ (0 <= v <= 2 * n)%Z.
Proof.
  intros Hn. unfold Chain.float_of_int.
  pose proof pow2_1024 as H1024.
  destruct (n <? 2 ^ 53)%Z eqn:Hlt.
  - exists n. split; [|lia].
    destruct (n <? 2 ^ 1024)%Z eqn:Hb; [done|]. apply Z.ltb_ge in Hb. lia.
  - apply Z.ltb_ge in Hlt.
    pose proof (round_half_even_bound n Hlt) as Hv.
    eexists. split; [|exact Hv].
    destruct (_ <? 2 ^ 1024)%Z eqn:Hb; [done|]. apply Z.ltb_ge in Hb. lia.
Qed.

Lemma burn_of_shape0_bound (n : Z) :
  (1 <= n < 2 ^ 1023)%Z ->
  exists b, Chain.burn_of_shape0 n = Some b /\ (0 <= b < n)%Z.
Proof.
  intros Hn. destruct (float_of_int_bound n ltac:(lia)) as (v & Hv & Hvb).
  unfold Chain.burn_of_shape0. rewrite Hv. simpl.
  eexists. split; [reflexivity|].
  unfold Chain.py_int, Chain.quarter_of. simpl.
  rewrite Z.quot_div_nonneg by lia.
  split; [apply Z.div_pos; lia|]. apply Z.div_lt_upper_bound; lia.
Qed.

(** X3: for every loaded array whose first axis has length [n >= 1] (a
    matrix of [n] rows, or the one-axis array of a one-row or one-column
    file), also where the conversion of [n] to a double rounds, [burn] is
    defined and lies in [[0, n)]: the slice [chain[burn:]] is never
    empty. *)
Theorem burn_leaves_samples (value : Type) (chain : Numpy.ndarray value) (n : nat) :
  Numpy.shape0 chain = Some n ->
  (1 <= Z.of_nat n < 2 ^ 1023)%Z ->
  exists (b : Z) (rest : Numpy.ndarray value),
    Chain.burn chain = Some b /\
    (0 <= b < Z.of_nat n)%Z /\
    Numpy.from_row (Z.to_nat b) chain = Some rest /\
    Numpy.shape0 rest = Some (n - Z.to_nat b)%nat /\
    (1 <= n - Z.to_nat b)%nat.
Proof.
  intros Hshape Hn.
  destruct (burn_of_shape0_bound (Z.of_nat n) Hn) as (b & Hb & Hbn).
  exists b. unfold Chain.burn. rewrite Hshape. simpl.
  destruct chain as [v|l|rows]; simpl in Hshape; [done| |].
  - injection Hshape as <-. exists (Numpy.Arr1 (drop (Z.to_nat b) l)).
    simpl. rewrite length_drop. repeat split; try done; lia.
  - injection Hshape as <-. exists (Numpy.Arr2 (drop (Z.to_nat b) rows)).
    simpl. rewrite length_drop. repeat split; try done; lia.
Qed.

Lemma burn_leaves_samples_witness :
  Numpy.shape0 (Numpy.Arr2 Chain.demo_rows) = Some 5%nat /\
  (1 <= Z.of_nat 5 < 2 ^ 1023)%Z /\
  exists (b : Z) (rest : Numpy.ndarray Z),
    Chain.burn (Numpy.Arr2 Chain.demo_rows) = Some b /\
    (0 <= b < Z.of_nat 5)%Z /\
    Numpy.from_row (Z.to_nat b) (Numpy.Arr2 Chain.demo_rows) = Some rest /\
    Numpy.shape0 rest = Some (5 - Z.to_nat b)%nat /\
    (1 <= 5 - Z.to_nat b)%nat.
Proof.
  assert (H1 : Numpy.shape0 (Numpy.Arr2 Chain.demo_rows) = Some 5%nat) by reflexivity.
  assert (H2 : (1 <= Z.of_nat 5 < 2 ^ 1023)%Z)
    by (split; [lia|]; apply Z.ltb_lt; vm_compute; reflexivity).
  split; [exact H1|]. split; [exact H2|].
  exact (burn_leaves_samples Z (Numpy.Arr2 Chain.demo_rows) 5%nat H1 H2).
Defined.

(** Column [-5] of the matrix of the states' rows. *)
Lemma column_minus_5_of_matrix
    (value : Type) (samples : list (Chain.sample value)) (b : nat) :
  Forall (fun s => length (Chain.appended s) = 4%nat) samples ->
  (Forall (fun s => Chain.x s <> []) samples ->
   exists col,
     column_from_end b 5 (Numpy.Arr2 (List.map Chain.chain_row samples)) = Some col /\
     mapM (fun s => last (Chain.x s)) (drop b samples) = Some col) /\
  (Exists (fun s => Chain.x s = []) samples ->
   column_from_end b 5 (Numpy.Arr2 (List.map Chain.chain_row samples)) = None).
Proof.
  intros Hall. unfold column_from_end. split.
  - intros Hne.
    assert (Hwide : forallb (fun row => (5 <=? length row)%nat)
                      (List.map Chain.chain_row samples) = true).
    { apply forallb_forall. intros row [s [<- Hs]]%in_map_iff.
      apply list_elem_of_In in Hs.
      pose proof (proj1 (Forall_forall _ _) Hall s Hs) as H4.
      pose proof (proj1 (Forall_forall _ _) Hne s Hs) as Hx.
      apply Nat.leb_le. unfold Chain.chain_row. rewrite length_app, H4.
      destruct (Chain.x s) as [|v xs] eqn:E; [congruence|simpl; lia]. }
    rewrite Hwide, skipn_map.
    assert (Hdrop : Forall (fun s => length (Chain.appended s) = 4%nat /\ Chain.x s <> [])
                      (drop b samples)).
    { apply Forall_drop. apply Forall_forall. intros s Hs. split.
      - exact (proj1 (Forall_forall _ _) Hall s Hs).
      - exact (proj1 (Forall_forall _ _) Hne s Hs). }
    induction Hdrop as [|s rest [H4 Hx] _ [col [IH1 IH2]]]; [by exists []|].
    cbn [List.map mapM]. rewrite (Chain.column_minus_5_is_last_parameter _ s H4).
    destruct (last (Chain.x s)) as [v|] eqn:E.
    + exists (v :: col). simpl. by rewrite IH1, IH2.
    + apply last_None in E. done.
  - intros (s & Hs & Hx)%Exists_exists.
    pose proof (proj1 (Forall_forall _ _) Hall s Hs) as H4.
    assert (Hnarrow : forallb (fun row => (5 <=? length row)%nat)
                        (List.map Chain.chain_row samples) = false).
    { apply not_true_is_false. intros Hwide.
      pose proof (proj1 (forallb_forall _ _) Hwide (Chain.chain_row s)) as Hrow.
      assert (Hin : In (Chain.chain_row s) (List.map Chain.chain_row samples))
        by (apply in_map; by apply list_elem_of_In).
      apply Hrow, Nat.leb_le in Hin. unfold Chain.chain_row in Hin.
      rewrite length_app, H4, Hx in Hin. simpl in Hin. lia. }
    by rewrite Hnarrow.
Qed.



Example column_minus_5_run :
  (Chain.loadtxt (List.map Chain.chain_row Chain.demo_samples) ≫= column_from_end 0 5)
  = Some [3; 6]%Z.
Proof. reflexivity. Qed.

(** The chain file of one state is loaded as a one-axis array, which has
    no column to read ([IndexError]). *)
Example column_minus_5_of_one_state :
  Chain.loadtxt (List.map Chain.chain_row (take 1 Chain.demo_samples))
  = Some (Numpy.Arr1 [1; 2; 3; 10; 11; 12; 13]%Z) /\
  column_from_end 0 5 (Numpy.Arr1 [1; 2; 3; 10; 11; 12; 13]%Z) = None.
Proof. by vm_compute. Qed.

End ChainMore.

(** ** The listing order of the file system does not matter *)

Module ListingOrder.

(** Two lists sorted by an antisymmetric relation that are rearrangements
    of one another are the same list. *)
Lemma strongly_sorted_perm_unique {A} (R : A -> A -> Prop) (l1 l2 : list A) :
  (forall a b, R a b -> R b a -> a = b) ->
  StronglySorted R l1 -> StronglySorted R l2 -> Permutation l1 l2 -> l1 = l2.
Proof.
  intros Hanti Hs1. revert l2.
  induction Hs1 as [|x l1 Hs1 IH Hx]; intros l2 Hs2 Hp.
  - by apply Permutation_nil in Hp.
  - destruct Hs2 as [|y l2 Hs2 Hy].
    { symmetry in Hp. by apply Permutation_nil in Hp. }
    rewrite List.Forall_forall in Hx, Hy.
    assert (x = y) as <-.
    { assert (Hxin : x ∈ y :: l2) by (rewrite <- Hp; left).
      assert (Hyin : y ∈ x :: l1) by (rewrite Hp; left).
      apply elem_of_cons in Hxin as [?|Hxin]; [done|].
      apply elem_of_cons in Hyin as [?|Hyin]; [done|].
      apply Hanti; [apply Hx|apply Hy]; by apply list_elem_of_In. }
    f_equal. apply IH; [done|]. by apply Permutation_cons_inv in Hp.
Qed.

(** [sorted] returns the same list for every arrangement of its input. *)
Lemma sorted_of_permutation (l1 l2 : list string) :
  Permutation l1 l2 -> Py.sorted l1 = Py.sorted l2.
Proof.
  intros Hp. apply (strongly_sorted_perm_unique PyFacts.le).
  - intros a b. apply String.leb_antisym.
  - apply PyFacts.sorted_strongly.
  - apply PyFacts.sorted_strongly.
  - by rewrite !PyFacts.sorted_perm.
Qed.

Lemma filter_permutation {A} (f : A -> bool) (l1 l2 : list A) :
  Permutation l1 l2 -> Permutation (List.filter f l1) (List.filter f l2).
Proof.
  induction 1 as [|x l1 l2 _ IH|x y l|l1 l2 l3 _ IH1 _ IH2]; simpl.
  - done.
  - destruct (f x); [by constructor|done].
  - destruct (f x), (f y); try done. apply perm_swap.
  - by etrans.
Qed.

(** X5: the noise dictionary is the same in whatever order [glob] lists
    the noise files: sorting the paths fixes which file wins a key. *)
Theorem noise_params_independent_of_listing_order
    (value : Type) (json_load : string -> gmap string value) (globbed1 globbed2 : list string) :
  Permutation globbed1 globbed2 ->
  Noise.load_noise json_load globbed1 = Noise.load_noise json_load globbed2.
Proof.
  intros Hp. unfold Noise.load_noise. by rewrite (sorted_of_permutation _ _ Hp).
Qed.

Lemma noise_params_independent_of_listing_order_witness :
  Permutation ["noise/B.json"; "noise/A.json"] ["noise/A.json"; "noise/B.json"] /\
  Noise.load_noise Noise.demo_json ["noise/B.json"; "noise/A.json"]
  = Noise.load_noise Noise.demo_json ["noise/A.json"; "noise/B.json"].
Proof.
  assert (H : Permutation ["noise/B.json"; "noise/A.json"] ["noise/A.json"; "noise/B.json"])
    by apply perm_swap.
  split; [exact H|].
  exact (noise_params_independent_of_listing_order Z Noise.demo_json _ _ H).
Defined.

Lemma selected_permutation (ext : string) (entries1 entries2 psrlist : list string) :
  Permutation entries1 entries2 ->
  DataFiles.selected ext entries1 psrlist = DataFiles.selected ext entries2 psrlist.
Proof.
  intros Hp. unfold DataFiles.selected, DataFiles.glob_ext.
  f_equal. apply sorted_of_permutation.
  apply Permutation_map. by apply filter_permutation.
Qed.

Lemma files_with_ext_permutation (ext : string) (entries1 entries2 psrlist : list string) :
  Permutation entries1 entries2 ->
  DataFiles.files_with_ext ext entries1 psrlist = DataFiles.files_with_ext ext entries2 psrlist.
Proof.
  intros Hp. unfold DataFiles.files_with_ext.
  by rewrite (selected_permutation _ _ _ _ Hp).
Qed.

(** X6: the [(par, tim)] pairs handed to [Pulsar] are the same in whatever
    order the file system lists the data directory. *)
Theorem pulsar_args_independent_of_listing_order (entries1 entries2 psrlist : list string) :
  Permutation entries1 entries2 ->
  DataFiles.pulsar_args entries1 psrlist = DataFiles.pulsar_args entries2 psrlist.
Proof.
  intros Hp. unfold DataFiles.pulsar_args, DataFiles.parfiles, DataFiles.timfiles.
  by rewrite !(files_with_ext_permutation _ _ _ _ Hp).
Qed.

Lemma pulsar_args_independent_of_listing_order_witness :
  Permutation ["J1.tim"; "J1.par"; "J2.par"; "J2.tim"] ["J1.par"; "J1.tim"; "J2.par"; "J2.tim"] /\
  DataFiles.pulsar_args ["J1.tim"; "J1.par"; "J2.par"; "J2.tim"] ["J1"; "J2"]
  = DataFiles.pulsar_args ["J1.par"; "J1.tim"; "J2.par"; "J2.tim"] ["J1"; "J2"].
Proof.
  assert (H : Permutation ["J1.tim"; "J1.par"; "J2.par"; "J2.tim"]
                          ["J1.par"; "J1.tim"; "J2.par"; "J2.tim"]) by apply perm_swap.
  split; [exact H|].
  exact (pulsar_args_independent_of_listing_order _ _ ["J1"; "J2"] H).
Defined.



Example parfiles_of_demo :
  DataFiles.parfiles DataFiles.demo_entries ["J1"; "J9"] = Some ["./dataset1/J1.par"].
Proof. reflexivity. Qed.

End ListingOrder.

(** ** The time span: when it is undefined, and the two notebooks agree *)

Module SpanMore.

Section Times.

Variable time : Type.
Variable isnan : time -> bool.
Variable leb : time -> time -> bool.
Variable sub : time -> time -> time.

Lemma reduce_None (pick : time -> time -> time) (l : list time) :
  Span.reduce pick l = None <-> l = [].
Proof. destruct l; simpl; split; done. Qed.

Lemma mapM_reduce_None (pick : time -> time -> time) (psrs : list (list time)) :
  mapM (Span.reduce pick) psrs = None <-> [] ∈ psrs.
Proof.
  rewrite mapM_None, Exists_exists. split.
  - intros (toas & Hin & ->%reduce_None). done.
  - intros Hin. exists []. by split.
Qed.

Lemma mapM_reduce_length (pick : time -> time -> time) (psrs : list (list time)) (ts : list time) :
  mapM (Span.reduce pick) psrs = Some ts -> length ts = length psrs.
Proof. intros H. symmetry. by eapply length_mapM. Qed.

(** X8: [Tspan] is undefined (the cell raises [ValueError]) exactly when
    there is no pulsar at all or some pulsar has an empty array of arrival
    times. *)
Theorem Tspan_undefined_iff (psrs : list (list time)) :
  Span.Tspan isnan leb sub psrs = None <-> psrs = [] \/ [] ∈ psrs.
Proof.
  unfold Span.Tspan, Span.np_min, Span.np_max.
  destruct (mapM (Span.reduce (Span.minimum isnan leb)) psrs) as [tmin|] eqn:Hmin;
    [|simpl; split; [intros _; right; by apply (mapM_reduce_None (Span.minimum isnan leb))|done]].
  assert (Hno : ~ [] ∈ psrs).
  { intros Hin%(mapM_reduce_None (Span.minimum isnan leb)). congruence. }
  destruct (mapM (Span.reduce (Span.maximum isnan leb)) psrs) as [tmax|] eqn:Hmax;
    [|by apply (mapM_reduce_None (Span.maximum isnan leb)) in Hmax].
  apply mapM_reduce_length in Hmin, Hmax. simpl.
  destruct psrs as [|toas psrs].
  - destruct tmax; [|done]. simpl. split; [by left|done].
  - destruct tmax as [|t1 tmax]; [done|]. destruct tmin as [|t2 tmin]; [done|].
    simpl. split; [done|]. intros [?|?]; done.
Qed.

(** X9: on a single pulsar the two notebooks compute the same span: the
    list form of [stochastic_gwb_analysis.ipynb] applied to one pulsar is
    the scalar form of [single_pulsar_noise.ipynb]. *)
Theorem Tspan_of_one_pulsar (toas : list time) :
  Span.Tspan isnan leb sub [toas] = Span.Tspan_single isnan leb sub toas.
Proof.
  unfold Span.Tspan, Span.Tspan_single.
  destruct toas as [|t toas]; [done|]. reflexivity.
Qed.

End Times.

End SpanMore.

(** ** The parameter-name file: what comes back in general *)

Module ParamsFileMore.

(** The text of a name before its first [#]. *)
Definition before_hash (name : string) : string := List.hd "" (Py.split "#"%char name).

Definition nonempty (s : string) : bool := negb (String.eqb s "").

(** The names that survive the reader: each cut at its first [#], those
    left empty dropped. *)
Definition kept (param_names : list string) : list string :=
  List.filter nonempty (List.map before_hash param_names).

(** What [list(np.loadtxt(...))] gives for the kept names: a single name
    is an array without axes, which cannot be iterated. *)
Definition read_back (names : list string) : option (list ParamsFile.item) :=
  match names with
  | [_] => None
  | _ => Some (List.map ParamsFile.Str names)
  end.

(** [params.index(name)] on the list read back; comparing a row with a
    string is not a truth value ([ValueError], here [None], like a missing
    name). *)
Fixpoint index_item (name : string) (params : list ParamsFile.item) : option nat :=
  match params with
  | [] => None
  | ParamsFile.Str s :: rest =>
      if String.eqb s name then Some 0%nat else S <$> index_item name rest
  | ParamsFile.Row _ :: _ => None
  end.

Lemma before_hash_no_space (name : string) :
  Py.has_space name = false -> Py.has_space (before_hash name) = false.
Proof.
  intros Hn. unfold before_hash.
  destruct (PyFacts.hd_split_decomp "#" name) as [_ [Heq|[t Heq]]].
  - by rewrite <- Heq.
  - rewrite Heq, ParamsFile.has_space_app in Hn. by apply orb_false_elim in Hn as [? _].
Qed.

Lemma before_hash_without (c : ascii) (name : string) :
  Py.has_char c name = false -> Py.has_char c (before_hash name) = false.
Proof.
  intros Hn. unfold before_hash.
  destruct (PyFacts.hd_split_decomp "#" name) as [_ [Heq|[t Heq]]].
  - by rewrite <- Heq.
  - rewrite Heq, PyFacts.has_char_app in Hn. by apply orb_false_elim in Hn as [? _].
Qed.

Lemma split_line_no_space (name : string) :
  Py.has_space name = false ->
  ParamsFile.split_line name
  = if nonempty (before_hash name) then [before_hash name] else [].
Proof.
  intros Hn%before_hash_no_space. unfold ParamsFile.split_line. fold (before_hash name).
  destruct (before_hash name) as [|c s] eqn:E; [done|].
  cbn [nonempty String.eqb negb]. by apply ParamsFile.words_one.
Qed.

Lemma read_rows_no_space (names : list string) :
  forallb (fun n => negb (Py.has_space n)) names = true ->
  forallb (ParamsFile.without "000") names = true ->
  ParamsFile.read_rows (ParamsFile.savetxt names) = List.map (fun n => [n]) (kept names).
Proof.
  intros Hs H0. unfold ParamsFile.read_rows. rewrite ParamsFile.savetxt_lines by done.
  rewrite List.map_app, List.filter_app. simpl. rewrite app_nil_r. unfold kept.
  clear H0. induction names as [|n names IH]; simpl in *; [done|].
  apply andb_prop in Hs as [Hn%negb_true_iff Hs].
  rewrite split_line_no_space by done.
  destruct (nonempty (before_hash n)); simpl; by rewrite IH.
Qed.

Lemma kept_without (c : ascii) (names : list string) :
  forallb (ParamsFile.without c) names = true ->
  forallb (ParamsFile.without c) (kept names) = true.
Proof.
  unfold kept. induction names as [|n names IH]; simpl; [done|].
  intros [Hn%negb_true_iff Hns]%andb_prop.
  destruct (nonempty (before_hash n)); simpl; [|by apply IH].
  unfold ParamsFile.without at 1. by rewrite before_hash_without, IH.
Qed.

(** The reader's result on any list of names without whitespace and
    without NUL. *)
Lemma write_then_read_no_space (names : list string) :
  forallb (fun n => negb (Py.has_space n)) names = true ->
  forallb (ParamsFile.without "000") names = true ->
  ParamsFile.write_then_read names = read_back (kept names).
Proof.
  intros Hs H0. unfold ParamsFile.write_then_read, ParamsFile.loadtxt.
  rewrite read_rows_no_space by done.
  rewrite ParamsFile.unpad_column by by apply kept_without.
  rewrite ParamsFile.from_rows_column.
  by destruct (kept names) as [|n1 [|n2 rest]].
Qed.



Lemma index_item_Str (name : string) (names : list string) :
  index_item name (List.map ParamsFile.Str names) = Py.index name names.
Proof. induction names as [|n names IH]; simpl; [done|]. by rewrite IH. Qed.



End ParamsFileMore.

(** ** [cw_exercises.ipynb]: naming a fake pulsar and its files

<<
    c = SkyCoord(phi,theta,frame='icrs',unit='rad')
    cstr = c.to_string('hmsdms')
    RAJ = cstr.split(" ")[0].replace("h",":").replace("m",":")[:-1]
    DECJ = cstr.split(" ")[1].replace("d",":").replace("m",":")[:-1]
    cstr = cstr.replace(" ","")
    name = "J"+RAJ[0:2]+RAJ[3:5]+DECJ[0]+DECJ[1:3]+DECJ[4:6]
    output += "PSR      %s\n"%name
    ...
    filename = "%s%s.par"%(DIR,name)
    with open(filename,'w') as FILE:
        FILE.write(output)
    return filename.encode('ascii','ignore')
    ...
    psr.savetim('%s.tim'%par.split('.')[0])
>>

    The notebook runs under Python 2: [DIR], a literal, is a byte string,
    while the position [cstr] that [SkyCoord.to_string] returns is a
    Unicode text, and so is everything cut out of it.  Formatting
    [filename] decodes [DIR] as ASCII; writing [output] to the file encodes
    it as ASCII. *)

Module FakePulsar.

(** [s.replace(a, b)] for one-character [a] and [b]. *)
Fixpoint replace_char (a b : ascii) (s : string) : string :=
  match s with
  | EmptyString => EmptyString
  | String c s' => String (if Ascii.eqb c a then b else c) (replace_char a b s')
  end.

(** [s[:-1]]. *)
Fixpoint drop_last (s : string) : string :=
  match s with
  | EmptyString => EmptyString
  | String c s' =>
      match s' with
      | EmptyString => EmptyString
      | String _ _ => String c (drop_last s')
      end
  end.

(** [s[i:j]] for [0 <= i <= j]; a slice past the end is cut short. *)
Definition slice (i j : nat) (s : string) : string := String.substring i (j - i) s.

(** [s[0]]; [None] is [IndexError]. *)
Definition item0 (s : string) : option string :=
  match s with
  | EmptyString => None
  | String c _ => Some (String c EmptyString)
  end.

Definition nl : string := String "010" EmptyString.

(** [RAJ], [DECJ] and [name] from the text [cstr] that [SkyCoord.to_string]
    returned; [None] is the [IndexError] of [split(" ")[1]] or of
    [DECJ[0]]. *)
Definition names_of (cstr : string) : option (string * string * string) :=
  let parts := Py.split " "%char cstr in
  ra ← nth_error parts 0;
  let RAJ := drop_last (replace_char "m" ":" (replace_char "h" ":" ra)) in
  dec ← nth_error parts 1;
  let DECJ := drop_last (replace_char "m" ":" (replace_char "d" ":" dec)) in
  sign ← item0 DECJ;
  let name := "J" +:+ slice 0 2 RAJ +:+ slice 3 5 RAJ +:+ sign
                  +:+ slice 1 3 DECJ +:+ slice 4 6 DECJ in
  Some (RAJ, DECJ, name).

Inductive exn := IndexError | UnicodeDecodeError | IOError | UnicodeEncodeError.

(** What a call leaves behind: an exception, and the file it had created
    (left empty) if any; or the path it returns, the file it wrote and the
    text in it. *)
Inductive outcome :=
| Raised (e : exn) (created : option string)
| Returned (path : string) (filename : string) (output : string).

(** [u.encode('ascii','ignore')] of a Unicode text: its ASCII characters. *)
Fixpoint encode_ascii_ignore (u : string) : string :=
  match u with
  | EmptyString => EmptyString
  | String c u' =>
      if (nat_of_ascii c <? 128)%nat then String c (encode_ascii_ignore u')
      else encode_ascii_ignore u'
  end.

(** [make_fake_pulsar(DIR)] from the sky position on.  [f0] and [px] are
    the renderings ["%0.10f" % (1.0/period)] and ["%0.5f" % (1.0/dist)] of
    the two random draws, digits and a point; [can_open] tells whether
    [open(filename,'w')] succeeds.  The cell raises [IndexError] on a
    position it cannot cut, [UnicodeDecodeError] when [DIR] is not ASCII,
    [IOError] when the file cannot be opened, and [UnicodeEncodeError] when
    the position brought a character that is not ASCII into the text to
    write. *)
Definition make_fake_pulsar (can_open : string -> bool) (DIR cstr f0 px : string) : outcome :=
  match names_of cstr with
  | None => Raised IndexError None
  | Some (RAJ, DECJ, name) =>
      let output :=
        "MODE 1" +:+ nl
        +:+ "PSR      " +:+ name +:+ nl
        +:+ "PEPOCH   50000.0" +:+ nl
        +:+ "POSEPOCH   50000.0" +:+ nl
        +:+ "F0       " +:+ f0 +:+ " 1" +:+ nl
        +:+ "RAJ      " +:+ RAJ +:+ " 1" +:+ nl
        +:+ "DECJ     " +:+ DECJ +:+ " 1" +:+ nl
        +:+ "PX       " +:+ px +:+ " 1" +:+ nl in
      if DataFiles.is_ascii DIR then
        let filename := DIR +:+ name +:+ ".par" in
        if can_open filename then
          if DataFiles.is_ascii (name +:+ RAJ +:+ DECJ)
          then Returned (encode_ascii_ignore filename) filename output
          else Raised UnicodeEncodeError (Some filename)
        else Raised IOError None
      else Raised UnicodeDecodeError None
  end.

(** A file system in which every file can be opened. *)
Definition any_file (filename : string) : bool := true.

(** The file [observe(par)] saves the arrival times to:
    ['%s.tim' % par.split('.')[0]]. *)
Definition tim_path (par : string) : string :=
  List.hd "" (Py.split "."%char par) +:+ ".tim".

(** The text [to_string('hmsdms')] returns: hours, minutes and seconds of
    right ascension, then the signed degrees, minutes and seconds of
    declination. *)
Definition hmsdms (hh mm ss : string) (sg : ascii) (dd dm ds : string) : string :=
  (hh +:+ String "h" (mm +:+ String "m" (ss +:+ "s")))
  +:+ String " " (String sg (dd +:+ String "d" (dm +:+ String "m" (ds +:+ "s")))).

Definition is_digit (c : ascii) : bool :=
  let n := nat_of_ascii c in (48 <=? n)%nat && (n <=? 57)%nat.

Definition is_sign (c : ascii) : bool := Ascii.eqb c "+" || Ascii.eqb c "-".

Fixpoint all_chars (p : ascii -> bool) (s : string) : bool :=
  match s with
  | EmptyString => true
  | String c s' => p c && all_chars p s'
  end.

(** Two digits. *)
Definition two_digits (s : string) : bool :=
  all_chars is_digit s && (String.length s =? 2)%nat.

(** Digits with a decimal point among them. *)
Definition decimal (s : string) : bool :=
  all_chars (fun c => is_digit c || Ascii.eqb c ".") s.

Definition well_formed (hh mm ss : string) (sg : ascii) (dd dm ds : string) : bool :=
  two_digits hh && two_digits mm && decimal ss && is_sign sg
  && two_digits dd && two_digits dm && decimal ds.

Example names_of_run :
  names_of "00h42m44.33s +41d16m07.5s"
  = Some ("00:42:44.33", "+41:16:07.5", "J0042+4116").
Proof. reflexivity. Qed.

Example make_fake_pulsar_run :
  make_fake_pulsar any_file "" "19h10m02.1s +49d09m31s" "215.4" "0.5"
  = Returned "J1910+4909.par" "J1910+4909.par"
      ("MODE 1" +:+ nl +:+ "PSR      J1910+4909" +:+ nl
       +:+ "PEPOCH   50000.0" +:+ nl +:+ "POSEPOCH   50000.0" +:+ nl
       +:+ "F0       215.4 1" +:+ nl +:+ "RAJ      19:10:02.1 1" +:+ nl
       +:+ "DECJ     +49:09:31 1" +:+ nl +:+ "PX       0.5 1" +:+ nl).
Proof. reflexivity. Qed.

(** A directory whose name is not ASCII (here the byte 233), and a
    directory that does not exist. *)
Example make_fake_pulsar_not_ascii :
  make_fake_pulsar any_file (String "233" "/") "19h10m02.1s +49d09m31s" "215.4" "0.5"
  = Raised UnicodeDecodeError None.
Proof. reflexivity. Qed.

Example make_fake_pulsar_no_directory :
  make_fake_pulsar (fun f => negb (Py.starts_with "missing/" f))
    "missing/" "19h10m02.1s +49d09m31s" "215.4" "0.5"
  = Raised IOError None.
Proof. reflexivity. Qed.

Example names_of_no_space : names_of "00h42m44.33s" = None.
Proof. reflexivity. Qed.

(** *** Facts about the string operations *)

Lemma replace_char_app (a b : ascii) (s t : string) :
  replace_char a b (s +:+ t) = replace_char a b s +:+ replace_char a b t.
Proof. induction s as [|c s IH]; simpl; [done|]. by rewrite IH. Qed.

Lemma replace_char_absent (a b : ascii) (s : string) :
  Py.has_char a s = false -> replace_char a b s = s.
Proof.
  induction s as [|c s IH]; simpl; [done|].
  intros [Hc Hs]%orb_false_elim. by rewrite Hc, IH.
Qed.

Lemma drop_last_snoc (s : string) (c : ascii) :
  drop_last (s +:+ String c "") = s.
Proof.
  induction s as [|d s IH]; [done|].
  change (String d s +:+ String c "") with (String d (s +:+ String c "")).
  cbn [drop_last]. rewrite IH. by destruct s.
Qed.

Lemma all_chars_absent (p : ascii -> bool) (a : ascii) (s : string) :
  p a = false -> all_chars p s = true -> Py.has_char a s = false.
Proof.
  intros Ha. induction s as [|c s IH]; simpl; [done|].
  intros [Hc Hs]%andb_prop. rewrite IH by done.
  destruct (Ascii.eqb_spec c a) as [->|_]; [congruence|done].
Qed.

Lemma all_chars_weaken (p q : ascii -> bool) (s : string) :
  (forall c, p c = true -> q c = true) -> all_chars p s = true -> all_chars q s = true.
Proof.
  intros Hpq. induction s as [|c s IH]; simpl; [done|].
  intros [Hc Hs]%andb_prop. by rewrite (Hpq c Hc), IH.
Qed.

Lemma two_digits_decimal (s : string) : two_digits s = true -> decimal s = true.
Proof.
  unfold two_digits, decimal. intros [Hd _]%andb_prop.
  eapply all_chars_weaken; [|exact Hd]. intros c ->. done.
Qed.

(** No digit, point or sign is a letter or a space. *)
Lemma decimal_absent (a : ascii) (s : string) :
  is_digit a || Ascii.eqb a "." = false -> decimal s = true -> Py.has_char a s = false.
Proof. intros Ha. by apply all_chars_absent. Qed.

Lemma two_digits_shape (s : string) :
  two_digits s = true ->
  exists a b, s = String a (String b "") /\ is_digit a = true /\ is_digit b = true.
Proof.
  unfold two_digits. intros [Hd Hlen%Nat.eqb_eq]%andb_prop.
  destruct s as [|a [|b [|c s]]]; simpl in Hlen; try lia.
  simpl in Hd. apply andb_prop in Hd as [Ha [Hb _]%andb_prop]. by exists a, b.
Qed.

Lemma digit_not_point (a : ascii) : is_digit a = true -> Ascii.eqb a "." = false.
Proof.
  intros Ha. destruct (Ascii.eqb_spec a ".") as [->|_]; [|done]. by vm_compute in Ha.
Qed.

Lemma sign_cases (sg : ascii) : is_sign sg = true -> sg = "+"%char \/ sg = "-"%char.
Proof.
  unfold is_sign. intros [H|H]%orb_prop; apply Ascii.eqb_eq in H; auto.
Qed.

(** *** The names *)

Lemma append_cons_assoc (a b t : string) (c : ascii) :
  (a +:+ String c b) +:+ t = a +:+ String c (b +:+ t).
Proof. induction a as [|d a IH]; simpl; [done|]. by rewrite IH. Qed.

(** One field of the position, [X u Y m Z s], with its unit letters turned
    into colons and its last character cut. *)
Lemma clean_field (u : ascii) (X Y Z : string) :
  is_digit u || Ascii.eqb u "." = false ->
  Ascii.eqb "m" u = false -> Ascii.eqb "s" u = false ->
  decimal X = true -> decimal Y = true -> decimal Z = true ->
  drop_last (replace_char "m" ":"
               (replace_char u ":" (X +:+ String u (Y +:+ String "m" (Z +:+ "s")))))
  = X +:+ String ":" (Y +:+ String ":" Z).
Proof.
  intros Hu Hm Hs HX HY HZ.
  rewrite !replace_char_app. cbn [replace_char]. rewrite !replace_char_app.
  cbn [replace_char]. rewrite !replace_char_app. cbn [replace_char String.append].
  rewrite Ascii.eqb_refl, Hm, Hs.
  rewrite !(replace_char_absent u) by by apply decimal_absent.
  rewrite !(replace_char_absent "m") by by apply decimal_absent.
  change (Ascii.eqb ":" "m") with false. change (Ascii.eqb "m" "m") with true.
  change (Ascii.eqb "s" "m") with false. cbn iota.
  rewrite <- (append_cons_assoc Y Z "s" ":"), <- (append_cons_assoc X _ "s" ":").
  apply drop_last_snoc.
Qed.

Lemma field_no_space (u : ascii) (X Y Z : string) :
  Ascii.eqb u " " = false ->
  decimal X = true -> decimal Y = true -> decimal Z = true ->
  Py.has_char " " (X +:+ String u (Y +:+ String "m" (Z +:+ "s"))) = false.
Proof.
  intros Hu HX HY HZ.
  rewrite PyFacts.has_char_app. cbn [Py.has_char]. rewrite PyFacts.has_char_app.
  cbn [Py.has_char]. rewrite PyFacts.has_char_app. cbn [Py.has_char].
  rewrite !(decimal_absent " ") by done. by rewrite Hu.
Qed.

(** The right ascension, the declination and the name cut out of a
    well-formed position. *)
Lemma names_of_hmsdms (hh mm ss : string) (sg : ascii) (dd dm ds : string) :
  well_formed hh mm ss sg dd dm ds = true ->
  names_of (hmsdms hh mm ss sg dd dm ds)
  = Some (hh +:+ ":" +:+ mm +:+ ":" +:+ ss,
          String sg (dd +:+ ":" +:+ dm +:+ ":" +:+ ds),
          "J" +:+ hh +:+ mm +:+ String sg (dd +:+ dm)).
Proof.
  unfold well_formed.
  intros [[[[[[Hhh Hmm]%andb_prop Hss]%andb_prop Hsg]%andb_prop Hdd]%andb_prop
            Hdm]%andb_prop Hds]%andb_prop.
  pose proof (two_digits_decimal _ Hhh) as Phh. pose proof (two_digits_decimal _ Hmm) as Pmm.
  pose proof (two_digits_decimal _ Hdd) as Pdd. pose proof (two_digits_decimal _ Hdm) as Pdm.
  set (ra := hh +:+ String "h" (mm +:+ String "m" (ss +:+ "s"))).
  set (dec := dd +:+ String "d" (dm +:+ String "m" (ds +:+ "s"))).
  assert (Hra_sp : Py.has_char " " ra = false) by by apply field_no_space.
  assert (Hdec_sp : Py.has_char " " (String sg dec) = false).
  { cbn [Py.has_char]. unfold dec. rewrite field_no_space by done.
    by destruct (sign_cases sg Hsg) as [-> | ->]. }
  assert (Hsplit : Py.split " "%char (hmsdms hh mm ss sg dd dm ds) = [ra; String sg dec]).
  { unfold hmsdms. fold ra. fold dec.
    by rewrite PyFacts.split_app_sep, !PyFacts.split_no_sep. }
  assert (HRAJ : drop_last (replace_char "m" ":" (replace_char "h" ":" ra))
                 = hh +:+ String ":" (mm +:+ String ":" ss)) by by apply clean_field.
  assert (HDECJ : drop_last (replace_char "m" ":" (replace_char "d" ":" (String sg dec)))
                  = String sg (dd +:+ String ":" (dm +:+ String ":" ds))).
  { cbn [replace_char].
    assert (Hsg' : (if Ascii.eqb (if Ascii.eqb sg "d" then ":"%char else sg) "m"
                    then ":"%char else sg) = sg)
      by by destruct (sign_cases sg Hsg) as [-> | ->].
    replace (if Ascii.eqb (if Ascii.eqb sg "d" then ":"%char else sg) "m"
             then ":"%char else if Ascii.eqb sg "d" then ":"%char else sg) with sg
      by by destruct (sign_cases sg Hsg) as [-> | ->].
    clear Hsg'.
    pose proof (clean_field "d" dd dm ds eq_refl eq_refl eq_refl Pdd Pdm Hds) as Hc.
    fold dec in Hc. cbn [drop_last].
    destruct (replace_char "m" ":" (replace_char "d" ":" dec)) as [|c r] eqn:E.
    - cbn [drop_last] in Hc. destruct (two_digits_shape dd Hdd) as (a & b & -> & _).
      discriminate Hc.
    - by rewrite Hc. }
  unfold names_of. rewrite Hsplit. cbn [nth_error mbind option_bind].
  rewrite HRAJ, HDECJ. cbn [item0 mbind option_bind].
  destruct (two_digits_shape hh Hhh) as (h1 & h2 & -> & _).
  destruct (two_digits_shape mm Hmm) as (m1 & m2 & -> & _).
  destruct (two_digits_shape dd Hdd) as (d1 & d2 & -> & _).
  destruct (two_digits_shape dm Hdm) as (e1 & e2 & -> & _).
  reflexivity.
Qed.

Lemma decimal_app (s t : string) :
  decimal s = true -> decimal t = true -> decimal (s +:+ t) = true.
Proof.
  unfold decimal. induction s as [|c s IH]; simpl; [done|].
  intros [Hc Hs]%andb_prop Ht. by rewrite Hc, IH.
Qed.

(** The name of a well-formed position has no dot in it. *)
Lemma name_no_dot (hh mm : string) (sg : ascii) (dd dm : string) :
  two_digits hh = true -> two_digits mm = true -> is_sign sg = true ->
  two_digits dd = true -> two_digits dm = true ->
  Py.has_char "." ("J" +:+ hh +:+ mm +:+ String sg (dd +:+ dm)) = false.
Proof.
  intros Hhh Hmm Hsg Hdd Hdm.
  destruct (two_digits_shape hh Hhh) as (h1 & h2 & -> & A1 & A2).
  destruct (two_digits_shape mm Hmm) as (m1 & m2 & -> & A3 & A4).
  destruct (two_digits_shape dd Hdd) as (d1 & d2 & -> & A5 & A6).
  destruct (two_digits_shape dm Hdm) as (e1 & e2 & -> & A7 & A8).
  cbn [String.append Py.has_char].
  rewrite (digit_not_point h1), (digit_not_point h2), (digit_not_point m1),
    (digit_not_point m2), (digit_not_point d1), (digit_not_point d2),
    (digit_not_point e1), (digit_not_point e2) by done.
  by destruct (sign_cases sg Hsg) as [-> | ->].
Qed.

Lemma append_assoc' (a b c : string) : (a +:+ b) +:+ c = a +:+ (b +:+ c).
Proof. induction a as [|d a IH]; simpl; [done|]. by rewrite IH. Qed.

Lemma tim_path_par (stem : string) :
  Py.has_char "." stem = false -> tim_path (stem +:+ ".par") = stem +:+ ".tim".
Proof.
  intros Hs. unfold tim_path.
  change (stem +:+ ".par") with (stem +:+ String "." "par").
  by rewrite PyFacts.hd_split_app.
Qed.

(** *** When the function raises *)

Lemma nth_error_split_1 (c : ascii) (s : string) :
  nth_error (Py.split c s) 1 = None <-> Py.has_char c s = false.
Proof.
  induction s as [|d s IH]; simpl; [done|].
  destruct (Ascii.eqb d c); simpl.
  - pose proof (PyFacts.split_not_nil c s). by destruct (Py.split c s).
  - rewrite <- IH. pose proof (PyFacts.split_not_nil c s).
    by destruct (Py.split c s) as [|q [|q' qs]].
Qed.

Lemma replace_char_length (a b : ascii) (s : string) :
  String.length (replace_char a b s) = String.length s.
Proof. induction s as [|c s IH]; simpl; [done|]. by rewrite IH. Qed.

Lemma item0_drop_last (s : string) :
  item0 (drop_last s) = None <-> (String.length s <= 1)%nat.
Proof.
  destruct s as [|c [|d s]]; simpl; split; intros H; try done; try lia.
Qed.

Lemma names_of_None (cstr : string) :
  names_of cstr = None <->
  Py.has_char " " cstr = false \/
  (String.length (nth 1 (Py.split " "%char cstr) "") <= 1)%nat.
Proof.
  unfold names_of.
  pose proof (nth_error_split_1 " " cstr) as H1.
  pose proof (PyFacts.split_not_nil " " cstr) as Hnil.
  destruct (Py.split " "%char cstr) as [|ra [|dec rest]]; [done| |].
  - cbn [nth_error mbind option_bind nth] in *. split; [intros _|done].
    left. by apply H1.
  - cbn [nth_error mbind option_bind nth] in *.
    destruct (item0 (drop_last (replace_char "m" ":" (replace_char "d" ":" dec))))
      as [sign|] eqn:E.
    + split; [done|]. intros [Hsp|Hlen].
      * apply H1 in Hsp. discriminate Hsp.
      * assert (E' : item0 (drop_last (replace_char "m" ":" (replace_char "d" ":" dec)))
                     = None)
          by (apply item0_drop_last; by rewrite !replace_char_length).
        congruence.
    + split; [intros _|done]. right.
      apply item0_drop_last in E. by rewrite !replace_char_length in E.
Qed.

Example names_of_bare_sign : names_of "00h42m44.33s +" = None.
Proof. reflexivity. Qed.

(** *** ASCII texts *)

Lemma encode_ascii_ignore_id (u : string) :
  DataFiles.is_ascii u = true -> encode_ascii_ignore u = u.
Proof.
  induction u as [|c u IH]; simpl; [done|].
  intros [Hc Hu]%andb_prop. by rewrite Hc, IH.
Qed.

Lemma all_chars_ascii (p : ascii -> bool) (s : string) :
  (forall c, p c = true -> (nat_of_ascii c <? 128)%nat = true) ->
  all_chars p s = true -> DataFiles.is_ascii s = true.
Proof.
  intros Hp. induction s as [|c s IH]; simpl; [done|].
  intros [Hc Hs]%andb_prop. by rewrite (Hp c Hc), IH.
Qed.

Lemma decimal_char_ascii (c : ascii) :
  is_digit c || Ascii.eqb c "." = true -> (nat_of_ascii c <? 128)%nat = true.
Proof. destruct c as [[] [] [] [] [] [] [] []]; by vm_compute. Qed.

Lemma decimal_ascii (s : string) : decimal s = true -> DataFiles.is_ascii s = true.
Proof. apply all_chars_ascii, decimal_char_ascii. Qed.

Lemma sign_ascii (sg : ascii) : is_sign sg = true -> (nat_of_ascii sg <? 128)%nat = true.
Proof. by intros [-> | ->]%sign_cases. Qed.

(** The texts cut out of a well-formed position are ASCII. *)
Lemma position_ascii (hh mm ss : string) (sg : ascii) (dd dm ds : string) :
  well_formed hh mm ss sg dd dm ds = true ->
  DataFiles.is_ascii
    (("J" +:+ hh +:+ mm +:+ String sg (dd +:+ dm))
     +:+ (hh +:+ ":" +:+ mm +:+ ":" +:+ ss)
     +:+ String sg (dd +:+ ":" +:+ dm +:+ ":" +:+ ds)) = true.
Proof.
  unfold well_formed.
  intros [[[[[[Hhh Hmm]%andb_prop Hss]%andb_prop Hsg]%andb_prop Hdd]%andb_prop
            Hdm]%andb_prop Hds]%andb_prop.
  pose proof (decimal_ascii _ (two_digits_decimal _ Hhh)) as Ahh.
  pose proof (decimal_ascii _ (two_digits_decimal _ Hmm)) as Amm.
  pose proof (decimal_ascii _ (two_digits_decimal _ Hdd)) as Add.
  pose proof (decimal_ascii _ (two_digits_decimal _ Hdm)) as Adm.
  pose proof (decimal_ascii _ Hss) as Ass. pose proof (decimal_ascii _ Hds) as Ads.
  pose proof (sign_ascii _ Hsg) as Asg.
  repeat first [ rewrite DataFiles.is_ascii_app | progress cbn [DataFiles.is_ascii] ].
  rewrite Ahh, Amm, Add, Adm, Ass, Ads, Asg. reflexivity.
Qed.

(** When the function returns, it returns the name of the file it wrote. *)
Lemma returned_path (can_open : string -> bool) (DIR cstr f0 px path filename output : string) :
  make_fake_pulsar can_open DIR cstr f0 px = Returned path filename output ->
  path = filename /\
  (exists name, names_of cstr = Some name /\ filename = DIR +:+ name.2 +:+ ".par") /\
  DataFiles.is_ascii DIR = true /\ can_open filename = true.
Proof.
  unfold make_fake_pulsar.
  destruct (names_of cstr) as [[[RAJ DECJ] name]|]; [|done].
  destruct (DataFiles.is_ascii DIR) eqn:HD; [|done].
  destruct (can_open _) eqn:Ho; [|done].
  destruct (DataFiles.is_ascii (name +:+ RAJ +:+ DECJ)) eqn:Ha; [|done].
  intros [= <- <- _].
  rewrite !DataFiles.is_ascii_app in Ha.
  apply andb_prop in Ha as [Hn _].
  split; [|split; [by exists (RAJ, DECJ, name)|done]].
  apply encode_ascii_ignore_id.
  rewrite !DataFiles.is_ascii_app, HD, Hn. reflexivity.
Qed.

(** The call on a well-formed position. *)
Lemma make_fake_pulsar_hmsdms
    (can_open : string -> bool) (DIR hh mm ss : string) (sg : ascii) (dd dm ds f0 px : string) :
  well_formed hh mm ss sg dd dm ds = true ->
  DataFiles.is_ascii DIR = true ->
  can_open (DIR +:+ ("J" +:+ hh +:+ mm +:+ String sg (dd +:+ dm)) +:+ ".par") = true ->
  make_fake_pulsar can_open DIR (hmsdms hh mm ss sg dd dm ds) f0 px
  = Returned
      (DIR +:+ ("J" +:+ hh +:+ mm +:+ String sg (dd +:+ dm)) +:+ ".par")
      (DIR +:+ ("J" +:+ hh +:+ mm +:+ String sg (dd +:+ dm)) +:+ ".par")
      ("MODE 1" +:+ nl
       +:+ "PSR      " +:+ ("J" +:+ hh +:+ mm +:+ String sg (dd +:+ dm)) +:+ nl
       +:+ "PEPOCH   50000.0" +:+ nl
       +:+ "POSEPOCH   50000.0" +:+ nl
       +:+ "F0       " +:+ f0 +:+ " 1" +:+ nl
       +:+ "RAJ      " +:+ (hh +:+ ":" +:+ mm +:+ ":" +:+ ss) +:+ " 1" +:+ nl
       +:+ "DECJ     " +:+ String sg (dd +:+ ":" +:+ dm +:+ ":" +:+ ds) +:+ " 1" +:+ nl
       +:+ "PX       " +:+ px +:+ " 1" +:+ nl).
Proof.
  intros Hwf HD Ho. unfold make_fake_pulsar.
  rewrite (names_of_hmsdms _ _ _ _ _ _ _ Hwf). cbv iota beta zeta.
  rewrite HD, Ho, (position_ascii _ _ _ _ _ _ _ Hwf).
  f_equal. apply encode_ascii_ignore_id.
  pose proof (position_ascii _ _ _ _ _ _ _ Hwf) as Ha.
  rewrite !DataFiles.is_ascii_app in Ha. apply andb_prop in Ha as [Hn _].
  rewrite !DataFiles.is_ascii_app, HD, Hn. reflexivity.
Qed.

(** *** Properties *)





(** X14: When [DIR] has a dot in it, [observe] saves the arrival times of
    every pulsar [make_fake_pulsar(DIR)] made to one and the same file: the
    text of [DIR] before its first dot, with [.tim] added.  With
    [DIR = "./"] that file is [.tim]. *)
Theorem observe_tim_path_of_dotted_dir
    (can_open : string -> bool) (d1 rest cstr f0 px file filename output : string) :
  Py.has_char "." d1 = false ->
  make_fake_pulsar can_open (d1 +:+ String "." rest) cstr f0 px
  = Returned file filename output ->
  tim_path file = d1 +:+ ".tim".
Proof.
  intros Hd1 (-> & (name & _ & ->) & _)%returned_path. unfold tim_path.
  by rewrite append_cons_assoc, PyFacts.hd_split_app.
Qed.

Lemma observe_tim_path_of_dotted_dir_witness :
  tim_path "./J1910+4909.par" = ".tim".
Proof.
  exact (observe_tim_path_of_dotted_dir any_file "" "/" "19h10m02.1s +49d09m31s" "215.4" "0.5"
           "./J1910+4909.par" _ _ eq_refl eq_refl).
Defined.


End FakePulsar.

(** * The axis label of [plot_param] (cw_exercises) *)

Module PlotParam.

(** The text [plot_param(name)] hands to [xlabel]:
<<
    if "log10" in name:
        xlabel(r"$\log_{10} \mathrm{%s}$"%(name.split('_')[-1]))
    else:
        xlabel(name)
>> *)
Definition xlabel_of (name : string) : string :=
  if Py.contains "log10" name
  then "$\log_{10} \mathrm{" +:+ List.last (Py.split "_"%char name) "" +:+ "}$"
  else name.

Lemma last_split_app (c : ascii) (p x : string) :
  Py.has_char c x = false -> List.last (Py.split c (p +:+ String c x)) "" = x.
Proof.
  intros Hx. rewrite PyFacts.split_app_sep, (PyFacts.split_no_sep c x) by done.
  apply List.last_last.
Qed.

Example xlabel_of_run :
  xlabel_of "log10_mc" = "$\log_{10} \mathrm{mc}$" /\ xlabel_of "cos_inc" = "cos_inc".
Proof. by split. Qed.

(** X16: for a name with ["log10"] in it, the axis label shows only the text
    after the last underscore of the name, wherever in the name ["log10"]
    stands. *)
Theorem plot_param_label_is_last_piece (p x : string) :
  Py.has_char "_" x = false ->
  Py.contains "log10" (p +:+ String "_" x) = true ->
  xlabel_of (p +:+ String "_" x) = "$\log_{10} \mathrm{" +:+ x +:+ "}$".
Proof.
  intros Hx Hlog. unfold xlabel_of. by rewrite Hlog, last_split_app.
Qed.

Lemma plot_param_label_is_last_piece_witness :
  xlabel_of "J1910+4909_cgw_log10_h" = "$\log_{10} \mathrm{h}$".
Proof.
  exact (plot_param_label_is_last_piece "J1910+4909_cgw_log10" "h" eq_refl eq_refl).
Defined.

End PlotParam.
